(** * tqftpserv: the transfer engine of the TFTP server over QRTR

    A shallow embedding of [tqftpserv.c]: the packet builders
    ([tftp_send_data], [tftp_send_ack], [tftp_send_oack],
    [tftp_send_error]), the option parser, the request handlers
    ([handle_rrq], [handle_wrq]), the per-transfer handlers
    ([handle_reader], [handle_writer]) and the loop of [main]: the two
    client loops and the service socket.

    Conventions of the embedding.
    - C integers are [Z] with the conversion written out: [size_t] is
      64 bits wide (LP64), [uint16_t] 16 bits.
    - A byte is a [Z] in [0, 256). The sign of plain [char] is the
      choice of the implementation: [handle_reader], [handle_writer] and
      what is built on them are the handlers where [char] is unsigned, as
      on the AArch64 targets of the server; the module [PlainChar] has
      them for either choice.
    - [malloc] and [atoi] are those of glibc: [malloc] fails for a size
      above [PTRDIFF_MAX], [atoi] is [(int) strtol].
    - The operating system is a [world]: the table of open files, the set
      of open sockets and the log of the datagrams sent so far.
    - Where the C code reads memory it never wrote, or leaves a buffer,
      the embedding answers [Undefined]. *)

From Stdlib Require Import ZArith String Ascii DecimalString.
From Stdlib Require DecimalPos.
From stdpp Require Import base gmap list.
From Equations.Prop Require Import Equations Logic.

Local Open Scope Z_scope.

(** ** Machine integers *)

Definition size_t (z : Z) : Z := z mod 2 ^ 64.
Definition ssize_t (z : Z) : Z := (z + 2 ^ 63) mod 2 ^ 64 - 2 ^ 63.
Definition off_t (z : Z) : Z := ssize_t z.
Definition uint16_t (z : Z) : Z := z mod 2 ^ 16.
Definition unsigned_int (z : Z) : Z := z mod 2 ^ 32.
Definition int (z : Z) : Z := (z + 2 ^ 31) mod 2 ^ 32 - 2 ^ 31.

Definition EINVAL : Z := 22.
Definition PTRDIFF_MAX : Z := 2 ^ 63 - 1.
Definition LONG_MAX : Z := 2 ^ 63 - 1.
Definition LONG_MIN : Z := - 2 ^ 63.

(** ** Results of the embedded C functions *)

Inductive result (A : Type) : Type :=
| Ok (a : A)
| Undefined
| OutOfFuel.
Arguments Ok {A} a.
Arguments Undefined {A}.
Arguments OutOfFuel {A}.

#[global] Instance result_ret : MRet result := λ A a, Ok a.
#[global] Instance result_bind : MBind result := λ A B f m,
  match m with
  | Ok a => f a
  | Undefined => Undefined
  | OutOfFuel => OutOfFuel
  end.

(** ** Protocol constants *)

Definition OP_RRQ : Z := 1.
Definition OP_WRQ : Z := 2.
Definition OP_DATA : Z := 3.
Definition OP_ACK : Z := 4.
Definition OP_ERROR : Z := 5.
Definition OP_OACK : Z := 6.

Definition ERROR_END_OF_TRANSFER : Z := 9.

(** ** Clients *)

Record sockaddr_qrtr : Type := SockAddr {
  sq_node : Z;
  sq_port : Z
}.

Record tftp_client : Type := Client {
  sq : sockaddr_qrtr;
  sock : Z;
  fd : Z;
  block : Z;
  blksize : Z;
  rsize : Z;
  wsize : Z;
  timeoutms : Z;
  seek : Z
}.

(** ** The operating system *)

Record ofile : Type := OFile {
  of_readable : bool;
  of_writable : bool;
  of_data : list Z;
  of_pos : nat
}.

Record world : Type := World {
  files : gmap Z ofile;
  socks : gset Z;
  wire : list (Z * list Z)
}.

(** What [recvfrom] hands to a handler: an error, or the source address
    and the bytes of the datagram at the head of the socket's queue. *)
Inductive datagram : Type :=
| RecvErr (errno : Z)
| Recv (src : sockaddr_qrtr) (data : list Z).

(** [send(sock, buf, len, 0)]: the datagram is logged and its length
    returned; on a descriptor that is not an open socket the call fails. *)
Definition send (s : Z) (msg : list Z) (w : world) : Z * world :=
  if decide (s ∈ socks w)
  then (Z.of_nat (length msg),
        World (files w) (socks w) (wire w ++ [(s, msg)]))
  else (-1, w).

(** [pread(fd, buf, count, offset)]: [None] is the return value -1. *)
Definition pread (d : Z) (count offset : Z) (w : world) : option (list Z) :=
  match files w !! d with
  | Some f =>
      if of_readable f && (0 <=? off_t offset)
      then Some (take (Z.to_nat count) (drop (Z.to_nat offset) (of_data f)))
      else None
  | None => None
  end.

(** [write(fd, buf, count)] at the file's position. *)
Definition write (d : Z) (data : list Z) (w : world) : Z * world :=
  match files w !! d with
  | Some f =>
      if of_writable f
      then
        let n := length data in
        let f' := OFile (of_readable f) (of_writable f)
                    (take (of_pos f) (of_data f) ++ data
                       ++ drop (of_pos f + n)%nat (of_data f))
                    (of_pos f + n)%nat in
        (Z.of_nat n, World (<[d := f']> (files w)) (socks w) (wire w))
      else (-1, w)
  | None => (-1, w)
  end.

Definition close (d : Z) (w : world) : world :=
  World (delete d (files w)) (socks w ∖ {[d]}) (wire w).

(** ** Packet builders *)

Definition hi8 (z : Z) : Z := Z.land (Z.shiftr z 8) 255.
Definition lo8 (z : Z) : Z := Z.land z 255.

Fixpoint bytes_of_string (s : string) : list Z :=
  match s with
  | EmptyString => []
  | String a s' => Z.of_N (N_of_ascii a) :: bytes_of_string s'
  end.

Definition data_header (blk : Z) : list Z := [0; OP_DATA; hi8 blk; lo8 blk].

(** [tftp_send_data]: the value returned is that of [send], or negative
    when the read fails or the file holds too little for [response_size].
    The result of [malloc] is not tested: for a size above [PTRDIFF_MAX]
    [malloc] returns a null pointer and the header is written through it;
    a [blksize] for which [4 + blksize] wraps leaves the buffer too small
    for what is written to it. Both are [Undefined]. Up to [PTRDIFF_MAX]
    the memory is taken to be there. *)
Definition tftp_send_data (c : tftp_client) (blk offset response_size : Z)
    (w : world) : result (Z * world) :=
  if PTRDIFF_MAX <? 4 + blksize c then Undefined
  else
    match pread (fd c) (blksize c) offset w with
    | None => Ok (-1, w)
    | Some payload =>
        let buf := data_header blk ++ payload in
        if negb (response_size =? 0) then
          let send_len := size_t (4 + response_size) in
          if send_len >? Z.of_nat (length buf) then Ok (- EINVAL, w)
          else Ok (send (sock c) (take (Z.to_nat send_len) buf) w)
        else Ok (send (sock c) buf w)
    end.

Definition ack_packet (blk : Z) : list Z := [0; OP_ACK; hi8 blk; lo8 blk].

Definition tftp_send_ack (s : Z) (blk : Z) (w : world) : Z * world :=
  send s (ack_packet blk) w.

Definition error_packet (code : Z) (msg : string) : list Z :=
  [0; OP_ERROR; hi8 code; lo8 code] ++ bytes_of_string msg ++ [0].

Definition tftp_send_error (s : Z) (code : Z) (msg : string) (w : world)
    : Z * world :=
  send s (error_packet code msg) w.

(** ** The transfer handlers *)

(** [buf[i] << 8 | buf[i + 1]] where [char] is unsigned; both bytes must
    have been received. *)
Definition rd16 (buf : list Z) (i : nat) : result Z :=
  match buf !! i, buf !! S i with
  | Some hi, Some lo => Ok (Z.lor (Z.shiftl hi 8) lo)
  | _, _ => Undefined
  end.

Definition same_peer (a b : sockaddr_qrtr) : bool :=
  (sq_node a =? sq_node b) && (sq_port a =? sq_port b).

(** The [for] loop of [handle_reader], entered at [blk]. The counter is a
    [uint16_t], so the loop need not end: [fuel] bounds the iterations. *)
Fixpoint reader_window (fuel : nat) (c : tftp_client) (last blk : Z)
    (w : world) : result world :=
  if blk <? size_t (last + wsize c) then
    match fuel with
    | O => OutOfFuel
    | S fuel' =>
        let offset := size_t (seek c + size_t (blk * blksize c)) in
        let limited := size_t ((blk + 1) * blksize c) >? rsize c in
        let response_size := if limited then rsize c mod blksize c else 0 in
        '(n, w1) ← tftp_send_data c (blk + 1) offset response_size w;
        if n <? 0 then Ok w1
        else if n =? 0 then Ok w1
        else if limited then Ok w1
        else reader_window fuel' c last (uint16_t (blk + 1)) w1
    end
  else Ok w.

(** [handle_reader]: -1 on an error, 0 when the transfer is over, 1 to go
    on. The datagram is received into 128 bytes. A datagram too short for
    the bytes the handler reads is [Undefined], and so is an Error packet
    that fills the buffer, whose [buf[len] = 0] lands behind it. The
    bytes are read as unsigned; [PlainChar.handle_reader] reads them with
    either sign. *)
Definition handle_reader (fuel : nat) (c : tftp_client) (d : datagram)
    (w : world) : result (Z * world) :=
  match d with
  | RecvErr _ => Ok (-1, w)
  | Recv src data =>
      let buf := take 128 data in
      if negb (same_peer src (sq c)) then Ok (-1, w)
      else
        opcode ← rd16 buf 0;
        if opcode =? OP_ERROR then
          if (length buf =? 128)%nat then Undefined else Ok (-1, w)
        else if negb (opcode =? OP_ACK) then Ok (-1, w)
        else
          v ← rd16 buf 2;
          let last := uint16_t v in
          if size_t (last * blksize c) >? rsize c then Ok (0, w)
          else
            w1 ← reader_window fuel c last last w;
            Ok (1, w1)
  end.

(** [handle_writer]: -1 on an error, 0 after the last block, 1 to go on.
    The datagram is received into 516 bytes. The block number, which the
    code reads before it tests the opcode, is used for a Data packet only;
    a Data packet shorter than its header, for which [len - 4] wraps, is
    [Undefined]. The bytes are read as unsigned; [PlainChar.handle_writer]
    reads them with either sign. *)
Definition handle_writer (c : tftp_client) (d : datagram) (w : world)
    : result (Z * world) :=
  match d with
  | RecvErr _ => Ok (-1, w)
  | Recv src data =>
      let buf := take 516 data in
      if negb (same_peer src (sq c)) then Ok (-1, w)
      else
        opcode ← rd16 buf 0;
        if negb (opcode =? OP_DATA) then
          Ok (-1, snd (tftp_send_error (sock c) 4 "Expected DATA opcode" w))
        else
          v ← rd16 buf 2;
          let blk := uint16_t v in
          let payload := drop 4 buf in
          let '(ret, w1) := write (fd c) payload w in
          if ret <? 0 then Ok (-1, w1)
          else
            let w2 := snd (tftp_send_ack (sock c) blk w1) in
            Ok (if (length payload =? 512)%nat then 1 else 0, w2)
  end.

(** ** The client loops of [main] *)

(** [client_close_and_free] closes the socket, then the file; unlinking the
    node is the [None] answer of [serve_writer] and [serve_reader]. *)
Definition client_close_and_free (c : tftp_client) (w : world) : world :=
  close (fd c) (close (sock c) w).

(** [rfds] after [select], with what [recvfrom] will find on each ready
    socket. *)
Definition ready : Type := Z → option datagram.

Definition serve_writer (rfds : ready) (c : tftp_client) (w : world)
    : result (option tftp_client * world) :=
  match rfds (sock c) with
  | None => Ok (Some c, w)
  | Some d =>
      '(ret, w1) ← handle_writer c d w;
      if ret <=? 0 then Ok (None, client_close_and_free c w1)
      else Ok (Some c, w1)
  end.

Definition serve_reader (fuel : nat) (rfds : ready) (c : tftp_client)
    (w : world) : result (option tftp_client * world) :=
  match rfds (sock c) with
  | None => Ok (Some c, w)
  | Some d =>
      '(ret, w1) ← handle_reader fuel c d w;
      if ret <=? 0 then Ok (None, client_close_and_free c w1)
      else Ok (Some c, w1)
  end.

(** [list_for_each_entry_safe] over a registry: the clients that stay. *)
Fixpoint for_each_client
    (body : tftp_client → world → result (option tftp_client * world))
    (cs : list tftp_client) (w : world) : result (list tftp_client * world) :=
  match cs with
  | [] => Ok ([], w)
  | c :: rest =>
      '(kept, w1) ← body c w;
      '(rest', w2) ← for_each_client body rest w1;
      Ok (option_list kept ++ rest', w2)
  end.

(** ** Strings in a request *)

(** The NUL-terminated string at the head of [buf] and what follows its
    NUL ([s = p; p += strlen(p) + 1]); [None] when the string runs off the
    end of the received bytes. *)
Fixpoint cstring (buf : list Z) : option (list Z * list Z) :=
  match buf with
  | [] => None
  | b :: rest =>
      if b =? 0 then Some ([], rest)
      else
        match cstring rest with
        | Some (s, tl) => Some (b :: s, tl)
        | None => None
        end
  end.

Definition strcmp_eq (s : list Z) (lit : string) : bool :=
  bool_decide (s = bytes_of_string lit).

Definition tolower (b : Z) : Z :=
  if (65 <=? b) && (b <=? 90) then b + 32 else b.

Definition strcasecmp_eq (s : list Z) (lit : string) : bool :=
  bool_decide (tolower <$> s = tolower <$> bytes_of_string lit).

Definition isspace (b : Z) : bool := (b =? 32) || ((9 <=? b) && (b <=? 13)).
Definition isdigit (b : Z) : bool := (48 <=? b) && (b <=? 57).

Fixpoint skip_space (s : list Z) : list Z :=
  match s with
  | b :: rest => if isspace b then skip_space rest else s
  | [] => []
  end.

Fixpoint digits (acc : Z) (s : list Z) : Z :=
  match s with
  | b :: rest => if isdigit b then digits (10 * acc + (b - 48)) rest else acc
  | [] => acc
  end.

(** [strtol] answers [LONG_MAX] or [LONG_MIN] for a number out of the
    range of [long]. *)
Definition strtol_range (z : Z) : Z := Z.max LONG_MIN (Z.min LONG_MAX z).

(** [atoi], which is [(int) strtol(s, NULL, 10)]: leading white space, an
    optional sign, the decimal digits up to the first other byte; the
    [long] is reduced to the 32 bits of an [int]. *)
Definition atoi (s : list Z) : Z :=
  match skip_space s with
  | 45 :: rest => int (strtol_range (- digits 0 rest))
  | 43 :: rest => int (strtol_range (digits 0 rest))
  | rest => int (strtol_range (digits 0 rest))
  end.

(** ** Options *)

(** The option variables of [handle_rrq] and [handle_wrq]. *)
Record options : Type := Options {
  o_blksize : Z;
  o_tsize : Z;
  o_wsize : Z;
  o_timeoutms : Z;
  o_rsize : Z;
  o_seek : Z
}.

Definition default_options : options :=
  {| o_blksize := 512; o_tsize := -1; o_wsize := 0; o_timeoutms := 1000;
     o_rsize := 0; o_seek := 0 |}.

(** The chain of [strcmp] in the body of [parse_options]. *)
Definition set_option (o : options) (opt value : list Z) : options :=
  if strcmp_eq opt "blksize" then
    Options (size_t (atoi value)) (o_tsize o) (o_wsize o) (o_timeoutms o)
      (o_rsize o) (o_seek o)
  else if strcmp_eq opt "timeoutms" then
    Options (o_blksize o) (o_tsize o) (o_wsize o) (unsigned_int (atoi value))
      (o_rsize o) (o_seek o)
  else if strcmp_eq opt "tsize" then
    Options (o_blksize o) (atoi value) (o_wsize o) (o_timeoutms o)
      (o_rsize o) (o_seek o)
  else if strcmp_eq opt "rsize" then
    Options (o_blksize o) (o_tsize o) (o_wsize o) (o_timeoutms o)
      (size_t (atoi value)) (o_seek o)
  else if strcmp_eq opt "wsize" then
    Options (o_blksize o) (o_tsize o) (size_t (atoi value)) (o_timeoutms o)
      (o_rsize o) (o_seek o)
  else if strcmp_eq opt "seek" then
    Options (o_blksize o) (o_tsize o) (o_wsize o) (o_timeoutms o)
      (o_rsize o) (atoi value)
  else o.

(** [parse_options]: [while (p < buf + len)], each turn taking a name and
    a value. *)
Equations? parse_options (buf : list Z) (o : options) : result options
    by wf (length buf) lt :=
  parse_options [] o := Ok o;
  parse_options (b :: bs) o with inspect (cstring (b :: bs)) := {
    | exist _ None _ := Undefined
    | exist _ (Some (opt, rest)) Hopt with inspect (cstring rest) := {
        | exist _ None _ := Undefined
        | exist _ (Some (value, rest')) Hval :=
            parse_options rest' (set_option o opt value) } }.
Proof.
  assert (Hlen : ∀ l s tl, cstring l = Some (s, tl) → (length tl < length l)%nat).
  { induction l as [|x l IH]; intros s tl; simpl; [discriminate|].
    destruct (x =? 0).
    - intros [= _ <-]. lia.
    - destruct (cstring l) as [[s' tl']|] eqn:E; [|discriminate].
      intros [= _ <-]. specialize (IH _ _ eq_refl). lia. }
  pose proof (Hlen (b :: bs) _ _ Hopt) as H1.
  pose proof (Hlen _ _ _ Hval) as H2. simpl in H1. lia.
Qed.

(** The names and values a request carries, as [parse_options] walks
    them. *)
Equations? request_options (buf : list Z) : result (list (list Z * list Z))
    by wf (length buf) lt :=
  request_options [] := Ok [];
  request_options (b :: bs) with inspect (cstring (b :: bs)) := {
    | exist _ None _ := Undefined
    | exist _ (Some (opt, rest)) Hopt with inspect (cstring rest) := {
        | exist _ None _ := Undefined
        | exist _ (Some (value, rest')) Hval :=
            match request_options rest' with
            | Ok l => Ok ((opt, value) :: l)
            | Undefined => Undefined
            | OutOfFuel => OutOfFuel
            end } }.
Proof.
  assert (Hlen : ∀ l s tl, cstring l = Some (s, tl) → (length tl < length l)%nat).
  { induction l as [|x l IH]; intros s tl; simpl; [discriminate|].
    destruct (x =? 0).
    - intros [= _ <-]. lia.
    - destruct (cstring l) as [[s' tl']|] eqn:E; [|discriminate].
      intros [= _ <-]. specialize (IH _ _ eq_refl). lia. }
  pose proof (Hlen (b :: bs) _ _ Hopt) as H1.
  pose proof (Hlen _ _ _ Hval) as H2. simpl in H1. lia.
Qed.

(** ** The option acknowledgement *)

(** [sprintf] with a signed conversion ([%zd], [%d]). *)
Definition decimal (z : Z) : list Z :=
  bytes_of_string (NilZero.string_of_int (Z.to_int z)).

(** The options [tftp_send_oack] writes, in the order it writes them; an
    argument is [None] for a [NULL] pointer. [%zd] prints a [size_t] as
    signed, [%d] an [unsigned int] as [int]. *)
Definition oack_options (blocksize tsize wsize timeoutms rsize seek : option Z)
    : list (string * Z) :=
  match blocksize with
  | Some v => [("blksize"%string, ssize_t v)]
  | None => []
  end ++
  match timeoutms with
  | Some v => [("timeoutms"%string, int v)]
  | None => []
  end ++
  match tsize with
  | Some v => if negb (v =? size_t (-1)) then [("tsize"%string, ssize_t v)]
              else []
  | None => []
  end ++
  match wsize with
  | Some v => [("wsize"%string, ssize_t v)]
  | None => []
  end ++
  match rsize with
  | Some v => [("rsize"%string, ssize_t v)]
  | None => []
  end ++
  match seek with
  | Some v => [("seek"%string, ssize_t v)]
  | None => []
  end.

(** [strcpy(p, name); p += strlen(name) + 1; n = sprintf(p, ...); p += n;
    *p++ = 0]. *)
Definition oack_entry (e : string * Z) : list Z :=
  bytes_of_string (fst e) ++ [0] ++ decimal (snd e) ++ [0].

Definition oack_packet (opts : list (string * Z)) : list Z :=
  [0; OP_OACK] ++ concat (oack_entry <$> opts).

Definition tftp_send_oack (s : Z)
    (blocksize tsize wsize timeoutms rsize seek : option Z) (w : world)
    : Z * world :=
  send s (oack_packet
            (oack_options blocksize tsize wsize timeoutms rsize seek)) w.

(** [v ? &v : NULL]. *)
Definition nonzero_ptr (v : Z) : option Z :=
  if v =? 0 then None else Some v.

(** ** The request handlers *)

Definition O_RDONLY : Z := 0.
Definition O_WRONLY : Z := 1.
Definition O_CREAT : Z := 64.

(** What the calls of one request handler into the system return:
    [qrtr_open] and [connect] from libqrtr and the kernel, [translate_open]
    from translate.c (a descriptor, negative on failure) and the bytes of
    the file behind that descriptor. *)
Record syscalls : Type := Syscalls {
  qrtr_open : Z;
  connect : Z;
  translate_open : list Z → Z → Z;
  file_contents : list Z
}.

(** Modelled from the spec: [list_add] of list.h, which is not among the
    sources; the spec says that the client is inserted into its registry.
    The client is put at the tail. *)
Definition list_add (l : list tftp_client) (c : tftp_client)
    : list tftp_client :=
  l ++ [c].

Definition open_socket (s : Z) (w : world) : world :=
  World (files w) ({[s]} ∪ socks w) (wire w).

Definition open_file (d : Z) (f : ofile) (w : world) : world :=
  World (<[d := f]> (files w)) (socks w) (wire w).

(** The tail of both handlers: the client is filled in and registered, then
    answered with an option acknowledgement or with a first block. *)
Definition register_client (src : sockaddr_qrtr) (s d : Z) (o : options)
    (tsize : Z) (do_oack : bool) (registry : list tftp_client) (w : world)
    : result (list tftp_client * world) :=
  let client :=
    {| sq := src; sock := s; fd := d; block := 0; blksize := o_blksize o;
       rsize := o_rsize o; wsize := o_wsize o; timeoutms := o_timeoutms o;
       seek := o_seek o |} in
  let registry' := list_add registry client in
  if do_oack then
    Ok (registry',
        snd (tftp_send_oack s (Some (o_blksize o))
               (if tsize =? 0 then None else Some (size_t tsize))
               (nonzero_ptr (o_wsize o))
               (Some (o_timeoutms o))
               (nonzero_ptr (o_rsize o))
               (nonzero_ptr (o_seek o)) w))
  else
    '(_, w1) ← tftp_send_data client 1 0 0 w;
    Ok (registry', w1).

(** The file name, the mode and the bytes after the mode. *)
Definition request_strings (buf : list Z)
    : result (list Z * list Z * list Z) :=
  match cstring (drop 2 buf) with
  | Some (filename, p1) =>
      match cstring p1 with
      | Some (mode, p2) => Ok (filename, mode, p2)
      | None => Undefined
      end
  | None => Undefined
  end.

(** [p < buf + len] after the mode, then [parse_options]. *)
Definition request_opts (p : list Z) : result (bool * options) :=
  match p with
  | [] => Ok (false, default_options)
  | _ :: _ => o ← parse_options p default_options; Ok (true, o)
  end.

Definition handle_rrq (sys : syscalls) (buf : list Z) (src : sockaddr_qrtr)
    (readers : list tftp_client) (w : world)
    : result (list tftp_client * world) :=
  '(filename, mode, p) ← request_strings buf;
  if negb (strcasecmp_eq mode "octet") then Ok (readers, w)
  else
    '(do_oack, o) ← request_opts p;
    let s := qrtr_open sys in
    if s <? 0 then Ok (readers, w)
    else
      let w1 := open_socket s w in
      if connect sys <? 0 then Ok (readers, w1)
      else
        let d := translate_open sys filename O_RDONLY in
        if d <? 0 then
          Ok (readers, snd (tftp_send_error s 1 "file not found" w1))
        else
          let w2 := open_file d (OFile true false (file_contents sys) 0) w1 in
          let tsize :=
            if negb (o_tsize o =? -1)
            then Z.of_nat (length (file_contents sys))
            else o_tsize o in
          register_client src s d o tsize do_oack readers w2.

Definition handle_wrq (sys : syscalls) (buf : list Z) (src : sockaddr_qrtr)
    (writers : list tftp_client) (w : world)
    : result (list tftp_client * world) :=
  '(filename, mode, p) ← request_strings buf;
  if negb (strcasecmp_eq mode "octet") then Ok (writers, w)
  else
    '(do_oack, o) ← request_opts p;
    let d := translate_open sys filename (Z.lor O_WRONLY O_CREAT) in
    if d <? 0 then Ok (writers, w)
    else
      let w1 := open_file d (OFile false true (file_contents sys) 0) w in
      let s := qrtr_open sys in
      if s <? 0 then Ok (writers, w1)
      else
        let w2 := open_socket s w1 in
        if connect sys <? 0 then Ok (writers, w2)
        else register_client src s d o (o_tsize o) do_oack writers w2.

(** ** The server *)

Record server : Type := Server {
  readers : list tftp_client;
  writers : list tftp_client;
  os : world
}.

(** The two client loops of one turn of [main]: the writers, then the
    readers. *)
Definition serve_clients (fuel : nat) (rfds : ready) (sv : server)
    : result server :=
  '(ws, w1) ← for_each_client (serve_writer rfds) (writers sv) (os sv);
  '(rs, w2) ← for_each_client (serve_reader fuel rfds) (readers sv) w1;
  Ok (Server rs ws w2).

(** A datagram on the service socket that is no control message:
    the [switch (opcode)] of [main]. *)
Definition serve_request (sys : syscalls) (src : sockaddr_qrtr)
    (data : list Z) (sv : server) : result server :=
  let buf := take 4096 data in
  if (length buf <? 2)%nat then Ok sv
  else
    opcode ← rd16 buf 0;
    if opcode =? OP_RRQ then
      '(rs, w) ← handle_rrq sys buf src (readers sv) (os sv);
      Ok (Server rs (writers sv) w)
    else if opcode =? OP_WRQ then
      '(ws, w) ← handle_wrq sys buf src (writers sv) (os sv);
      Ok (Server (readers sv) ws w)
    else if opcode =? OP_ERROR then
      if (length buf =? 4096)%nat then Undefined else Ok sv
    else Ok sv.

(** * Views of the world *)

(** The datagrams a socket was sent. *)
Definition sent_to (s : Z) (w : world) : list (list Z) :=
  snd <$> filter (λ m, fst m = s) (wire w).

(** What [handle_writer] leaves behind for a block it accepts: the payload
    written, then the acknowledgement sent. *)
Definition written (c : tftp_client) (blk : Z) (payload : list Z) (w : world)
    : world :=
  snd (tftp_send_ack (sock c) blk (snd (write (fd c) payload w))).

(** * A whole read transfer

    The peer of a read transfer, as the protocol has it: it acknowledges
    the last block of each answer it receives, starting with Ack([n]), and
    has nothing to acknowledge when an answer is empty. [rounds] bounds the
    acknowledgements. *)

Definition payload (msg : list Z) : list Z := drop 4 msg.

Definition block_of (msg : list Z) : option Z :=
  match msg with
  | _ :: _ :: hi :: lo :: _ => Some (Z.lor (Z.shiftl hi 8) lo)
  | _ => None
  end.

Definition last_block (msgs : list (Z * list Z)) : option Z :=
  match last msgs with
  | Some m => block_of (snd m)
  | None => None
  end.

Fixpoint read_transfer (rounds fuel : nat) (c : tftp_client) (n : Z)
    (w : world) : result (Z * world) :=
  match rounds with
  | O => OutOfFuel
  | S rounds' =>
      '(ret, w1) ← handle_reader fuel c (Recv (sq c) (ack_packet n)) w;
      if ret <=? 0 then Ok (ret, w1)
      else
        match last_block (drop (length (wire w)) (wire w1)) with
        | Some b => read_transfer rounds' fuel c b w1
        | None => Ok (ret, w1)
        end
  end.

(** The world after more datagrams went out. *)
Definition pushes (w : world) (msgs : list (Z * list Z)) : world :=
  World (files w) (socks w) (wire w ++ msgs).

(** The Data packet of the block with index [k] (block number [k + 1]) of a
    transfer bounded by [rsize]: [rsize mod blksize] bytes when the block
    reaches past [rsize] and that remainder is not 0, [blksize] bytes
    otherwise, as far as the file goes. *)
Definition block_len (c : tftp_client) (k : Z) : Z :=
  if ((k + 1) * blksize c >? rsize c) && negb (rsize c mod blksize c =? 0)
  then rsize c mod blksize c
  else blksize c.

Definition data_block (c : tftp_client) (data : list Z) (k : Z) : list Z :=
  data_header (k + 1) ++
  take (Z.to_nat (block_len c k))
       (drop (Z.to_nat (seek c + k * blksize c)) data).

Definition data_blocks (c : tftp_client) (data : list Z) (k n : Z)
    : list (Z * list Z) :=
  (λ j, (sock c, data_block c data j)) <$> seqZ k n.

(** The file [data] is open for reading on the client's descriptor and
    the client's socket is open. *)
Definition serving (c : tftp_client) (data : list Z) (w : world) : Prop :=
  (∃ f, files w !! fd c = Some f ∧ of_readable f = true ∧ of_data f = data)
  ∧ sock c ∈ socks w.

(** * Options requested and options acknowledged *)

(** The option variables after the body of [parse_options] ran on each
    name and value in turn. *)
Definition apply_options (pairs : list (list Z * list Z)) (o : options)
    : options :=
  foldl (λ o kv, set_option o kv.1 kv.2) o pairs.

(** The options of the acknowledgement that [register_client] sends for
    the option variables [o] and the [tsize] of the handler. *)
Definition echoed (o : options) (tsize : Z) : list (string * Z) :=
  oack_options (Some (o_blksize o))
    (if tsize =? 0 then None else Some (size_t tsize))
    (nonzero_ptr (o_wsize o)) (Some (o_timeoutms o))
    (nonzero_ptr (o_rsize o)) (nonzero_ptr (o_seek o)).




(** The bytes of a request after the mode, as a peer writes them: each
    name and each value followed by a NUL. *)
Definition encode_options (pairs : list (list Z * list Z)) : list Z :=
  concat ((λ kv, kv.1 ++ [0] ++ kv.2 ++ [0]) <$> pairs).

(** A string that can stand in a request: no byte of it is NUL. *)
Definition c_string (s : list Z) : Prop := Forall (λ b, b ≠ 0) s.

(** The messages of one window, from the block with index [k] on: at most
    [m] datagrams to the socket of the client, the [i]-th with the header
    of a Data packet of block [k + 1 + i], which is the bytes 0 3 and the
    two bytes of the number, and at most [blksize] bytes after it. *)
Definition window_of (c : tftp_client) (k : Z) (m : nat)
    (msgs : list (Z * list Z)) : Prop :=
  (length msgs ≤ m)%nat ∧
  ∀ i msg, msgs !! i = Some msg →
    msg.1 = sock c ∧
    take 4 msg.2 = [0; 3; ((k + 1 + Z.of_nat i) / 256) mod 256;
                    (k + 1 + Z.of_nat i) mod 256] ∧
    Z.of_nat (length msg.2) ≤ 4 + blksize c.

(** * Descriptors and their owners *)

(** [w'] has the same descriptors open as [w]. *)
Definition same_open (w w' : world) : Prop :=
  socks w' = socks w ∧
  ∀ d, is_Some (files w' !! d) ↔ is_Some (files w !! d).

(** The descriptors the clients of a registry hold. *)
Definition descriptors (cs : list tftp_client) : list Z :=
  cs ≫= λ c, [sock c; fd c].

(** No descriptor is held twice, and every client has its socket and its
    file open. *)
Definition owns (cs : list tftp_client) (w : world) : Prop :=
  NoDup (descriptors cs) ∧
  ∀ c, c ∈ cs → sock c ∈ socks w ∧ is_Some (files w !! fd c).

(** [d] is open in no table of [w]. *)
Definition closed (d : Z) (w : world) : Prop :=
  (d ∉ socks w) ∧ files w !! d = None.


(** A loop body that leaves its client in the registry, or closes it and
    takes it out; it opens nothing and closes nothing else. *)
Definition reaping
    (body : tftp_client → world → result (option tftp_client * world))
    : Prop :=
  ∀ c w kept w',
    body c w = Ok (kept, w') →
    ∃ w1, same_open w w1 ∧
          ((kept = Some c ∧ w' = w1) ∨
           (kept = None ∧ w' = client_close_and_free c w1)).

(** * The service socket of [main]

    [QRTR_PORT_CTRL], the kinds of control packet and [qrtr_decode] belong
    to libqrtr and the kernel: the port is the parameter [ctrl] below, and
    what [qrtr_decode] makes of a control packet is given with the
    datagram. *)

Inductive qrtr_type : Type :=
| QRTR_TYPE_BYE
| QRTR_TYPE_DEL_CLIENT
| QRTR_TYPE_OTHER.

(** The value of [qrtr_decode] when negative, the type of the packet
    otherwise. *)
Inductive decoded : Type :=
| DecodeFailed (ret : Z)
| Decoded (type : qrtr_type).

(** What a turn of the loop of [main] ends in: the server of the next turn,
    or the value [main] returns. *)
Inductive turn : Type :=
| Continue (sv : server)
| Return (ret : Z).

(** [if (cond) client_close_and_free(client)] as the body of a loop over a
    registry. *)
Definition reap_if (cond : tftp_client → bool) (c : tftp_client) (w : world)
    : result (option tftp_client * world) :=
  Ok (if cond c then (None, client_close_and_free c w) else (Some c, w)).

(** The [switch (pkt.type)] of [main]; both loops go over the writers. The
    [memcmp] of the two addresses compares node and port, the family being
    that of the sockets in both. *)
Definition serve_control (dec : decoded) (src : sockaddr_qrtr) (sv : server)
    : result turn :=
  match dec with
  | DecodeFailed ret => Ok (Return ret)
  | Decoded QRTR_TYPE_BYE =>
      '(ws, w) ← for_each_client
                   (reap_if (λ c, sq_node (sq c) =? sq_node src))
                   (writers sv) (os sv);
      Ok (Continue (Server (readers sv) ws w))
  | Decoded QRTR_TYPE_DEL_CLIENT =>
      '(ws, w) ← for_each_client (reap_if (λ c, same_peer (sq c) src))
                   (writers sv) (os sv);
      Ok (Continue (Server (readers sv) ws w))
  | Decoded QRTR_TYPE_OTHER => Ok (Continue sv)
  end.

(** [if (FD_ISSET(fd, &rfds))]: the datagram on the service socket. *)
Definition serve_service (ctrl : Z) (sys : syscalls) (dec : decoded)
    (d : datagram) (sv : server) : result turn :=
  match d with
  | RecvErr errno => Ok (Return (- errno))
  | Recv src data =>
      if sq_port src =? ctrl then serve_control dec src sv
      else sv' ← serve_request sys src data sv; Ok (Continue sv')
  end.




(** No client is registered under the control port. *)
Definition no_control_client (ctrl : Z) (cs : list tftp_client) : Prop :=
  ∀ c, c ∈ cs → sq_port (sq c) ≠ ctrl.

(** A run that answers with [msgs] and the value [a], here and in every
    world with the same open files and sockets: what it does depends on
    nothing else. *)
Definition answers {A} (run : world → result (A * world)) (w : world)
    (a : A) (msgs : list (Z * list Z)) : Prop :=
  run w = Ok (a, pushes w msgs) ∧
  ∀ w2, files w2 = files w → socks w2 = socks w →
        run w2 = Ok (a, pushes w2 msgs).

(** * The handlers, whatever the sign of [char]

    The buffers of [handle_reader] and [handle_writer] are arrays of plain
    [char], and the two bytes of an opcode or of a block number are put
    together as [buf[i] << 8 | buf[i + 1]] after the promotion of each to
    [int]. Where [char] is signed, as on x86, a byte of 0x80 or more is a
    negative number there. The definitions of this module are the handlers
    and the loops around them with the sign of [char] as an argument:
    [signed] is [true] where [char] is signed. *)
Module PlainChar.

(** A byte of the buffer as the [int] it is promoted to. *)
Definition promote (signed : bool) (b : Z) : Z :=
  if signed && (128 <=? b) then b - 256 else b.

(** [buf[i] << 8 | buf[i + 1]], an [int]; the shift of a negative number
    is the multiplication that GCC makes of it. *)
Definition rd16 (signed : bool) (buf : list Z) (i : nat) : result Z :=
  match buf !! i, buf !! S i with
  | Some hi, Some lo =>
      Ok (Z.lor (Z.shiftl (promote signed hi) 8) (promote signed lo))
  | _, _ => Undefined
  end.

Definition handle_reader (signed : bool) (fuel : nat) (c : tftp_client)
    (d : datagram) (w : world) : result (Z * world) :=
  match d with
  | RecvErr _ => Ok (-1, w)
  | Recv src data =>
      let buf := take 128 data in
      if negb (same_peer src (sq c)) then Ok (-1, w)
      else
        opcode ← rd16 signed buf 0;
        if opcode =? OP_ERROR then
          if (length buf =? 128)%nat then Undefined else Ok (-1, w)
        else if negb (opcode =? OP_ACK) then Ok (-1, w)
        else
          v ← rd16 signed buf 2;
          let last := uint16_t v in
          if size_t (last * blksize c) >? rsize c then Ok (0, w)
          else
            w1 ← reader_window fuel c last last w;
            Ok (1, w1)
  end.

Definition handle_writer (signed : bool) (c : tftp_client) (d : datagram)
    (w : world) : result (Z * world) :=
  match d with
  | RecvErr _ => Ok (-1, w)
  | Recv src data =>
      let buf := take 516 data in
      if negb (same_peer src (sq c)) then Ok (-1, w)
      else
        opcode ← rd16 signed buf 0;
        if negb (opcode =? OP_DATA) then
          Ok (-1, snd (tftp_send_error (sock c) 4 "Expected DATA opcode" w))
        else
          v ← rd16 signed buf 2;
          let blk := uint16_t v in
          let payload := drop 4 buf in
          let '(ret, w1) := write (fd c) payload w in
          if ret <? 0 then Ok (-1, w1)
          else
            let w2 := snd (tftp_send_ack (sock c) blk w1) in
            Ok (if (length payload =? 512)%nat then 1 else 0, w2)
  end.

Definition serve_writer (signed : bool) (rfds : ready) (c : tftp_client)
    (w : world) : result (option tftp_client * world) :=
  match rfds (sock c) with
  | None => Ok (Some c, w)
  | Some d =>
      '(ret, w1) ← handle_writer signed c d w;
      if ret <=? 0 then Ok (None, client_close_and_free c w1)
      else Ok (Some c, w1)
  end.

Definition serve_reader (signed : bool) (fuel : nat) (rfds : ready)
    (c : tftp_client) (w : world) : result (option tftp_client * world) :=
  match rfds (sock c) with
  | None => Ok (Some c, w)
  | Some d =>
      '(ret, w1) ← handle_reader signed fuel c d w;
      if ret <=? 0 then Ok (None, client_close_and_free c w1)
      else Ok (Some c, w1)
  end.

(** A read transfer with the peer of [read_transfer]. *)
Fixpoint read_transfer (signed : bool) (rounds fuel : nat) (c : tftp_client)
    (n : Z) (w : world) : result (Z * world) :=
  match rounds with
  | O => OutOfFuel
  | S rounds' =>
      '(ret, w1) ← handle_reader signed fuel c (Recv (sq c) (ack_packet n)) w;
      if ret <=? 0 then Ok (ret, w1)
      else
        match last_block (drop (length (wire w)) (wire w1)) with
        | Some b => read_transfer signed rounds' fuel c b w1
        | None => Ok (ret, w1)
        end
  end.

(** A write transfer as the peer drives it: its datagrams in turn, as long
    as [handle_writer] asks for more. *)
Fixpoint write_transfer (signed : bool) (c : tftp_client)
    (packets : list (list Z)) (w : world) : result (Z * world) :=
  match packets with
  | [] => Ok (1, w)
  | p :: rest =>
      '(ret, w1) ← handle_writer signed c (Recv (sq c) p) w;
      if ret <=? 0 then Ok (ret, w1) else write_transfer signed c rest w1
  end.

End PlainChar.

(** * Scenarios

    Concrete clients, files and datagrams on which the statements below
    are run. *)

Definition peer : sockaddr_qrtr := SockAddr 1 100.
Definition stranger : sockaddr_qrtr := SockAddr 2 100.

(** A request: the opcode, then NUL-terminated strings. *)
Definition request (opcode : Z) (strings : list string) : list Z :=
  [0; opcode] ++ concat ((λ s, bytes_of_string s ++ [0]) <$> strings).

(** A file of [n] bytes 'A'. *)
Definition file_A (n : nat) : list Z := replicate n 65.

(** Socket 5 connected to [peer], descriptor 7 open on a file. *)
Definition reading (data : list Z) : world :=
  World {[ 7 := OFile true false data 0 ]} {[ 5 ]} [].

Definition writing : world :=
  World {[ 7 := OFile false true [] 0 ]} {[ 5 ]} [].

Definition client_of (bsize rs ws sk : Z) : tftp_client :=
  {| sq := peer; sock := 5; fd := 7; block := 0; blksize := bsize;
     rsize := rs; wsize := ws; timeoutms := 1000; seek := sk |}.

(** [select] reports socket 5 only. *)
Definition only_5 (d : datagram) : ready :=
  λ s, if decide (s = 5) then Some d else None.

(** The server before any request, and the calls of a request that
    succeed: socket 5, descriptor 7. *)
Definition idle : server := Server [] [] (World ∅ ∅ []).

Definition calls_ok (data : list Z) : syscalls :=
  {| qrtr_open := 5; connect := 0; translate_open := λ _ _, 7;
     file_contents := data |}.

Definition calls_no_file : syscalls :=
  {| qrtr_open := 5; connect := 0; translate_open := λ _ _, -1;
     file_contents := [] |}.


(** * Properties *)

(** ** First checks *)

Example atoi_permissive : atoi (bytes_of_string "  -42x") = -42.
Proof. reflexivity. Qed.

Example atoi_no_digits : atoi (bytes_of_string "abc") = 0.
Proof. reflexivity. Qed.

Example cstring_first :
  cstring (bytes_of_string "ab" ++ [0] ++ bytes_of_string "c" ++ [0]) =
    Some (bytes_of_string "ab", bytes_of_string "c" ++ [0]).
Proof. reflexivity. Qed.

Example cstring_unterminated : cstring (bytes_of_string "ab") = None.
Proof. reflexivity. Qed.

Example mode_any_case : strcasecmp_eq (bytes_of_string "OcTeT") "octet" = true.
Proof. reflexivity. Qed.

Example decimal_signed : decimal (ssize_t (size_t (-4))) = bytes_of_string "-4".
Proof. reflexivity. Qed.

Example parse_two_options :
  parse_options
    (drop 10 (request OP_RRQ ["f"; "octet"; "blksize"; "8"; "bogus"; "1"]%string))
    default_options =
  Ok (Options 8 (-1) 0 1000 0 0).
Proof. reflexivity. Qed.

Example parse_value_missing :
  parse_options (bytes_of_string "blksize" ++ [0]) default_options = Undefined.
Proof. reflexivity. Qed.

(** ** Bytes and words *)

Lemma be16_hi_lo n : 0 ≤ n < 65536 → Z.lor (Z.shiftl (hi8 n) 8) (lo8 n) = n.
Proof.
  intros Hn. unfold hi8, lo8. change 255 with (Z.ones 8).
  rewrite !Z.land_ones, Z.shiftr_div_pow2, Z.shiftl_mul_pow2 by lia.
  rewrite (Z.mod_small (n / 2 ^ 8))
    by (split; [apply Z.div_pos; lia | apply Z.div_lt_upper_bound; lia]).
  assert (Hdisj : Z.land (n / 2 ^ 8 * 2 ^ 8) (n mod 2 ^ 8) = 0).
  { apply Z.bits_inj'. intros i Hi. rewrite Z.land_spec, Z.bits_0.
    destruct (decide (i < 8)).
    - rewrite Z.mul_pow2_bits_low by lia. done.
    - rewrite Z.mod_pow2_bits_high by lia. apply andb_false_r. }
  rewrite <- Z.lxor_lor, <- Z.add_nocarry_lxor by exact Hdisj.
  pose proof (Z.div_mod n (2 ^ 8)). lia.
Qed.

Lemma uint16_t_small n : 0 ≤ n < 65536 → uint16_t n = n.
Proof. intros. unfold uint16_t. apply Z.mod_small. lia. Qed.

Lemma size_t_small n : 0 ≤ n < 2 ^ 64 → size_t n = n.
Proof. intros. unfold size_t. apply Z.mod_small. lia. Qed.

Lemma same_peer_refl a : same_peer a a = true.
Proof. unfold same_peer. by rewrite !Z.eqb_refl. Qed.

Lemma rd16_opcode b0 b1 rest : rd16 (b0 :: b1 :: rest) 0 = Ok (Z.lor (Z.shiftl b0 8) b1).
Proof. reflexivity. Qed.

Lemma rd16_block b0 b1 b2 b3 rest :
  rd16 (b0 :: b1 :: b2 :: b3 :: rest) 2 = Ok (Z.lor (Z.shiftl b2 8) b3).
Proof. reflexivity. Qed.

Lemma take_516_header (b0 b1 b2 b3 : Z) p :
  take 516 (b0 :: b1 :: b2 :: b3 :: p) = b0 :: b1 :: b2 :: b3 :: take 512 p.
Proof. reflexivity. Qed.

Lemma hi8_byte z : hi8 z = (z / 256) mod 256.
Proof.
  unfold hi8. change 255 with (Z.ones 8).
  by rewrite Z.land_ones, Z.shiftr_div_pow2 by lia.
Qed.

Lemma lo8_byte z : lo8 z = z mod 256.
Proof. unfold lo8. change 255 with (Z.ones 8). by rewrite Z.land_ones by lia. Qed.

Lemma hi8_small n : 0 ≤ n < 65536 → hi8 n = n / 256.
Proof.
  intros Hn. rewrite hi8_byte. apply Z.mod_small.
  split; [apply Z.div_pos; lia | apply Z.div_lt_upper_bound; lia].
Qed.

Lemma ack_packet_bytes n :
  0 ≤ n < 65536 → ack_packet n = [0; 4; n / 256; n mod 256].
Proof. intros Hn. unfold ack_packet. by rewrite hi8_small, lo8_byte. Qed.

Lemma data_header_bytes n :
  0 ≤ n < 65536 → data_header n = [0; 3; n / 256; n mod 256].
Proof. intros Hn. unfold data_header. by rewrite hi8_small, lo8_byte. Qed.

Lemma lor_shift_byte a b : 0 ≤ b < 256 → Z.lor (Z.shiftl a 8) b = a * 256 + b.
Proof.
  intros Hb. rewrite Z.shiftl_mul_pow2 by lia.
  assert (Hdisj : Z.land (a * 2 ^ 8) b = 0).
  { apply Z.bits_inj'. intros i Hi. rewrite Z.land_spec, Z.bits_0.
    destruct (decide (i < 8)).
    - rewrite Z.mul_pow2_bits_low by lia. done.
    - rewrite <- (Z.mod_small b (2 ^ 8)) by lia.
      rewrite Z.mod_pow2_bits_high by lia. apply andb_false_r. }
  rewrite <- Z.lxor_lor, <- Z.add_nocarry_lxor by exact Hdisj. lia.
Qed.

(** ** The sign of [char]

    Where [char] is unsigned, and for bytes below 0x80 where it is signed,
    the handlers of [PlainChar] are [handle_reader] and [handle_writer]. *)

Lemma promote_low sc b : sc = false ∨ b < 128 → PlainChar.promote sc b = b.
Proof.
  unfold PlainChar.promote. intros [-> | Hb]; [done|].
  rewrite (proj2 (Z.leb_gt _ _)) by lia. by rewrite andb_false_r.
Qed.

Lemma rd16_any_char sc buf i :
  sc = false ∨ Forall (λ b, b < 128) (take (S (S i)) buf) →
  PlainChar.rd16 sc buf i = rd16 buf i.
Proof.
  intros H. unfold PlainChar.rd16, rd16.
  destruct (buf !! i) as [hi|] eqn:Hhi; [|done].
  destruct (buf !! S i) as [lo|] eqn:Hlo; [|done].
  rewrite !promote_low; [done|..];
    (destruct H as [-> | H]; [by left | right]).
  - apply (Forall_lookup_1 _ _ (S i) lo H). by rewrite lookup_take_lt by lia.
  - apply (Forall_lookup_1 _ _ i hi H). by rewrite lookup_take_lt by lia.
Qed.

Lemma low_bytes_of_buffer sc data (k n : nat) :
  (k ≤ 4)%nat → (4 ≤ n)%nat →
  sc = false ∨ Forall (λ b, b < 128) (take 4 data) →
  sc = false ∨ Forall (λ b, b < 128) (take k (take n data)).
Proof.
  intros Hk Hn [-> | H]; [by left | right].
  rewrite take_take, Nat.min_l by lia.
  replace k with (k `min` 4)%nat by lia. rewrite <- take_take.
  by apply Forall_take.
Qed.

Lemma handle_reader_any_char sc fuel c src data w :
  sc = false ∨ Forall (λ b, b < 128) (take 4 data) →
  PlainChar.handle_reader sc fuel c (Recv src data) w
    = handle_reader fuel c (Recv src data) w.
Proof.
  intros H. unfold PlainChar.handle_reader, handle_reader.
  by rewrite !rd16_any_char by (apply low_bytes_of_buffer; (lia || done)).
Qed.

Lemma handle_writer_any_char sc c src data w :
  sc = false ∨ Forall (λ b, b < 128) (take 4 data) →
  PlainChar.handle_writer sc c (Recv src data) w
    = handle_writer c (Recv src data) w.
Proof.
  intros H. unfold PlainChar.handle_writer, handle_writer.
  by rewrite !rd16_any_char by (apply low_bytes_of_buffer; (lia || done)).
Qed.

Lemma low_block_number sc (op n : Z) rest :
  0 ≤ op < 128 →
  sc = false ∨ (n / 256 < 128 ∧ n mod 256 < 128) →
  sc = false ∨
  Forall (λ b, b < 128) (take 4 ([0; op; n / 256; n mod 256] ++ rest)).
Proof.
  intros Hop [-> | [Hhi Hlo]]; [by left | right].
  simpl. repeat (apply Forall_cons; split; [lia|]). apply Forall_nil_2.
Qed.

(** ** A datagram from another address *)

(** Both handlers answer -1 to a datagram whose source is not the peer and
    send nothing. *)
Lemma handle_reader_spoofed fuel c src data w :
  same_peer src (sq c) = false →
  handle_reader fuel c (Recv src data) w = Ok (-1, w).
Proof. intros H. unfold handle_reader. by rewrite H. Qed.

Lemma handle_writer_spoofed c src data w :
  same_peer src (sq c) = false →
  handle_writer c (Recv src data) w = Ok (-1, w).
Proof. intros H. unfold handle_writer. by rewrite H. Qed.

Lemma closed_client_gone c w :
  (sock c ∉ socks (client_close_and_free c w)) ∧
  files (client_close_and_free c w) !! fd c = None ∧
  wire (client_close_and_free c w) = wire w.
Proof.
  unfold client_close_and_free, close; simpl. split_and!.
  - intros [[_ H]%elem_of_difference _]%elem_of_difference.
    apply H. by apply elem_of_singleton.
  - apply lookup_delete_eq.
  - done.
Qed.

(** C2, as the code has it: a datagram on a transfer socket whose source
    differs from the client's peer address makes the handler return -1, on
    which the loop of [main] unlinks the client and closes its socket and
    its file. Nothing is sent. The specification, and the comment "Drop
    unsolicited messages" of the code, want the client left alone. *)
Theorem spoofed_datagram_reaps_client fuel rfds c src data w :
  rfds (sock c) = Some (Recv src data) →
  same_peer src (sq c) = false →
  serve_reader fuel rfds c w = Ok (None, client_close_and_free c w) ∧
  serve_writer rfds c w = Ok (None, client_close_and_free c w) ∧
  (sock c ∉ socks (client_close_and_free c w)) ∧
  files (client_close_and_free c w) !! fd c = None ∧
  wire (client_close_and_free c w) = wire w.
Proof.
  intros Hready Hsrc. unfold serve_reader, serve_writer. rewrite Hready.
  rewrite handle_reader_spoofed, handle_writer_spoofed by done. simpl.
  split_and!; try done; apply closed_client_gone.
Qed.

Lemma spoofed_datagram_reaps_client_witness :
  let c := client_of 512 0 1 0 in
  let w := reading (file_A 1024) in
  let d := Recv stranger (ack_packet 1) in
  serve_reader 1 (only_5 d) c w = Ok (None, client_close_and_free c w) ∧
  serve_writer (only_5 d) c w = Ok (None, client_close_and_free c w) ∧
  (sock c ∉ socks (client_close_and_free c w)) ∧
  files (client_close_and_free c w) !! fd c = None ∧
  wire (client_close_and_free c w) = wire w.
Proof.
  apply (spoofed_datagram_reaps_client 1
           (only_5 (Recv stranger (ack_packet 1)))
           (client_of 512 0 1 0) stranger (ack_packet 1)
           (reading (file_A 1024))); reflexivity.
Defined.

(** ** The writer *)

Lemma handle_writer_data c b0 b1 b2 b3 payload w f :
  Z.lor (Z.shiftl b0 8) b1 = OP_DATA →
  files w !! fd c = Some f → of_writable f = true →
  handle_writer c (Recv (sq c) (b0 :: b1 :: b2 :: b3 :: payload)) w =
    Ok (if (length (take 512 payload) =? 512)%nat then 1 else 0,
        written c (uint16_t (Z.lor (Z.shiftl b2 8) b3)) (take 512 payload) w).
Proof.
  intros Hop Hf Hw. unfold handle_writer, written.
  rewrite same_peer_refl, take_516_header, rd16_opcode. simpl negb.
  cbv iota. unfold mbind at 1, result_bind at 1. rewrite Hop. simpl negb.
  cbv iota. rewrite rd16_block. unfold mbind, result_bind.
  change (drop 4 (b0 :: b1 :: b2 :: b3 :: take 512 payload))
    with (take 512 payload).
  unfold write at 1. rewrite Hf, Hw.
  assert ((Z.of_nat (length (take 512 payload)) <? 0) = false) as ->
    by (apply Z.ltb_ge; lia).
  unfold write. rewrite Hf, Hw. reflexivity.
Qed.

Lemma send_files s msg w : files (snd (send s msg w)) = files w.
Proof. unfold send. by destruct (decide _). Qed.

Lemma send_socks s msg w : socks (snd (send s msg w)) = socks w.
Proof. unfold send. by destruct (decide _). Qed.

Lemma send_open s msg w :
  s ∈ socks w →
  send s msg w =
    (Z.of_nat (length msg), World (files w) (socks w) (wire w ++ [(s, msg)])).
Proof. intros H. unfold send. by rewrite decide_True. Qed.

Lemma write_socks d data w : socks (snd (write d data w)) = socks w.
Proof. unfold write. destruct (files w !! d) as [f|]; [destruct (of_writable f)|]; done. Qed.

Lemma write_wire d data w : wire (snd (write d data w)) = wire w.
Proof. unfold write. destruct (files w !! d) as [f|]; [destruct (of_writable f)|]; done. Qed.

Lemma written_wire c blk payload w :
  sock c ∈ socks w →
  wire (written c blk payload w) = wire w ++ [(sock c, ack_packet blk)].
Proof.
  intros Hs. unfold written, tftp_send_ack.
  rewrite send_open by (by rewrite write_socks). simpl. by rewrite write_wire.
Qed.

Lemma written_file c blk payload w f :
  files w !! fd c = Some f → of_writable f = true →
  files (written c blk payload w) !! fd c =
    Some (OFile (of_readable f) (of_writable f)
            (take (of_pos f) (of_data f) ++ payload
               ++ drop (of_pos f + length payload)%nat (of_data f))
            (of_pos f + length payload)%nat).
Proof.
  intros Hf Hw. unfold written, tftp_send_ack. rewrite send_files.
  unfold write. rewrite Hf, Hw. simpl. apply lookup_insert_eq.
Qed.

Lemma written_world c blk payload w f :
  files w !! fd c = Some f → of_writable f = true → sock c ∈ socks w →
  0 ≤ blk < 65536 →
  wire (written c blk payload w)
    = wire w ++ [(sock c, [0; 4; blk / 256; blk mod 256])] ∧
  socks (written c blk payload w) = socks w ∧
  files (written c blk payload w) =
    <[fd c := OFile (of_readable f) true
                (take (of_pos f) (of_data f) ++ payload
                   ++ drop (of_pos f + length payload)%nat (of_data f))
                (of_pos f + length payload)%nat]> (files w).
Proof.
  intros Hf Hw Hs Hblk. split_and!.
  - rewrite written_wire by done. by rewrite ack_packet_bytes.
  - unfold written, tftp_send_ack. by rewrite send_socks, write_socks.
  - unfold written, tftp_send_ack. rewrite send_files.
    unfold write. by rewrite Hf, Hw.
Qed.



(** C10: whatever the block size of the client, a Data datagram adds at
    most 512 bytes to the file: the handler receives into 516 bytes, so
    the bytes written are the first 512 of the payload at most; a datagram
    longer than 516 bytes is cut to a payload of 512 and answered like a
    block that is not the last. *)
Theorem writer_appends_at_most_512 c b0 b1 b2 b3 payload w f :
  Z.lor (Z.shiftl b0 8) b1 = OP_DATA →
  files w !! fd c = Some f → of_writable f = true →
  ∃ ret w' f',
    handle_writer c (Recv (sq c) (b0 :: b1 :: b2 :: b3 :: payload)) w
      = Ok (ret, w') ∧
    files w' !! fd c = Some f' ∧
    of_data f' = take (of_pos f) (of_data f) ++ take 512 payload
                   ++ drop (of_pos f + length payload `min` 512) (of_data f) ∧
    of_pos f' = (of_pos f + length payload `min` 512)%nat ∧
    (of_pos f' - of_pos f ≤ 512)%nat ∧
    ((512 < length payload)%nat → ret = 1 ∧ of_pos f' = (of_pos f + 512)%nat).
Proof.
  intros Hop Hf Hw.
  eexists _, _, _. split; [by apply (handle_writer_data c _ _ _ _ _ w f)|].
  rewrite (written_file c _ _ w f) by done.
  rewrite length_take, (Nat.min_comm 512).
  split; [reflexivity|]. simpl. split_and!; try done; try lia.
  intros Hlong. rewrite Nat.min_r by lia. rewrite Nat.eqb_refl.
  split; [done | lia].
Qed.

Lemma writer_appends_at_most_512_witness :
  ∃ ret w' f',
    handle_writer (client_of 8192 0 1 0)
      (Recv peer (0 :: 3 :: 0 :: 1 :: file_A 600)) writing = Ok (ret, w') ∧
    files w' !! 7 = Some f' ∧
    of_data f' = take 0 [] ++ take 512 (file_A 600)
                   ++ drop (0 + length (file_A 600) `min` 512) [] ∧
    of_pos f' = (0 + length (file_A 600) `min` 512)%nat ∧
    (of_pos f' - 0 ≤ 512)%nat ∧
    ((512 < length (file_A 600))%nat → ret = 1 ∧ of_pos f' = (0 + 512)%nat).
Proof.
  apply (writer_appends_at_most_512 (client_of 8192 0 1 0) 0 3 0 1
           (file_A 600) writing (OFile false true [] 0)); reflexivity.
Defined.

(** ** The reader: one acknowledgement *)

Lemma handle_reader_ack fuel c n w :
  0 ≤ n < 65536 →
  handle_reader fuel c (Recv (sq c) (ack_packet n)) w =
    if size_t (n * blksize c) >? rsize c then Ok (0, w)
    else w1 ← reader_window fuel c n n w; Ok (1, w1).
Proof.
  intros Hn. unfold handle_reader. rewrite same_peer_refl.
  change (take 128 (ack_packet n)) with [0; OP_ACK; hi8 n; lo8 n].
  rewrite rd16_opcode, rd16_block. simpl.
  by rewrite be16_hi_lo, uint16_t_small.
Qed.

(** With [rsize] 0, the first acknowledgement of a block that is not block
    0 ends the transfer. *)
Lemma unset_rsize_ends_on_ack fuel c n w :
  rsize c = 0 → 0 ≤ n < 65536 → 0 < size_t (n * blksize c) →
  handle_reader fuel c (Recv (sq c) (ack_packet n)) w = Ok (0, w).
Proof.
  intros Hr Hn Hpos. rewrite handle_reader_ack by done. rewrite Hr.
  by rewrite (proj2 (Z.gtb_gt _ _)) by lia.
Qed.

(** With [wsize] 0, an acknowledgement that does not end the transfer is
    answered with nothing. *)
Lemma zero_window_sends_nothing fuel c n w :
  wsize c = 0 → 0 ≤ n < 65536 → size_t (n * blksize c) ≤ rsize c →
  handle_reader fuel c (Recv (sq c) (ack_packet n)) w = Ok (1, w).
Proof.
  intros Hw Hn Hle. rewrite handle_reader_ack by done.
  assert ((size_t (n * blksize c) >? rsize c) = false) as ->.
  { rewrite Z.gtb_ltb. apply Z.ltb_ge. lia. }
  assert (Hwin : reader_window fuel c n n w = Ok w).
  { destruct fuel; simpl; rewrite Hw, Z.add_0_r, size_t_small by lia;
      by rewrite Z.ltb_irrefl. }
  by rewrite Hwin.
Qed.


(** ** Requests without [rsize] or without [wsize] *)

(** C1, as the code has it: a read request without options for a file of
    1024 bytes is answered with block 1 (512 bytes); the client is
    registered with [rsize] 0. On Ack(1) the handler returns 0, the loop of
    [main] closes the client and the second half of the file is never
    sent. *)
Theorem unset_rsize_transfer_stops_after_first_block :
  ∃ sv1 sv2,
    serve_request (calls_ok (file_A 1024)) peer
      (request OP_RRQ ["f"; "octet"]%string) idle = Ok sv1 ∧
    readers sv1 = [client_of 512 0 0 0] ∧
    sent_to 5 (os sv1) = [data_header 1 ++ file_A 512] ∧
    serve_clients 1 (only_5 (Recv peer (ack_packet 1))) sv1 = Ok sv2 ∧
    readers sv2 = [] ∧
    sent_to 5 (os sv2) = [data_header 1 ++ file_A 512].
Proof.
  eexists _, _. split; [vm_compute; reflexivity|].
  split; [reflexivity|]. split; [by vm_compute|].
  split; [vm_compute; reflexivity|]. split; [reflexivity | by vm_compute].
Qed.

(** C5, as the code has it: a read request with options but without
    [wsize] registers a client whose window is 0, the initial value of
    [wsize] in [handle_rrq]; the Ack(0) that answers the option
    acknowledgement is answered with no Data block. *)
Theorem default_window_is_zero_blocks :
  ∃ sv1 sv2,
    serve_request (calls_ok (file_A 1024)) peer
      (request OP_RRQ ["f"; "octet"; "blksize"; "512"]%string) idle
      = Ok sv1 ∧
    readers sv1 = [client_of 512 0 0 0] ∧
    serve_clients 1 (only_5 (Recv peer (ack_packet 0))) sv1 = Ok sv2 ∧
    readers sv2 = [client_of 512 0 0 0] ∧
    wire (os sv2) = wire (os sv1).
Proof.
  eexists _, _. split; [vm_compute; reflexivity|].
  split; [reflexivity|]. split; [vm_compute; reflexivity|].
  split; reflexivity.
Qed.

(** C6, as the code has it: with a window of 2 and [rsize] unset, Ack(0)
    on a file of 100 bytes is answered with block 1 alone: after a block
    of full size, read without error, the loop is left because
    [(block + 1) * blksize > rsize] holds with [rsize] 0. *)
Theorem unset_rsize_cuts_window :
  ∃ sv1 sv2,
    serve_request (calls_ok (file_A 100)) peer
      (request OP_RRQ ["f"; "octet"; "blksize"; "8"; "wsize"; "2"]%string)
      idle = Ok sv1 ∧
    readers sv1 = [client_of 8 0 2 0] ∧
    serve_clients 2 (only_5 (Recv peer (ack_packet 0))) sv1 = Ok sv2 ∧
    readers sv2 = [client_of 8 0 2 0] ∧
    wire (os sv2) = wire (os sv1) ++ [(5, data_header 1 ++ file_A 8)].
Proof.
  eexists _, _. split; [vm_compute; reflexivity|].
  split; [reflexivity|]. split; [vm_compute; reflexivity|].
  split; reflexivity.
Qed.

(** ** Two scenarios of the specification *)

(** A read of 20 bytes from offset 4 in blocks of 8 with a window of 2:
    the option acknowledgement, blocks 1 and 2 on Ack(0), block 3 with 4
    bytes on Ack(2), the client closed on Ack(3). *)
Example windowed_partial_read :
  let oack := oack_packet [("blksize", 8); ("timeoutms", 1000); ("wsize", 2);
                           ("rsize", 20); ("seek", 4)]%string in
  ∃ sv1 sv2 sv3 sv4,
    serve_request (calls_ok (file_A 100)) peer
      (request OP_RRQ ["f"; "octet"; "blksize"; "8"; "wsize"; "2";
                       "rsize"; "20"; "seek"; "4"]%string) idle = Ok sv1 ∧
    readers sv1 = [client_of 8 20 2 4] ∧
    sent_to 5 (os sv1) = [oack] ∧
    serve_clients 2 (only_5 (Recv peer (ack_packet 0))) sv1 = Ok sv2 ∧
    sent_to 5 (os sv2) =
      [oack; data_header 1 ++ file_A 8; data_header 2 ++ file_A 8] ∧
    serve_clients 2 (only_5 (Recv peer (ack_packet 2))) sv2 = Ok sv3 ∧
    sent_to 5 (os sv3) =
      [oack; data_header 1 ++ file_A 8; data_header 2 ++ file_A 8;
       data_header 3 ++ file_A 4] ∧
    serve_clients 2 (only_5 (Recv peer (ack_packet 3))) sv3 = Ok sv4 ∧
    readers sv4 = [] ∧
    sent_to 5 (os sv4) = sent_to 5 (os sv3).
Proof.
  eexists _, _, _, _.
  split; [vm_compute; reflexivity|]. split; [reflexivity|].
  split; [by vm_compute|].
  split; [vm_compute; reflexivity|]. split; [by vm_compute|].
  split; [vm_compute; reflexivity|]. split; [by vm_compute|].
  split; [vm_compute; reflexivity|]. split; [reflexivity | by vm_compute].
Qed.

(** An upload without options: a block of 512 bytes, then one of 100; both
    are acknowledged, the file holds the 612 bytes, and the client is
    closed after the second. *)
Example upload_two_blocks :
  ∃ sv1 sv2 w3 f sv3,
    serve_request (calls_ok []) peer (request OP_WRQ ["f"; "octet"]%string)
      idle = Ok sv1 ∧
    writers sv1 = [client_of 512 0 0 0] ∧
    sent_to 5 (os sv1) = [] ∧
    serve_clients 0 (only_5 (Recv peer (data_header 1 ++ file_A 512))) sv1
      = Ok sv2 ∧
    writers sv2 = [client_of 512 0 0 0] ∧
    sent_to 5 (os sv2) = [ack_packet 1] ∧
    handle_writer (client_of 512 0 0 0)
      (Recv peer (data_header 2 ++ file_A 100)) (os sv2) = Ok (0, w3) ∧
    sent_to 5 w3 = [ack_packet 1; ack_packet 2] ∧
    files w3 !! 7 = Some f ∧ of_data f = file_A 612 ∧
    serve_clients 0 (only_5 (Recv peer (data_header 2 ++ file_A 100))) sv2
      = Ok sv3 ∧
    writers sv3 = [].
Proof.
  eexists _, _, _, _, _.
  split; [vm_compute; reflexivity|]. split; [reflexivity|].
  split; [by vm_compute|].
  split; [vm_compute; reflexivity|]. split; [reflexivity|].
  split; [by vm_compute|].
  split; [vm_compute; reflexivity|]. split; [by vm_compute|].
  split; [vm_compute; reflexivity|]. split; [by vm_compute|].
  split; [vm_compute; reflexivity | reflexivity].
Qed.

(** A read that returns no byte does not end the window: the value tested
    by the loop is that of [send], which counts the header. *)
Example empty_reads_do_not_stop_window :
  ∃ w',
    handle_reader 4 (client_of 8 100 4 0) (Recv peer (ack_packet 0))
      (reading (file_A 8)) = Ok (1, w') ∧
    sent_to 5 w' =
      [data_header 1 ++ file_A 8; data_header 2; data_header 3; data_header 4].
Proof. eexists. split; [vm_compute; reflexivity | by vm_compute]. Qed.

(** ** Requests for a file that cannot be opened *)

Lemma tftp_send_error_open s code msg w :
  s ∈ socks w →
  wire (snd (tftp_send_error s code msg w)) = wire w ++ [(s, error_packet code msg)].
Proof. intros Hs. unfold tftp_send_error. by rewrite send_open. Qed.

(** C8: a read request in octet mode whose socket is set up and whose
    [translate_open] fails is answered on the new socket with one
    datagram, the Error packet of code 1 and text "file not found": the
    bytes 0 5, 0 1, the text and a NUL; the registry of readers is left
    as it was. A write request whose [translate_open] fails sends
    nothing, opens nothing and leaves the registry of writers as it
    was. *)
Theorem open_failure_registers_no_client
    sys buf src registry w filename mode p do_oack o :
  request_strings buf = Ok (filename, mode, p) →
  strcasecmp_eq mode "octet" = true →
  request_opts p = Ok (do_oack, o) →
  (0 ≤ qrtr_open sys → 0 ≤ connect sys →
   translate_open sys filename O_RDONLY < 0 →
   ∃ w', handle_rrq sys buf src registry w = Ok (registry, w') ∧
         wire w' =
           wire w ++ [(qrtr_open sys,
                       [0; 5; 0; 1;
                        102; 105; 108; 101; 32; 110; 111; 116; 32;
                        102; 111; 117; 110; 100; 0])] ∧
         files w' = files w) ∧
  (translate_open sys filename (Z.lor O_WRONLY O_CREAT) < 0 →
   handle_wrq sys buf src registry w = Ok (registry, w)).
Proof.
  intros Hstr Hmode Hopts. split.
  - intros Hsock Hconn Hopen. eexists. unfold handle_rrq.
    rewrite Hstr. simpl. rewrite Hmode, Hopts. simpl.
    rewrite (proj2 (Z.ltb_ge _ _) Hsock), (proj2 (Z.ltb_ge _ _) Hconn).
    rewrite (proj2 (Z.ltb_lt _ _) Hopen). split; [reflexivity|].
    split; [|by unfold tftp_send_error; rewrite send_files].
    rewrite tftp_send_error_open; [done|].
    unfold open_socket; simpl. apply elem_of_union_l. by apply elem_of_singleton.
  - intros Hopen. unfold handle_wrq.
    rewrite Hstr. simpl. rewrite Hmode, Hopts. simpl.
    by rewrite (proj2 (Z.ltb_lt _ _) Hopen).
Qed.

Lemma open_failure_registers_no_client_witness :
  let buf := request OP_RRQ ["f"; "octet"]%string in
  let w := World ∅ ∅ [] in
  (∃ w', handle_rrq calls_no_file buf peer [] w = Ok ([], w') ∧
         wire w' =
           wire w ++ [(5, [0; 5; 0; 1;
                           102; 105; 108; 101; 32; 110; 111; 116; 32;
                           102; 111; 117; 110; 100; 0])] ∧
         files w' = files w) ∧
  handle_wrq calls_no_file buf peer [] w = Ok ([], w).
Proof.
  pose proof (open_failure_registers_no_client calls_no_file
                (request OP_RRQ ["f"; "octet"]%string) peer [] (World ∅ ∅ [])
                (bytes_of_string "f") (bytes_of_string "octet") []
                false default_options eq_refl eq_refl eq_refl) as [Hrrq Hwrq].
  split.
  - apply Hrrq; vm_compute; congruence.
  - apply Hwrq. reflexivity.
Defined.

(** ** The reader: a transfer bounded by [rsize] *)

Lemma pushes_nil w : pushes w [] = w.
Proof. destruct w. unfold pushes; simpl. by rewrite app_nil_r. Qed.

Lemma pushes_pushes w l1 l2 : pushes (pushes w l1) l2 = pushes w (l1 ++ l2).
Proof. unfold pushes; simpl. by rewrite app_assoc. Qed.

Section rsize_transfer.
Variable c : tftp_client.
Variable data : list Z.

Hypothesis blksize_pos : 0 < blksize c.
Hypothesis rsize_pos : 0 < rsize c.
Hypothesis seek_nonneg : 0 ≤ seek c.
Hypothesis wsize_range : 0 < wsize c < 2 ^ 63.
Hypothesis file_long_enough : seek c + rsize c ≤ Z.of_nat (length data).
Hypothesis no_overflow : Z.of_nat (length data) + blksize c < 2 ^ 63.
Hypothesis blocks_fit : rsize c / blksize c < 65535.
Hypothesis buffer_fits : 4 + blksize c < 2 ^ 63.

(** The index of the block that reaches past [rsize]. *)
Let T : Z := rsize c / blksize c.

Lemma serving_pushes w msgs :
  serving c data w → serving c data (pushes w msgs).
Proof. done. Qed.

Lemma T_nonneg : 0 ≤ T.
Proof. apply Z.div_pos; lia. Qed.

Lemma before_T k : 0 ≤ k < T → (k + 1) * blksize c ≤ rsize c.
Proof.
  intros Hk. pose proof (Z.mul_div_le (rsize c) (blksize c) blksize_pos).
  fold T in H. nia.
Qed.

Lemma upto_T k : 0 ≤ k ≤ T → k * blksize c ≤ rsize c.
Proof.
  intros Hk. pose proof (Z.mul_div_le (rsize c) (blksize c) blksize_pos).
  fold T in H. nia.
Qed.

Lemma past_T k : T ≤ k → rsize c < (k + 1) * blksize c.
Proof.
  intros Hk.
  pose proof (Z.mul_succ_div_gt (rsize c) (blksize c) blksize_pos).
  fold T in H. nia.
Qed.

Lemma rsize_split : rsize c = T * blksize c + rsize c mod blksize c.
Proof. unfold T. pose proof (Z.div_mod (rsize c) (blksize c)). lia. Qed.

Lemma limited_iff k :
  0 ≤ k ≤ T → (size_t ((k + 1) * blksize c) >? rsize c) = bool_decide (k = T).
Proof.
  intros Hk. pose proof (upto_T k Hk).
  rewrite size_t_small by lia. case_bool_decide as Heq.
  - apply Z.gtb_gt. pose proof (past_T k). lia.
  - rewrite Z.gtb_ltb. apply Z.ltb_ge. apply before_T. lia.
Qed.

Lemma pread_block w k :
  serving c data w → 0 ≤ k ≤ T →
  pread (fd c) (blksize c) (size_t (seek c + size_t (k * blksize c))) w =
    Some (take (Z.to_nat (blksize c))
            (drop (Z.to_nat (seek c + k * blksize c)) data)).
Proof.
  intros [(f & Hf & Hr & Hd) _] Hk. pose proof (upto_T k Hk).
  unfold pread. rewrite Hf, Hr, Hd.
  rewrite (size_t_small (k * blksize c)) by lia.
  rewrite size_t_small by lia.
  unfold off_t, ssize_t.
  rewrite (Z.mod_small (_ + 2 ^ 63)) by lia.
  by rewrite (proj2 (Z.leb_le _ _)) by lia.
Qed.

Lemma block_len_eq k :
  0 ≤ k ≤ T →
  block_len c k =
    if bool_decide (k = T) && negb (rsize c mod blksize c =? 0)
    then rsize c mod blksize c else blksize c.
Proof.
  intros Hk. unfold block_len. rewrite <- (limited_iff k Hk).
  pose proof (upto_T k Hk). by rewrite size_t_small by lia.
Qed.

Lemma send_block w k :
  serving c data w → 0 ≤ k ≤ T →
  tftp_send_data c (k + 1) (size_t (seek c + size_t (k * blksize c)))
    (if size_t ((k + 1) * blksize c) >? rsize c
     then rsize c mod blksize c else 0) w =
    Ok (Z.of_nat (length (data_block c data k)),
        pushes w [(sock c, data_block c data k)]).
Proof.
  intros Hw Hk. unfold tftp_send_data.
  rewrite (proj2 (Z.ltb_ge _ _)) by (unfold PTRDIFF_MAX; lia).
  rewrite (pread_block w k Hw Hk), (limited_iff k Hk).
  unfold data_block. rewrite (block_len_eq k Hk).
  destruct Hw as [_ Hs].
  pose proof (Z.mod_pos_bound (rsize c) (blksize c) blksize_pos) as Hr.
  case_bool_decide as HkT; simpl andb; cbv iota.
  - destruct (rsize c mod blksize c =? 0) eqn:Hz; simpl negb; cbv iota.
    + by rewrite send_open.
    + apply Z.eqb_neq in Hz.
      assert (Hoff : seek c + k * blksize c + rsize c mod blksize c
                     ≤ Z.of_nat (length data)).
      { subst k. pose proof rsize_split. lia. }
      rewrite size_t_small by lia.
      rewrite length_app, length_take, length_drop. simpl length.
      assert ((4 + rsize c mod blksize c >?
               Z.of_nat (4 + Z.to_nat (blksize c)
                           `min` (length data - Z.to_nat (seek c + k * blksize c)))%nat)
              = false) as ->.
      { rewrite Z.gtb_ltb. apply Z.ltb_ge. lia. }
      rewrite send_open by done.
      rewrite Z2Nat.inj_add by lia.
      rewrite (take_app_add' (data_header (k + 1))) by reflexivity.
      rewrite take_take, Nat.min_l by lia. done.
  - rewrite Z.eqb_refl. simpl negb. cbv iota. by rewrite send_open.
Qed.

Lemma data_block_length k : (4 ≤ length (data_block c data k))%nat.
Proof. unfold data_block. rewrite length_app. simpl. lia. Qed.

Lemma data_blocks_cons k n :
  0 < n →
  data_blocks c data k n =
    (sock c, data_block c data k) :: data_blocks c data (k + 1) (n - 1).
Proof. intros Hn. unfold data_blocks. by rewrite seqZ_cons by done. Qed.

Lemma data_blocks_nil k n : n ≤ 0 → data_blocks c data k n = [].
Proof. intros Hn. unfold data_blocks. by rewrite seqZ_nil. Qed.

Lemma data_blocks_app k n1 n2 :
  0 ≤ n1 → 0 ≤ n2 →
  data_blocks c data k (n1 + n2) =
    data_blocks c data k n1 ++ data_blocks c data (k + n1) n2.
Proof.
  intros H1 H2. unfold data_blocks. by rewrite seqZ_app, fmap_app by done.
Qed.

Lemma reader_window_done fuel last k w :
  (k <? size_t (last + wsize c)) = false →
  reader_window fuel c last k w = Ok w.
Proof. intros H. destruct fuel; simpl; by rewrite H. Qed.

(** The loop of [handle_reader] entered at [k]: it sends the blocks from
    [k] to the end of the window or to the block that reaches past
    [rsize], whichever comes first. *)
Lemma reader_window_blocks (m : nat) :
  ∀ fuel last k w,
    serving c data w → 0 ≤ last ≤ k → k ≤ T →
    Z.of_nat m = Z.min (last + wsize c) (T + 1) - k →
    (m ≤ fuel)%nat →
    reader_window fuel c last k w =
      Ok (pushes w (data_blocks c data k (Z.of_nat m))).
Proof.
  induction m as [|m IH]; intros fuel last k w Hw Hlast Hk Hm Hfuel.
  - rewrite data_blocks_nil, pushes_nil by done.
    apply reader_window_done. rewrite size_t_small by lia.
    apply Z.ltb_ge. lia.
  - destruct fuel as [|fuel]; [lia|]. simpl reader_window.
    rewrite size_t_small by lia.
    rewrite (proj2 (Z.ltb_lt _ _)) by lia.
    rewrite (send_block w k Hw) by lia.
    unfold mbind, result_bind.
    pose proof (data_block_length k) as Hlen.
    rewrite (proj2 (Z.ltb_ge _ _)) by lia.
    rewrite (proj2 (Z.eqb_neq _ _)) by lia.
    rewrite (limited_iff k) by lia.
    rewrite (data_blocks_cons k (Z.of_nat (S m))) by lia.
    case_bool_decide as HkT.
    + rewrite data_blocks_nil by lia. done.
    + rewrite uint16_t_small by lia.
      rewrite (IH fuel last (k + 1)); [| by apply serving_pushes | lia..].
      rewrite pushes_pushes.
      by replace (Z.of_nat (S m) - 1) with (Z.of_nat m) by lia.
Qed.

(** One acknowledgement that does not end the transfer. *)
Lemma handle_reader_window fuel n w :
  serving c data w → 0 ≤ n ≤ T →
  (Z.to_nat (Z.min (wsize c) (T + 1 - n)) ≤ fuel)%nat →
  handle_reader fuel c (Recv (sq c) (ack_packet n)) w =
    Ok (1, pushes w (data_blocks c data n (Z.min (wsize c) (T + 1 - n)))).
Proof.
  intros Hw Hn Hfuel. rewrite handle_reader_ack by lia.
  pose proof (upto_T n Hn). rewrite size_t_small by lia.
  assert ((n * blksize c >? rsize c) = false) as ->.
  { rewrite Z.gtb_ltb. apply Z.ltb_ge. lia. }
  rewrite (reader_window_blocks (Z.to_nat (Z.min (wsize c) (T + 1 - n))))
    by (done || lia).
  rewrite Z2Nat.id by lia. done.
Qed.

(** The acknowledgement of the block that reaches past [rsize]. *)
Lemma handle_reader_final fuel w :
  handle_reader fuel c (Recv (sq c) (ack_packet (T + 1))) w = Ok (0, w).
Proof.
  pose proof T_nonneg. rewrite handle_reader_ack by lia.
  pose proof (past_T T ltac:(lia)). pose proof rsize_split.
  pose proof (Z.mod_pos_bound (rsize c) (blksize c) blksize_pos).
  rewrite size_t_small by nia.
  by rewrite (proj2 (Z.gtb_gt _ _)) by lia.
Qed.

Lemma block_of_data_block k :
  0 ≤ k < 65535 → block_of (data_block c data k) = Some (k + 1).
Proof. intros Hk. unfold data_block; simpl. by rewrite be16_hi_lo by lia. Qed.

Lemma last_block_data_blocks k n :
  0 ≤ k → 0 < n → k + n ≤ 65535 →
  last_block (data_blocks c data k n) = Some (k + n).
Proof.
  intros Hk Hn Hmax.
  replace n with ((n - 1) + 1) at 1 by lia.
  rewrite data_blocks_app by lia.
  rewrite (data_blocks_cons _ 1), (data_blocks_nil _ (1 - 1)) by lia.
  unfold last_block. rewrite last_snoc. simpl snd.
  rewrite block_of_data_block by lia. f_equal. lia.
Qed.

Lemma read_transfer_step rounds fuel n w :
  read_transfer (S rounds) fuel c n w =
    '(ret, w1) ← handle_reader fuel c (Recv (sq c) (ack_packet n)) w;
    if ret <=? 0 then Ok (ret, w1)
    else
      match last_block (drop (length (wire w)) (wire w1)) with
      | Some b => read_transfer rounds fuel c b w1
      | None => Ok (ret, w1)
      end.
Proof. reflexivity. Qed.

(** The whole transfer from Ack([n]) on: the blocks from [n] to the one
    that reaches past [rsize], each sent once, then the end. *)
Lemma read_transfer_blocks (rounds : nat) :
  ∀ fuel n w,
    serving c data w → 0 ≤ n ≤ T + 1 →
    T + 1 - n < Z.of_nat rounds →
    (Z.to_nat (T + 1) ≤ fuel)%nat →
    read_transfer rounds fuel c n w =
      Ok (0, pushes w (data_blocks c data n (T + 1 - n))).
Proof.
  induction rounds as [|rounds IH]; intros fuel n w Hw Hn Hrounds Hfuel;
    [lia|].
  rewrite read_transfer_step. destruct (decide (n = T + 1)) as [Heq|Hne].
  - rewrite Heq, handle_reader_final. simpl.
    by rewrite data_blocks_nil, pushes_nil by lia.
  - set (m := Z.min (wsize c) (T + 1 - n)).
    assert (0 < m ≤ T + 1 - n) as Hmr by (unfold m; lia).
    rewrite handle_reader_window by (done || fold m; lia).
    fold m. unfold mbind, result_bind. simpl Z.leb. cbv iota.
    unfold pushes at 1. simpl wire. rewrite drop_app_length.
    rewrite last_block_data_blocks by lia.
    rewrite IH; [| by apply serving_pushes | lia..].
    rewrite pushes_pushes, <- data_blocks_app by lia.
    by replace (m + (T + 1 - (n + m))) with (T + 1 - n) by lia.
Qed.

Lemma payload_data_block k :
  payload (data_block c data k) =
    take (Z.to_nat (block_len c k))
      (drop (Z.to_nat (seek c + k * blksize c)) data).
Proof. reflexivity. Qed.

Lemma payloads_one_block k :
  concat ((payload ∘ snd) <$> data_blocks c data k 1) =
    take (Z.to_nat (block_len c k))
      (drop (Z.to_nat (seek c + k * blksize c)) data).
Proof.
  rewrite (data_blocks_cons _ 1), (data_blocks_nil _ (1 - 1)) by lia.
  rewrite fmap_cons, fmap_nil. unfold concat. by rewrite app_nil_r.
Qed.

(** The payloads of the first [j] blocks are the first [j * blksize]
    bytes of the file from [seek] on. *)
Lemma payloads_full_blocks (j : nat) :
  Z.of_nat j ≤ T →
  concat ((payload ∘ snd) <$> data_blocks c data 0 (Z.of_nat j)) =
    take (Z.to_nat (Z.of_nat j * blksize c)) (drop (Z.to_nat (seek c)) data).
Proof.
  induction j as [|j IH]; intros Hj; [done|].
  replace (Z.of_nat (S j)) with (Z.of_nat j + 1) by lia.
  rewrite data_blocks_app, fmap_app, concat_app, IH by lia.
  rewrite payloads_one_block, Z.add_0_l.
  rewrite (block_len_eq (Z.of_nat j)) by lia.
  rewrite bool_decide_false by lia. simpl andb. cbv iota.
  replace (Z.to_nat (seek c + Z.of_nat j * blksize c))
    with (Z.to_nat (seek c) + Z.to_nat (Z.of_nat j * blksize c))%nat by nia.
  rewrite <- drop_drop, take_take_drop. f_equal. nia.
Qed.

(** Unless [rsize] is a multiple of [blksize], the payloads of all
    blocks are the [rsize] bytes of the file from [seek] on. *)
Lemma payloads_all_blocks :
  rsize c mod blksize c ≠ 0 →
  concat ((payload ∘ snd) <$> data_blocks c data 0 (T + 1)) =
    take (Z.to_nat (rsize c)) (drop (Z.to_nat (seek c)) data).
Proof.
  intros Hrem. pose proof T_nonneg as HT.
  pose proof (Z.mod_pos_bound (rsize c) (blksize c) blksize_pos) as Hr.
  rewrite data_blocks_app, fmap_app, concat_app by lia.
  rewrite <- (Z2Nat.id T) at 1 by done.
  rewrite payloads_full_blocks by lia. rewrite Z2Nat.id by done.
  rewrite payloads_one_block, Z.add_0_l.
  rewrite (block_len_eq T) by lia.
  rewrite bool_decide_true by done.
  rewrite (proj2 (Z.eqb_neq _ _)) by done. simpl andb. cbv iota.
  replace (Z.to_nat (seek c + T * blksize c))
    with (Z.to_nat (seek c) + Z.to_nat (T * blksize c))%nat by nia.
  rewrite <- drop_drop, take_take_drop. f_equal.
  pose proof rsize_split. nia.
Qed.

(** When [rsize] is a multiple of [blksize], the block that reaches past
    [rsize] is read with the whole [blksize]. *)
Lemma payloads_all_blocks_multiple :
  rsize c mod blksize c = 0 →
  concat ((payload ∘ snd) <$> data_blocks c data 0 (T + 1)) =
    take (Z.to_nat (rsize c + blksize c)) (drop (Z.to_nat (seek c)) data).
Proof.
  intros Hrem. pose proof T_nonneg as HT.
  rewrite data_blocks_app, fmap_app, concat_app by lia.
  rewrite <- (Z2Nat.id T) at 1 by done.
  rewrite payloads_full_blocks by lia. rewrite Z2Nat.id by done.
  rewrite payloads_one_block, Z.add_0_l.
  rewrite (block_len_eq T) by lia.
  rewrite bool_decide_true by done.
  rewrite Hrem. simpl andb. cbv iota.
  replace (Z.to_nat (seek c + T * blksize c))
    with (Z.to_nat (seek c) + Z.to_nat (T * blksize c))%nat by nia.
  rewrite <- drop_drop, take_take_drop. f_equal.
  pose proof rsize_split. nia.
Qed.

(** *** Either sign of [char]

    The acknowledgements of such a transfer carry the numbers 0 to
    [T + 1]: where [char] is signed they are read alike when they are
    below 128. *)
Variable sc : bool.
Hypothesis read_alike : sc = false ∨ rsize c / blksize c + 1 < 128.

Lemma ack_read_alike fuel n w :
  0 ≤ n ≤ T + 1 →
  PlainChar.handle_reader sc fuel c (Recv (sq c) (ack_packet n)) w =
    handle_reader fuel c (Recv (sq c) (ack_packet n)) w.
Proof.
  intros Hn. apply handle_reader_any_char.
  rewrite ack_packet_bytes by (unfold T in *; lia).
  apply (low_block_number sc 4 n []); [lia|].
  destruct read_alike as [-> | Hlow]; [by left | right].
  fold T in Hlow. rewrite Z.div_small, Z.mod_small by lia. lia.
Qed.

Lemma read_transfer_any_char (rounds : nat) :
  ∀ fuel n w,
    serving c data w → 0 ≤ n ≤ T + 1 →
    T + 1 - n < Z.of_nat rounds →
    (Z.to_nat (T + 1) ≤ fuel)%nat →
    PlainChar.read_transfer sc rounds fuel c n w =
      Ok (0, pushes w (data_blocks c data n (T + 1 - n))).
Proof.
  induction rounds as [|rounds IH]; intros fuel n w Hw Hn Hrounds Hfuel;
    [lia|].
  cbn [PlainChar.read_transfer]. rewrite ack_read_alike by done.
  destruct (decide (n = T + 1)) as [Heq|Hne].
  - rewrite Heq, handle_reader_final. simpl.
    by rewrite data_blocks_nil, pushes_nil by lia.
  - set (m := Z.min (wsize c) (T + 1 - n)).
    assert (0 < m ≤ T + 1 - n) as Hmr by (unfold m; lia).
    rewrite handle_reader_window by (done || fold m; lia).
    fold m. unfold mbind, result_bind. simpl Z.leb. cbv iota.
    unfold pushes at 1. simpl wire. rewrite drop_app_length.
    rewrite last_block_data_blocks by lia.
    rewrite IH; [| by apply serving_pushes | lia..].
    rewrite pushes_pushes, <- data_blocks_app by lia.
    by replace (m + (T + 1 - (n + m))) with (T + 1 - n) by lia.
Qed.

Lemma data_blocks_headers n (i : nat) msg :
  n ≤ 65535 →
  data_blocks c data 0 n !! i = Some msg →
  msg.1 = sock c ∧
  take 4 msg.2 = [0; 3; (Z.of_nat i + 1) / 256; (Z.of_nat i + 1) mod 256].
Proof.
  intros Hn. unfold data_blocks. rewrite list_lookup_fmap.
  destruct (seqZ 0 n !! i) as [k|] eqn:Hk; [|done].
  simpl. intros [= <-]. apply lookup_seqZ in Hk as [-> Hi].
  split; [done|]. simpl snd. unfold data_block.
  rewrite data_header_bytes by lia. rewrite Z.add_0_l. reflexivity.
Qed.

(** A read bounded by [rsize] delivers the [rsize] bytes asked for when
    [rsize] is not a multiple of [blksize]: with a window of at least one
    block, a file that holds [rsize] bytes from [seek] on and a peer that
    acknowledges the last block of each answer, the transfer ends with
    the handler returning 0, its Data packets are numbered from 1 on, the
    payloads are the [rsize] bytes of the file from [seek] on, and the
    last packet carries [rsize mod blksize] bytes. *)
Theorem rsize_transfer_delivers_rsize w :
  rsize c mod blksize c ≠ 0 →
  serving c data w →
  let blocks := data_blocks c data 0 (rsize c / blksize c + 1) in
  (∀ rounds fuel,
     rsize c / blksize c + 1 < Z.of_nat rounds →
     rsize c / blksize c + 1 ≤ Z.of_nat fuel →
     PlainChar.read_transfer sc rounds fuel c 0 w = Ok (0, pushes w blocks)) ∧
  (∀ (i : nat) msg,
     blocks !! i = Some msg →
     msg.1 = sock c ∧
     take 4 msg.2 = [0; 3; (Z.of_nat i + 1) / 256; (Z.of_nat i + 1) mod 256]) ∧
  concat ((payload ∘ snd) <$> blocks) =
    take (Z.to_nat (rsize c)) (drop (Z.to_nat (seek c)) data) ∧
  Z.of_nat (length (concat ((payload ∘ snd) <$> blocks))) = rsize c ∧
  ∃ final, last blocks = Some final ∧
           Z.of_nat (length (payload (snd final))) = rsize c mod blksize c.
Proof.
  intros Hrem Hserving blocks. subst blocks. fold T.
  pose proof T_nonneg as HT.
  pose proof (Z.mod_pos_bound (rsize c) (blksize c) blksize_pos) as Hmod.
  pose proof rsize_split as Hsplit.
  pose proof (payloads_all_blocks Hrem) as Hpay.
  split_and!.
  - intros rounds fuel Hrounds Hfuel.
    rewrite (read_transfer_any_char rounds) by (done || lia).
    by rewrite Z.sub_0_r.
  - intros i msg. apply data_blocks_headers. pose proof blocks_fit. lia.
  - exact Hpay.
  - rewrite Hpay, length_take, length_drop. lia.
  - exists (sock c, data_block c data T). split.
    + rewrite data_blocks_app by lia.
      rewrite (data_blocks_cons _ 1), (data_blocks_nil _ (1 - 1)) by lia.
      by rewrite last_snoc, Z.add_0_l.
    + simpl snd. rewrite payload_data_block.
      rewrite (block_len_eq T) by lia.
      rewrite bool_decide_true by done.
      rewrite (proj2 (Z.eqb_neq _ _)) by done. simpl andb. cbv iota.
      rewrite length_take, length_drop. nia.
Qed.

(** When [rsize] is a multiple of [blksize] and the file goes on after
    the bytes asked for, the transfer delivers more than [rsize]: the
    block that closes it, which should be empty, is sent with the next
    bytes of the file, [blksize] of them or as many as the file has. In
    [tftp_send_data] a [response_size] of 0 stands for no limit. *)
Theorem rsize_multiple_sends_bytes_past_rsize w :
  rsize c mod blksize c = 0 →
  seek c + rsize c < Z.of_nat (length data) →
  serving c data w →
  let blocks := data_blocks c data 0 (rsize c / blksize c + 1) in
  let extra := Z.min (blksize c) (Z.of_nat (length data) - seek c - rsize c) in
  (∀ rounds fuel,
     rsize c / blksize c + 1 < Z.of_nat rounds →
     rsize c / blksize c + 1 ≤ Z.of_nat fuel →
     PlainChar.read_transfer sc rounds fuel c 0 w = Ok (0, pushes w blocks)) ∧
  (∀ (i : nat) msg,
     blocks !! i = Some msg →
     msg.1 = sock c ∧
     take 4 msg.2 = [0; 3; (Z.of_nat i + 1) / 256; (Z.of_nat i + 1) mod 256]) ∧
  concat ((payload ∘ snd) <$> blocks) =
    take (Z.to_nat (rsize c + blksize c)) (drop (Z.to_nat (seek c)) data) ∧
  0 < extra ∧
  Z.of_nat (length (concat ((payload ∘ snd) <$> blocks))) = rsize c + extra ∧
  ∃ final, last blocks = Some final ∧
           Z.of_nat (length (payload (snd final))) = extra.
Proof.
  intros Hrem Hmore Hserving blocks extra. subst blocks extra. fold T.
  pose proof T_nonneg as HT.
  pose proof rsize_split as Hsplit. rewrite Hrem in Hsplit.
  pose proof (payloads_all_blocks_multiple Hrem) as Hpay.
  split_and!.
  - intros rounds fuel Hrounds Hfuel.
    rewrite (read_transfer_any_char rounds) by (done || lia).
    by rewrite Z.sub_0_r.
  - intros i msg. apply data_blocks_headers. pose proof blocks_fit. lia.
  - exact Hpay.
  - lia.
  - rewrite Hpay, length_take, length_drop. lia.
  - exists (sock c, data_block c data T). split.
    + rewrite data_blocks_app by lia.
      rewrite (data_blocks_cons _ 1), (data_blocks_nil _ (1 - 1)) by lia.
      by rewrite last_snoc, Z.add_0_l.
    + simpl snd. rewrite payload_data_block.
      rewrite (block_len_eq T) by lia.
      rewrite bool_decide_true by done.
      rewrite Hrem. simpl andb. cbv iota.
      rewrite length_take, length_drop. nia.
Qed.
End rsize_transfer.

Lemma rsize_transfer_delivers_rsize_witness :
  let c := client_of 8 20 2 4 in
  let w := reading (file_A 100) in
  let blocks := data_blocks c (file_A 100) 0 (rsize c / blksize c + 1) in
  (∀ rounds fuel,
     rsize c / blksize c + 1 < Z.of_nat rounds →
     rsize c / blksize c + 1 ≤ Z.of_nat fuel →
     PlainChar.read_transfer true rounds fuel c 0 w = Ok (0, pushes w blocks)) ∧
  (∀ (i : nat) msg,
     blocks !! i = Some msg →
     msg.1 = sock c ∧
     take 4 msg.2 = [0; 3; (Z.of_nat i + 1) / 256; (Z.of_nat i + 1) mod 256]) ∧
  concat ((payload ∘ snd) <$> blocks) =
    take (Z.to_nat (rsize c)) (drop (Z.to_nat (seek c)) (file_A 100)) ∧
  Z.of_nat (length (concat ((payload ∘ snd) <$> blocks))) = rsize c ∧
  ∃ final, last blocks = Some final ∧
           Z.of_nat (length (payload (snd final))) = rsize c mod blksize c.
Proof.
  apply (rsize_transfer_delivers_rsize (client_of 8 20 2 4) (file_A 100));
    try (vm_compute; congruence).
  - split; reflexivity.
  - right. reflexivity.
  - split.
    + exists (OFile true false (file_A 100) 0). split_and!; reflexivity.
    + reflexivity.
Defined.

Lemma rsize_multiple_sends_bytes_past_rsize_witness :
  let c := client_of 8 16 1 0 in
  let w := reading (file_A 100) in
  let blocks := data_blocks c (file_A 100) 0 (rsize c / blksize c + 1) in
  let extra :=
    Z.min (blksize c) (Z.of_nat (length (file_A 100)) - seek c - rsize c) in
  (∀ rounds fuel,
     rsize c / blksize c + 1 < Z.of_nat rounds →
     rsize c / blksize c + 1 ≤ Z.of_nat fuel →
     PlainChar.read_transfer true rounds fuel c 0 w = Ok (0, pushes w blocks)) ∧
  (∀ (i : nat) msg,
     blocks !! i = Some msg →
     msg.1 = sock c ∧
     take 4 msg.2 = [0; 3; (Z.of_nat i + 1) / 256; (Z.of_nat i + 1) mod 256]) ∧
  concat ((payload ∘ snd) <$> blocks) =
    take (Z.to_nat (rsize c + blksize c)) (drop (Z.to_nat (seek c)) (file_A 100)) ∧
  0 < extra ∧
  Z.of_nat (length (concat ((payload ∘ snd) <$> blocks))) = rsize c + extra ∧
  ∃ final, last blocks = Some final ∧
           Z.of_nat (length (payload (snd final))) = extra.
Proof.
  apply (rsize_multiple_sends_bytes_past_rsize (client_of 8 16 1 0)
           (file_A 100));
    try (vm_compute; congruence).
  - split; reflexivity.
  - right. reflexivity.
  - split.
    + exists (OFile true false (file_A 100) 0). split_and!; reflexivity.
    + reflexivity.
Defined.

(** C4, as the code has it: a read of 16 bytes in blocks of 8, from a file
    of 100 bytes. Blocks 1 and 2 carry the 16 bytes; block 3, which closes
    the transfer and should be empty, carries 8 bytes more: [handle_reader]
    passes the [response_size] [16 mod 8 = 0], which [tftp_send_data] takes
    for no limit. The peer gets 24 bytes. *)
Theorem rsize_multiple_of_blksize_closes_with_a_full_block :
  ∃ sv1 sv2 sv3 sv4 sv5,
    serve_request (calls_ok (replicate 100 65)) peer
      (request OP_RRQ ["f"; "octet"; "blksize"; "8"; "rsize"; "16";
                       "wsize"; "1"]%string) idle = Ok sv1 ∧
    readers sv1 = [Client peer 5 7 0 8 16 1 1000 0] ∧
    serve_clients 1 (only_5 (Recv peer [0; 4; 0; 0])) sv1 = Ok sv2 ∧
    wire (os sv2) = wire (os sv1) ++ [(5, [0; 3; 0; 1] ++ replicate 8 65)] ∧
    serve_clients 1 (only_5 (Recv peer [0; 4; 0; 1])) sv2 = Ok sv3 ∧
    wire (os sv3) = wire (os sv2) ++ [(5, [0; 3; 0; 2] ++ replicate 8 65)] ∧
    serve_clients 1 (only_5 (Recv peer [0; 4; 0; 2])) sv3 = Ok sv4 ∧
    wire (os sv4) = wire (os sv3) ++ [(5, [0; 3; 0; 3] ++ replicate 8 65)] ∧
    readers sv4 = [Client peer 5 7 0 8 16 1 1000 0] ∧
    serve_clients 1 (only_5 (Recv peer [0; 4; 0; 3])) sv4 = Ok sv5 ∧
    wire (os sv5) = wire (os sv4) ∧
    readers sv5 = [] ∧
    length (concat (drop 4 <$> drop 1 (sent_to 5 (os sv5)))) = 24%nat.
Proof.
  eexists _, _, _, _, _.
  split; [vm_compute; reflexivity|]. split; [reflexivity|].
  split; [vm_compute; reflexivity|]. split; [reflexivity|].
  split; [vm_compute; reflexivity|]. split; [reflexivity|].
  split; [vm_compute; reflexivity|]. split; [reflexivity|].
  split; [reflexivity|].
  split; [vm_compute; reflexivity|]. split; [reflexivity|].
  split; [reflexivity | by vm_compute].
Qed.

(** A file that does not hold the [rsize] bytes asked for is refused by
    the check of [tftp_send_data]: nothing is sent. *)
Example short_file_is_refused :
  let c := client_of 8 5 1 0 in
  ∃ w', read_transfer 3 1 c 0 (reading (file_A 3)) = Ok (1, w') ∧
        sent_to 5 w' = [].
Proof. eexists. split; [vm_compute; reflexivity | by vm_compute]. Qed.

(** ** Options requested and options acknowledged *)


Lemma request_options_cons b bs :
  request_options (b :: bs) =
    match cstring (b :: bs) with
    | Some (opt, rest) =>
        match cstring rest with
        | Some (value, rest') =>
            l ← request_options rest'; Ok ((opt, value) :: l)
        | None => Undefined
        end
    | None => Undefined
    end.
Proof.
  simp request_options.
  generalize (inspect (cstring (b :: bs))).
  intros [[[opt rest]|] e]; simp request_options; [|by rewrite e].
  generalize (inspect (cstring rest)).
  intros [[[value rest']|] e']; simp request_options; rewrite e, e'; [|done].
  by destruct (request_options rest').
Qed.

Lemma parse_options_cons b bs o :
  parse_options (b :: bs) o =
    match cstring (b :: bs) with
    | Some (opt, rest) =>
        match cstring rest with
        | Some (value, rest') => parse_options rest' (set_option o opt value)
        | None => Undefined
        end
    | None => Undefined
    end.
Proof.
  simp parse_options.
  generalize (inspect (cstring (b :: bs))).
  intros [[[opt rest]|] e]; simp parse_options; [|by rewrite e].
  generalize (inspect (cstring rest)).
  intros [[[value rest']|] e']; simp parse_options; by rewrite e, e'.
Qed.













Lemma ssize_t_size_t t : - 2 ^ 63 ≤ t < 2 ^ 63 → ssize_t (size_t t) = t.
Proof.
  intros Ht. unfold ssize_t, size_t.
  rewrite Zplus_mod_idemp_l. rewrite Z.mod_small by lia. lia.
Qed.

Lemma size_t_minus_one t :
  - 2 ^ 63 ≤ t < 2 ^ 63 → (size_t t =? size_t (-1)) = (t =? -1).
Proof.
  intros Ht. destruct (t =? -1) eqn:E.
  - apply Z.eqb_eq in E. subst. apply Z.eqb_refl.
  - apply Z.eqb_neq in E. apply Z.eqb_neq. intros Heq. apply E.
    rewrite <- (ssize_t_size_t t) by done. rewrite Heq. reflexivity.
Qed.

#[local] Set Warnings "-clear-no-such-hyp".






(** * Further properties of the code *)

(** ** Block numbers on the wire *)

Lemma be16_wraps n : Z.lor (Z.shiftl (hi8 n) 8) (lo8 n) = n mod 65536.
Proof.
  unfold hi8, lo8. change 255 with (Z.ones 8).
  rewrite !Z.land_ones, Z.shiftr_div_pow2, Z.shiftl_mul_pow2 by lia.
  assert (Hdisj : Z.land ((n / 2 ^ 8) mod 2 ^ 8 * 2 ^ 8) (n mod 2 ^ 8) = 0).
  { apply Z.bits_inj'. intros i Hi. rewrite Z.land_spec, Z.bits_0.
    destruct (decide (i < 8)).
    - rewrite Z.mul_pow2_bits_low by lia. done.
    - rewrite Z.mod_pow2_bits_high by lia. apply andb_false_r. }
  rewrite <- Z.lxor_lor, <- Z.add_nocarry_lxor by exact Hdisj.
  change 65536 with (2 ^ 8 * 2 ^ 8).
  rewrite (Z.rem_mul_r n (2 ^ 8) (2 ^ 8)) by lia. lia.
Qed.

Lemma data_header_any z :
  data_header z = [0; 3; (z / 256) mod 256; z mod 256].
Proof. unfold data_header. by rewrite hi8_byte, lo8_byte. Qed.

Lemma ack_packet_any z :
  ack_packet z = [0; 4; (z / 256) mod 256; z mod 256].
Proof. unfold ack_packet. by rewrite hi8_byte, lo8_byte. Qed.

(** The two bytes of a block number carry it modulo 2^16. [tftp_send_data]
    and [tftp_send_ack] write the number [b] as the bytes
    [(b / 256) mod 256] and [b mod 256] after the opcode, so both do for
    [b] what they do for [b mod 65536], and the block after 65535 goes
    out as block 0. *)
Theorem block_numbers_wrap c b off rs s w :
  tftp_send_data c (b mod 65536) off rs w = tftp_send_data c b off rs w ∧
  tftp_send_ack s (b mod 65536) w = tftp_send_ack s b w ∧
  tftp_send_ack s b w = send s [0; 4; (b / 256) mod 256; b mod 256] w ∧
  data_header b = [0; 3; (b / 256) mod 256; b mod 256] ∧
  tftp_send_data c 65536 off rs w = tftp_send_data c 0 off rs w.
Proof.
  assert (Hhi : ((b mod 65536) / 256) mod 256 = (b / 256) mod 256)
    by (Z.div_mod_to_equations; lia).
  assert (Hlo : (b mod 65536) mod 256 = b mod 256)
    by (Z.div_mod_to_equations; lia).
  assert (Hdata : data_header (b mod 65536) = data_header b)
    by (by rewrite !data_header_any, Hhi, Hlo).
  assert (Hack : ack_packet (b mod 65536) = ack_packet b)
    by (by rewrite !ack_packet_any, Hhi, Hlo).
  split_and!.
  - unfold tftp_send_data. by rewrite Hdata.
  - unfold tftp_send_ack. by rewrite Hack.
  - unfold tftp_send_ack. by rewrite ack_packet_any.
  - apply data_header_any.
  - reflexivity.
Qed.

(** ** One Data packet *)

Lemma send_result s msg w :
  send s msg w = (Z.of_nat (length msg), pushes w [(s, msg)]) ∨
  send s msg w = (-1, w).
Proof. unfold send. destruct (decide _); [by left | by right]. Qed.

Lemma tftp_send_data_cases c blk off rs w :
  0 ≤ blksize c → 4 + blksize c < 2 ^ 63 → 0 ≤ rs → 4 + rs < 2 ^ 64 →
  ∃ n w',
    tftp_send_data c blk off rs w = Ok (n, w') ∧
    ((n < 0 ∧ w' = w) ∨
     ∃ f len,
       files w !! fd c = Some f ∧
       w' = pushes w [(sock c,
                       data_header blk ++
                       take len (drop (Z.to_nat off) (of_data f)))] ∧
       (len ≤ length (of_data f) - Z.to_nat off)%nat ∧
       n = 4 + Z.of_nat len ∧
       Z.of_nat len ≤ blksize c ∧
       (rs ≠ 0 → Z.of_nat len = rs)).
Proof.
  intros Hb Hb64 Hrs Hrs64. unfold tftp_send_data, pread.
  rewrite (proj2 (Z.ltb_ge _ _)) by (unfold PTRDIFF_MAX; lia).
  destruct (files w !! fd c) as [f|] eqn:Hf; [|eexists _, _; split; [done|left; done]].
  destruct (of_readable f && (0 <=? off_t off));
    [|eexists _, _; split; [done|left; done]].
  set (avail := drop (Z.to_nat off) (of_data f)).
  assert (Hav : length avail = (length (of_data f) - Z.to_nat off)%nat)
    by (unfold avail; apply length_drop).
  destruct (rs =? 0) eqn:Hz; simpl negb; cbv iota.
  - apply Z.eqb_eq in Hz.
    destruct (send_result (sock c)
                (data_header blk ++ take (Z.to_nat (blksize c)) avail) w)
      as [-> | ->]; eexists _, _; (split; [done|]); [right | left; done].
    rewrite length_app. simpl length.
    destruct (decide (Z.to_nat (blksize c) ≤ length avail)%nat) as [Hle|Hgt].
    + exists f, (Z.to_nat (blksize c)). rewrite length_take.
      split_and!; try done; lia.
    + exists f, (length avail). rewrite (take_ge avail) by lia.
      rewrite firstn_all. split_and!; try done; lia.
  - apply Z.eqb_neq in Hz. rewrite size_t_small by lia.
    rewrite length_app, length_take. simpl length.
    destruct (4 + rs >? _) eqn:Hcmp;
      [eexists _, _; split; [done | left; split; [done | done]]|].
    rewrite Z.gtb_ltb in Hcmp. apply Z.ltb_ge in Hcmp.
    rewrite Z2Nat.inj_add by lia.
    rewrite (take_app_add' (data_header blk)) by reflexivity.
    rewrite take_take, Nat.min_l by lia.
    destruct (send_result (sock c)
                (data_header blk ++ take (Z.to_nat rs) avail) w)
      as [-> | ->]; eexists _, _; (split; [done|]); [right | left; done].
    exists f, (Z.to_nat rs).
    rewrite length_app, length_take. simpl length.
    split_and!; try done; lia.
Qed.

(** ** The window of one acknowledgement *)

Lemma reader_window_step fuel c last blk w :
  (blk <? size_t (last + wsize c)) = true →
  reader_window (S fuel) c last blk w =
    let offset := size_t (seek c + size_t (blk * blksize c)) in
    let limited := size_t ((blk + 1) * blksize c) >? rsize c in
    let response_size := if limited then rsize c mod blksize c else 0 in
    '(n, w1) ← tftp_send_data c (blk + 1) offset response_size w;
    if n <? 0 then Ok w1
    else if n =? 0 then Ok w1
    else if limited then Ok w1
    else reader_window fuel c last (uint16_t (blk + 1)) w1.
Proof. intros H. simpl. by rewrite H. Qed.

Lemma response_size_range c blk :
  0 ≤ blksize c → 4 + blksize c < 2 ^ 63 → 0 ≤ rsize c →
  let rs := if size_t ((blk + 1) * blksize c) >? rsize c
            then rsize c mod blksize c else 0 in
  0 ≤ rs ∧ 4 + rs < 2 ^ 64.
Proof.
  intros Hb Hb64 Hr. simpl.
  destruct (size_t ((blk + 1) * blksize c) >? rsize c) eqn:Hlim; [|lia].
  destruct (decide (blksize c = 0)) as [Hz|Hnz].
  - rewrite Hz, Z.mul_0_r in Hlim. apply Z.gtb_gt in Hlim.
    unfold size_t in Hlim. rewrite Z.mod_0_l in Hlim by lia. lia.
  - pose proof (Z.mod_pos_bound (rsize c) (blksize c)). lia.
Qed.

Lemma reader_window_bounded c last (m : nat) :
  0 ≤ blksize c → 4 + blksize c < 2 ^ 63 → 0 ≤ rsize c →
  0 ≤ last → last + wsize c ≤ 65535 →
  ∀ fuel k w,
    last ≤ k → k + Z.of_nat m = last + wsize c → (m ≤ fuel)%nat →
    ∃ msgs, reader_window fuel c last k w = Ok (pushes w msgs) ∧
            window_of c k m msgs.
Proof.
  intros Hb Hb64 Hr Hlast Hmax.
  induction m as [|m IH]; intros fuel k w Hk Hm Hfuel.
  - exists []. rewrite pushes_nil. split.
    + apply reader_window_done. rewrite size_t_small by lia.
      apply Z.ltb_ge. lia.
    + split; [done|]. intros i msg Hi. by rewrite lookup_nil in Hi.
  - destruct fuel as [|fuel]; [lia|].
    rewrite reader_window_step
      by (rewrite size_t_small by lia; apply Z.ltb_lt; lia).
    cbv zeta.
    destruct (response_size_range c k Hb Hb64 Hr) as [Hrs Hrs64].
    destruct (tftp_send_data_cases c (k + 1)
                (size_t (seek c + size_t (k * blksize c)))
                (if size_t ((k + 1) * blksize c) >? rsize c
                 then rsize c mod blksize c else 0) w Hb Hb64 Hrs Hrs64)
      as (n & w' & -> & [[Hn ->] | (f & len & Hf & -> & Hlen & -> & Hle & _)]).
    + exists []. unfold mbind, result_bind.
      rewrite (proj2 (Z.ltb_lt _ _)) by lia. rewrite pushes_nil.
      split; [done|]. split; [simpl; lia|].
      intros i msg Hi. by rewrite lookup_nil in Hi.
    + unfold mbind, result_bind.
      rewrite (proj2 (Z.ltb_ge _ _)) by lia.
      rewrite (proj2 (Z.eqb_neq _ _)) by lia.
      set (msg := (sock c, data_header (k + 1) ++
                     take len (drop (Z.to_nat (size_t (seek c + size_t (k * blksize c))))
                                 (of_data f)))).
      assert (Hmsg : msg.1 = sock c ∧
                     take 4 msg.2 =
                       [0; 3; ((k + 1 + Z.of_nat 0) / 256) mod 256;
                        (k + 1 + Z.of_nat 0) mod 256] ∧
                     Z.of_nat (length msg.2) ≤ 4 + blksize c).
      { unfold msg. simpl fst. simpl snd. rewrite Z.add_0_r.
        split_and!; [done | by rewrite <- data_header_any |].
        simpl length. rewrite length_take. lia. }
      destruct (size_t ((k + 1) * blksize c) >? rsize c).
      * exists [msg]. split; [done|]. split; [simpl; lia|].
        intros [|i] m' Hi; [|simpl in Hi; discriminate].
        by injection Hi as <-.
      * rewrite uint16_t_small by lia.
        destruct (IH fuel (k + 1) (pushes w [msg])) as (msgs & -> & Hlen' & Hall);
          [lia..|].
        exists (msg :: msgs). rewrite pushes_pushes. split; [done|].
        split; [simpl; lia|].
        intros [|i] m' Hi.
        -- by injection Hi as <-.
        -- destruct (Hall i m' Hi) as (H1 & H2 & H3).
           split_and!; [done | | done].
           rewrite H2.
           by replace (k + 1 + Z.of_nat (S i)) with (k + 1 + 1 + Z.of_nat i)
             by lia.
Qed.

(** An acknowledgement that does not end the transfer is answered with at
    most [wsize] Data packets, all to the socket of the client, numbered
    from [n + 1] on without a gap, none longer than [4 + blksize]; the
    handler returns 1 and the open files and sockets stay as they were.
    This holds whatever [rsize] is and whatever the file holds, as long as
    the block counter does not pass 65535 and the buffer of a block can
    be had; where [char] is signed, for an acknowledgement whose two
    number bytes are below 0x80. *)
Theorem window_is_at_most_wsize_blocks sc fuel c n w :
  0 ≤ blksize c → 4 + blksize c < 2 ^ 63 → 0 ≤ rsize c →
  0 ≤ n → 0 ≤ wsize c → n + wsize c ≤ 65535 →
  sc = false ∨ (n / 256 < 128 ∧ n mod 256 < 128) →
  size_t (n * blksize c) ≤ rsize c →
  (Z.to_nat (wsize c) ≤ fuel)%nat →
  ∃ msgs w',
    PlainChar.handle_reader sc fuel c
      (Recv (sq c) [0; 4; n / 256; n mod 256]) w = Ok (1, w') ∧
    wire w' = wire w ++ msgs ∧ socks w' = socks w ∧ files w' = files w ∧
    window_of c n (Z.to_nat (wsize c)) msgs.
Proof.
  intros Hb Hb64 Hr Hn Hw Hmax Hsign Hnt Hfuel.
  rewrite handle_reader_any_char by (by apply (low_block_number sc 4 n [])).
  rewrite <- ack_packet_bytes by lia.
  rewrite handle_reader_ack by lia.
  assert ((size_t (n * blksize c) >? rsize c) = false) as ->.
  { rewrite Z.gtb_ltb. apply Z.ltb_ge. lia. }
  destruct (reader_window_bounded c n (Z.to_nat (wsize c)) Hb Hb64 Hr Hn Hmax
              fuel n w) as (msgs & -> & Hwin); [lia..|].
  by exists msgs, (pushes w msgs).
Qed.

Lemma window_is_at_most_wsize_blocks_witness :
  ∃ msgs w',
    PlainChar.handle_reader true 2 (client_of 8 0 2 0)
      (Recv peer [0; 4; 0 / 256; 0 mod 256]) (reading (file_A 100))
      = Ok (1, w') ∧
    wire w' = wire (reading (file_A 100)) ++ msgs ∧
    socks w' = socks (reading (file_A 100)) ∧
    files w' = files (reading (file_A 100)) ∧
    window_of (client_of 8 0 2 0) 0 (Z.to_nat 2) msgs.
Proof.
  apply (window_is_at_most_wsize_blocks true 2 (client_of 8 0 2 0) 0
           (reading (file_A 100)));
    first [ lia | by (right; split) | (simpl; lia)
          | (vm_compute; (congruence || lia)) ].
Defined.



(** ** A window that passes block 65535 *)

Lemma tftp_send_data_unlimited c data blk off w :
  0 ≤ blksize c → 4 + blksize c < 2 ^ 63 → 0 ≤ off < 2 ^ 63 →
  serving c data w →
  tftp_send_data c blk off 0 w =
    Ok (4 + Z.of_nat (length (take (Z.to_nat (blksize c))
                                (drop (Z.to_nat off) data))),
        pushes w [(sock c, data_header blk ++
                     take (Z.to_nat (blksize c)) (drop (Z.to_nat off) data))]).
Proof.
  intros Hb Hb64 Hoff [(f & Hf & Hr & Hd) Hs].
  unfold tftp_send_data, pread.
  rewrite (proj2 (Z.ltb_ge _ _)) by (unfold PTRDIFF_MAX; lia).
  rewrite Hf, Hr, Hd.
  unfold off_t, ssize_t. rewrite (Z.mod_small (_ + 2 ^ 63)) by lia.
  rewrite (proj2 (Z.leb_le _ _)) by lia. simpl.
  rewrite send_open by done. do 2 f_equal. simpl length. lia.
Qed.

Lemma reader_window_runs_on c data last :
  0 ≤ blksize c → 4 + blksize c < 2 ^ 64 →
  65536 * blksize c ≤ rsize c → rsize c < 2 ^ 64 →
  0 ≤ seek c → seek c + 65536 * blksize c < 2 ^ 63 →
  65536 ≤ last + wsize c < 2 ^ 64 →
  ∀ fuel k w,
    0 ≤ k < 65536 → serving c data w →
    reader_window fuel c last k w = OutOfFuel.
Proof.
  intros Hb Hb64 Hrs Hrs64 Hseek Hoff Hwin.
  induction fuel as [|fuel IH]; intros k w Hk Hw.
  - simpl. rewrite size_t_small by lia.
    by rewrite (proj2 (Z.ltb_lt _ _)) by lia.
  - rewrite reader_window_step
      by (rewrite size_t_small by lia; apply Z.ltb_lt; lia).
    cbv zeta.
    assert (Hblock : (k + 1) * blksize c ≤ rsize c) by nia.
    rewrite (size_t_small ((k + 1) * blksize c)) by nia.
    assert (((k + 1) * blksize c >? rsize c) = false) as ->.
    { rewrite Z.gtb_ltb. apply Z.ltb_ge. lia. }
    rewrite (size_t_small (k * blksize c)) by nia.
    rewrite (size_t_small (seek c + _)) by nia.
    rewrite (tftp_send_data_unlimited c data) by (done || nia).
    unfold mbind, result_bind.
    rewrite (proj2 (Z.ltb_ge _ _)) by lia.
    rewrite (proj2 (Z.eqb_neq _ _)) by lia.
    apply IH; [|by apply serving_pushes].
    unfold uint16_t. pose proof (Z.mod_pos_bound (k + 1) (2 ^ 16)). lia.
Qed.

(** When the window reaches past block 65535 and no block of the 65536
    reaches past [rsize], the loop of [handle_reader] does not end: its
    16-bit counter wraps to 0 and stays below the bound [last + wsize], and
    every pass sends a packet. Whatever the fuel, the handler is still
    running. *)
Theorem window_past_65535_never_ends fuel c data n w :
  0 ≤ blksize c → 4 + blksize c < 2 ^ 64 →
  65536 * blksize c ≤ rsize c → rsize c < 2 ^ 64 →
  0 ≤ seek c → seek c + 65536 * blksize c < 2 ^ 63 →
  0 ≤ n < 65536 → 65536 ≤ n + wsize c < 2 ^ 64 →
  serving c data w →
  handle_reader fuel c (Recv (sq c) (ack_packet n)) w = OutOfFuel.
Proof.
  intros Hb Hb64 Hrs Hrs64 Hseek Hoff Hn Hwin Hw.
  rewrite handle_reader_ack by lia.
  rewrite size_t_small by nia.
  assert ((n * blksize c >? rsize c) = false) as ->.
  { rewrite Z.gtb_ltb. apply Z.ltb_ge. nia. }
  by rewrite (reader_window_runs_on c data n) by (done || lia).
Qed.

Lemma window_past_65535_never_ends_witness :
  handle_reader 1000 (client_of 0 0 65536 0) (Recv peer (ack_packet 0))
    (reading (file_A 100)) = OutOfFuel.
Proof.
  apply (window_past_65535_never_ends 1000 (client_of 0 0 65536 0)
           (file_A 100) 0 (reading (file_A 100)));
    try (vm_compute; (congruence || lia)).
  - split; vm_compute; congruence.
  - split; vm_compute; congruence.
  - split; [exists (OFile true false (file_A 100) 0); split_and!|]; reflexivity.
Defined.

(** ** Packets the handlers do not expect *)

(** The opcode of a datagram is one of the small numbers of the protocol
    only when its first byte is 0 and its second byte that number,
    whatever the sign of [char]. *)
Lemma opcode_any_char sc b0 b1 v :
  0 ≤ b0 < 256 → 0 ≤ b1 < 256 → 0 ≤ v < 128 →
  (Z.lor (Z.shiftl (PlainChar.promote sc b0) 8) (PlainChar.promote sc b1)
     =? v) = bool_decide (b0 = 0 ∧ b1 = v).
Proof.
  intros H0 H1 Hv.
  assert (Hp0 : PlainChar.promote sc b0 = b0 ∨
                PlainChar.promote sc b0 = b0 - 256 ∧ 128 ≤ b0).
  { unfold PlainChar.promote. destruct sc; simpl; [|by left].
    destruct (Z.leb_spec 128 b0); [right | left]; done. }
  assert (Hp1 : PlainChar.promote sc b1 = b1 ∨
                PlainChar.promote sc b1 = b1 - 256 ∧ 128 ≤ b1).
  { unfold PlainChar.promote. destruct sc; simpl; [|by left].
    destruct (Z.leb_spec 128 b1); [right | left]; done. }
  destruct Hp1 as [-> | [-> Hhigh]].
  - rewrite lor_shift_byte by done.
    case_bool_decide as Hd.
    + destruct Hd as [-> ->]. apply Z.eqb_eq.
      destruct Hp0 as [-> | [-> ?]]; lia.
    + apply Z.eqb_neq. intros Heq. apply Hd.
      destruct Hp0 as [Hp | [Hp ?]]; rewrite Hp in Heq; lia.
  - rewrite bool_decide_false by lia. apply Z.eqb_neq.
    pose proof (proj2 (Z.lor_neg (Z.shiftl (PlainChar.promote sc b0) 8)
                         (b1 - 256))) as Hneg.
    lia.
Qed.





(** ** What the writer does and does not do *)

Lemma send_wire s msg w :
  wire (snd (send s msg w)) = wire w ∨
  wire (snd (send s msg w)) = wire w ++ [(s, msg)].
Proof. destruct (send_result s msg w) as [-> | ->]; [right | left]; done. Qed.

(** Whatever datagram of four bytes or more [handle_writer] is given, it
    returns, and either it returns -1 having written nothing and sent at
    most the Error packet, or the datagram is a Data packet from the peer
    and it has written the payload (the bytes after the header, 512 at
    most) at the position of the file, sent at most the acknowledgement
    with the two number bytes of the datagram, and returns 1 for a payload
    of 512 bytes and 0 otherwise. No block is acknowledged that was not
    written. Where [char] is signed the two number bytes are below
    0x80. *)
Theorem writer_outcomes sc c src b0 b1 b2 b3 rest w :
  0 ≤ b0 < 256 → 0 ≤ b1 < 256 → 0 ≤ b2 < 256 → 0 ≤ b3 < 256 →
  sc = false ∨ (b2 < 128 ∧ b3 < 128) →
  let payload := take 512 rest in
  ∃ ret w',
    PlainChar.handle_writer sc c (Recv src (b0 :: b1 :: b2 :: b3 :: rest)) w
      = Ok (ret, w') ∧
    socks w' = socks w ∧
    ((ret = -1 ∧ files w' = files w ∧
      (wire w' = wire w ∨
       wire w' =
         wire w ++ [(sock c,
                     [0; 5; 0; 4;
                      69; 120; 112; 101; 99; 116; 101; 100; 32;
                      68; 65; 84; 65; 32; 111; 112; 99; 111; 100; 101; 0])]))
     ∨
     (∃ f,
        same_peer src (sq c) = true ∧ b0 = 0 ∧ b1 = 3 ∧
        files w !! fd c = Some f ∧ of_writable f = true ∧
        files w' =
          <[fd c := OFile (of_readable f) true
                      (take (of_pos f) (of_data f) ++ payload
                         ++ drop (of_pos f + length payload)%nat (of_data f))
                      (of_pos f + length payload)%nat]> (files w) ∧
        (wire w' = wire w ∨ wire w' = wire w ++ [(sock c, [0; 4; b2; b3])]) ∧
        ret = if (length payload =? 512)%nat then 1 else 0)).
Proof.
  intros H0 H1 H2 H3 Hsign payload. subst payload.
  unfold PlainChar.handle_writer.
  destruct (same_peer src (sq c)) eqn:Hpeer; simpl negb; cbv iota;
    [|eexists _, _; split; [done|]; split; [done|left; auto]].
  change (take 516 (b0 :: b1 :: b2 :: b3 :: rest))
    with (b0 :: b1 :: b2 :: b3 :: take 512 rest).
  change (PlainChar.rd16 sc (b0 :: b1 :: b2 :: b3 :: take 512 rest) 0)
    with (Ok (A:=Z) (Z.lor (Z.shiftl (PlainChar.promote sc b0) 8)
                       (PlainChar.promote sc b1))).
  change (PlainChar.rd16 sc (b0 :: b1 :: b2 :: b3 :: take 512 rest) 2)
    with (Ok (A:=Z) (Z.lor (Z.shiftl (PlainChar.promote sc b2) 8)
                       (PlainChar.promote sc b3))).
  unfold mbind, result_bind.
  rewrite opcode_any_char by (done || (unfold OP_DATA; lia)).
  case_bool_decide as Hop; simpl negb; cbv iota.
  - destruct Hop as [-> ->].
    rewrite !promote_low by (destruct Hsign as [-> | []]; [by left | by right]).
    rewrite lor_shift_byte by done.
    rewrite uint16_t_small by lia.
    change (drop 4 (0 :: OP_DATA :: b2 :: b3 :: take 512 rest))
      with (take 512 rest).
    unfold write. destruct (files w !! fd c) as [f|] eqn:Hf;
      [|eexists _, _; split; [done|]; split; [done|left; auto]].
    destruct (of_writable f) eqn:Hw;
      [|eexists _, _; split; [done|]; split; [done|left; auto]].
    rewrite (proj2 (Z.ltb_ge _ _)) by lia.
    eexists _, _. split; [done|]. unfold tftp_send_ack.
    rewrite send_socks, send_files. split; [done|]. right.
    exists f. simpl. split_and!; try done.
    rewrite ack_packet_bytes by lia.
    replace ((b2 * 256 + b3) / 256) with b2 by (Z.div_mod_to_equations; lia).
    replace ((b2 * 256 + b3) mod 256) with b3 by (Z.div_mod_to_equations; lia).
    apply (send_wire _ _ (World _ _ (wire w))).
  - eexists _, _. split; [done|]. unfold tftp_send_error.
    rewrite send_socks, send_files. split; [done|]. left.
    split_and!; try done.
    apply send_wire.
Qed.

Lemma writer_outcomes_witness :
  let c := client_of 512 0 0 0 in
  let payload := take 512 (file_A 100) in
  ∃ ret w',
    PlainChar.handle_writer true c
      (Recv peer (0 :: 3 :: 0 :: 2 :: file_A 100)) writing = Ok (ret, w') ∧
    socks w' = socks writing ∧
    ((ret = -1 ∧ files w' = files writing ∧
      (wire w' = wire writing ∨
       wire w' =
         wire writing ++ [(sock c,
                     [0; 5; 0; 4;
                      69; 120; 112; 101; 99; 116; 101; 100; 32;
                      68; 65; 84; 65; 32; 111; 112; 99; 111; 100; 101; 0])]))
     ∨
     (∃ f,
        same_peer peer (sq c) = true ∧ 0 = 0 ∧ 3 = 3 ∧
        files writing !! fd c = Some f ∧ of_writable f = true ∧
        files w' =
          <[fd c := OFile (of_readable f) true
                      (take (of_pos f) (of_data f) ++ payload
                         ++ drop (of_pos f + length payload)%nat (of_data f))
                      (of_pos f + length payload)%nat]> (files writing) ∧
        (wire w' = wire writing ∨
         wire w' = wire writing ++ [(sock c, [0; 4; 0; 2])]) ∧
        ret = if (length payload =? 512)%nat then 1 else 0)).
Proof.
  apply (writer_outcomes true (client_of 512 0 0 0) peer 0 3 0 2
           (file_A 100) writing); first [lia | by (right; split)].
Defined.

(** The writer does not look at block numbers: two Data packets from the
    peer, whatever their numbers, are written one after the other in the
    order of arrival. *)
Theorem writer_appends_in_arrival_order
    c a0 a1 a2 a3 p1 b0 b1 b2 b3 p2 w f :
  Z.lor (Z.shiftl a0 8) a1 = OP_DATA →
  Z.lor (Z.shiftl b0 8) b1 = OP_DATA →
  files w !! fd c = Some f → of_writable f = true →
  (of_pos f ≤ length (of_data f))%nat →
  length p1 = 512%nat → (length p2 ≤ 512)%nat →
  ∃ w1 ret w2 f2,
    handle_writer c (Recv (sq c) (a0 :: a1 :: a2 :: a3 :: p1)) w = Ok (1, w1) ∧
    handle_writer c (Recv (sq c) (b0 :: b1 :: b2 :: b3 :: p2)) w1
      = Ok (ret, w2) ∧
    files w2 !! fd c = Some f2 ∧
    of_data f2 =
      take (of_pos f) (of_data f) ++ p1 ++ p2
        ++ drop (of_pos f + 512 + length p2)%nat (of_data f) ∧
    of_pos f2 = (of_pos f + 512 + length p2)%nat.
Proof.
  intros Ha Hb Hf Hw Hpos H1 H2.
  pose proof (handle_writer_data c a0 a1 a2 a3 p1 w f Ha Hf Hw) as Hrun1.
  rewrite (take_ge p1) in Hrun1 by lia. rewrite H1 in Hrun1.
  set (blk1 := uint16_t (Z.lor (Z.shiftl a2 8) a3)) in *.
  pose proof (written_file c blk1 p1 w f Hf Hw) as Hf1.
  set (f1 := OFile (of_readable f) (of_writable f)
               (take (of_pos f) (of_data f) ++ p1
                  ++ drop (of_pos f + length p1)%nat (of_data f))
               (of_pos f + length p1)%nat) in *.
  pose proof (handle_writer_data c b0 b1 b2 b3 p2 (written c blk1 p1 w) f1
                Hb Hf1 Hw) as Hrun2.
  rewrite (take_ge p2) in Hrun2 by lia.
  set (blk2 := uint16_t (Z.lor (Z.shiftl b2 8) b3)) in *.
  pose proof (written_file c blk2 p2 (written c blk1 p1 w) f1 Hf1 Hw) as Hf2.
  eexists _, _, _, _. split; [exact Hrun1|]. split; [exact Hrun2|].
  split; [exact Hf2|]. unfold f1. cbn [of_data of_pos]. rewrite H1.
  split; [|done].
  rewrite (app_assoc (take (of_pos f) (of_data f)) p1).
  rewrite take_app_length'
    by (rewrite length_app, length_take; lia).
  rewrite drop_app_ge by (rewrite length_app, length_take; lia).
  rewrite drop_drop, length_app, length_take, <- !app_assoc.
  do 4 f_equal. lia.
Qed.

Lemma writer_appends_in_arrival_order_witness :
  ∃ w1 ret w2 f2,
    handle_writer (client_of 512 0 0 0)
      (Recv peer (0 :: 3 :: 0 :: 7 :: file_A 512)) writing = Ok (1, w1) ∧
    handle_writer (client_of 512 0 0 0)
      (Recv peer (0 :: 3 :: 0 :: 7 :: replicate 3 66)) w1 = Ok (ret, w2) ∧
    files w2 !! 7 = Some f2 ∧
    of_data f2 =
      take 0 [] ++ file_A 512 ++ replicate 3 66
        ++ drop (0 + 512 + length (replicate 3 66))%nat [] ∧
    of_pos f2 = (0 + 512 + length (replicate 3 66))%nat.
Proof.
  apply (writer_appends_in_arrival_order (client_of 512 0 0 0)
           0 3 0 7 (file_A 512) 0 3 0 7 (replicate 3 66) writing
           (OFile false true [] 0)); try reflexivity; vm_compute; lia.
Defined.

(** ** Descriptors and their owners *)

Lemma same_open_refl w : same_open w w.
Proof. by split. Qed.

Lemma same_open_trans w1 w2 w3 :
  same_open w1 w2 → same_open w2 w3 → same_open w1 w3.
Proof.
  intros [Hs1 Hf1] [Hs2 Hf2]. split; [congruence|].
  intros d. by rewrite Hf2, Hf1.
Qed.

Lemma send_same_open s msg w : same_open w (snd (send s msg w)).
Proof. split; [apply send_socks | by rewrite send_files]. Qed.

Lemma tftp_send_data_same_open c blk off rs w n w' :
  tftp_send_data c blk off rs w = Ok (n, w') → same_open w w'.
Proof.
  unfold tftp_send_data. destruct (PTRDIFF_MAX <? _); [discriminate|].
  destruct (pread _ _ _ _); [|intros [= _ <-]; apply same_open_refl].
  destruct (negb _).
  - destruct (_ >? _); [intros [= _ <-]; apply same_open_refl|].
    intros [= H]. replace w' with (snd (n, w')) by done. rewrite <- H.
    apply send_same_open.
  - intros [= H]. replace w' with (snd (n, w')) by done. rewrite <- H.
    apply send_same_open.
Qed.

(** [tftp_send_data] sends nothing and returns a negative value, or sends
    one datagram to the socket of the client and returns its length: the
    header of the block (the bytes 0 3 and the two bytes of the number),
    then bytes of the file from the offset on, at most [blksize] of them
    and exactly [response_size] when that is not 0. It opens and closes
    nothing. The size of its buffer, [4 + blksize], is one that [malloc]
    serves: [PTRDIFF_MAX] at most. *)
Theorem tftp_send_data_one_block c blk off rs w :
  0 ≤ blksize c → 4 + blksize c < 2 ^ 63 → 0 ≤ rs → 4 + rs < 2 ^ 64 →
  ∃ n w',
    tftp_send_data c blk off rs w = Ok (n, w') ∧
    same_open w w' ∧
    ((n < 0 ∧ wire w' = wire w) ∨
     ∃ f len,
       files w !! fd c = Some f ∧ of_readable f = true ∧
       sock c ∈ socks w ∧
       wire w' = wire w ++ [(sock c,
                             [0; 3; (blk / 256) mod 256; blk mod 256] ++
                             take len (drop (Z.to_nat off) (of_data f)))] ∧
       (len ≤ length (of_data f) - Z.to_nat off)%nat ∧
       n = 4 + Z.of_nat len ∧
       Z.of_nat len ≤ blksize c ∧
       (rs ≠ 0 → Z.of_nat len = rs)).
Proof.
  intros Hb Hb64 Hrs Hrs64. rewrite <- data_header_any.
  destruct (tftp_send_data_cases c blk off rs w Hb Hb64 Hrs Hrs64)
    as (n & w' & Hrun & Hcases).
  exists n, w'. split; [done|].
  split; [by apply (tftp_send_data_same_open c blk off rs w n)|].
  destruct Hcases as [[Hn ->] | (f & len & Hf & -> & Hlen & -> & Hle & Hexact)];
    [by left|].
  right. exists f, len. split_and!; try done.
  - revert Hrun. unfold tftp_send_data, pread. rewrite Hf.
    destruct (PTRDIFF_MAX <? _); [discriminate|].
    destruct (of_readable f); [done|]. simpl. intros [= Hneg _]. lia.
  - revert Hrun. unfold tftp_send_data, pread. rewrite Hf.
    destruct (PTRDIFF_MAX <? _); [discriminate|].
    destruct (of_readable f && _); [|intros [= Hneg _]; lia].
    unfold send. destruct (decide (sock c ∈ socks w)); [done|].
    destruct (negb _); [destruct (_ >? _)|]; intros [= Hneg _];
      unfold EINVAL in *; lia.
Qed.

Lemma tftp_send_data_one_block_witness :
  ∃ n w',
    tftp_send_data (client_of 8 20 2 4) 3 20 4 (reading (file_A 100))
      = Ok (n, w') ∧
    same_open (reading (file_A 100)) w' ∧
    ((n < 0 ∧ wire w' = wire (reading (file_A 100))) ∨
     ∃ f len,
       files (reading (file_A 100)) !! 7 = Some f ∧ of_readable f = true ∧
       5 ∈ socks (reading (file_A 100)) ∧
       wire w' = wire (reading (file_A 100)) ++
              [(5, [0; 3; (3 / 256) mod 256; 3 mod 256]
                     ++ take len (drop (Z.to_nat 20) (of_data f)))] ∧
       (len ≤ length (of_data f) - Z.to_nat 20)%nat ∧
       n = 4 + Z.of_nat len ∧
       Z.of_nat len ≤ 8 ∧
       (4 ≠ 0 → Z.of_nat len = 4)).
Proof.
  apply (tftp_send_data_one_block (client_of 8 20 2 4) 3 20 4
           (reading (file_A 100))); vm_compute; congruence.
Defined.

Lemma reader_window_same_open c last :
  ∀ fuel blk w w', reader_window fuel c last blk w = Ok w' → same_open w w'.
Proof.
  induction fuel as [|fuel IH]; intros blk w w'.
  - simpl. destruct (_ <? _); [discriminate|].
    intros [= <-]. apply same_open_refl.
  - destruct (blk <? size_t (last + wsize c)) eqn:Hcond.
    + rewrite reader_window_step by done. cbv zeta.
      destruct (tftp_send_data _ _ _ _ _) as [[n w1]| |] eqn:Hsend;
        simpl; try discriminate.
      apply tftp_send_data_same_open in Hsend.
      destruct (n <? 0); [intros [= <-]; done|].
      destruct (n =? 0); [intros [= <-]; done|].
      destruct (_ >? _); [intros [= <-]; done|].
      intros H. apply IH in H. by apply (same_open_trans w w1 w').
    + rewrite reader_window_done by done. intros [= <-]. apply same_open_refl.
Qed.

(** The reader opens and closes nothing, whatever it is given. *)
Lemma handle_reader_same_open fuel c d w ret w' :
  handle_reader fuel c d w = Ok (ret, w') → same_open w w'.
Proof.
  unfold handle_reader. destruct d as [e|src data];
    [intros [= _ <-]; apply same_open_refl|].
  destruct (negb _); [intros [= _ <-]; apply same_open_refl|].
  destruct (rd16 _ 0) as [opcode| |]; simpl; try discriminate.
  destruct (opcode =? OP_ERROR).
  { destruct (_ =? _)%nat; [discriminate|].
    intros [= _ <-]; apply same_open_refl. }
  destruct (negb _); [intros [= _ <-]; apply same_open_refl|].
  destruct (rd16 _ 2) as [v| |]; simpl; try discriminate.
  destruct (_ >? _); [intros [= _ <-]; apply same_open_refl|].
  destruct (reader_window _ _ _ _ _) as [w1| |] eqn:Hwin; simpl;
    try discriminate.
  intros [= _ <-]. by apply reader_window_same_open in Hwin.
Qed.

Lemma write_same_open d data w : same_open w (snd (write d data w)).
Proof.
  unfold write. destruct (files w !! d) as [f|] eqn:Hf;
    [|apply same_open_refl].
  destruct (of_writable f); [|apply same_open_refl].
  split; [done|]. intros d'. simpl.
  destruct (decide (d' = d)) as [->|Hne].
  - rewrite lookup_insert_eq, Hf. split; eauto.
  - by rewrite lookup_insert_ne.
Qed.

(** So does the writer. *)
Lemma handle_writer_same_open c d w ret w' :
  handle_writer c d w = Ok (ret, w') → same_open w w'.
Proof.
  unfold handle_writer.
  destruct d as [e|src data]; [intros [= _ <-]; apply same_open_refl|].
  destruct (negb (same_peer _ _)); [intros [= _ <-]; apply same_open_refl|].
  destruct (rd16 _ 0) as [opcode| |]; simpl; try discriminate.
  destruct (negb _).
  - intros [= _ <-]. unfold tftp_send_error. apply send_same_open.
  - destruct (rd16 _ 2) as [v| |]; simpl; try discriminate.
    pose proof (write_same_open (fd c) (drop 4 (take 516 data)) w) as Hw.
    destruct (write _ _ _) as [r w1]. simpl in Hw.
    destruct (r <? 0); intros [= _ <-]; [done|].
    apply (same_open_trans w w1); [done|].
    unfold tftp_send_ack. apply send_same_open.
Qed.

Lemma serve_reader_reaping fuel rfds : reaping (serve_reader fuel rfds).
Proof.
  intros c w kept w'. unfold serve_reader.
  destruct (rfds (sock c)) as [d|];
    [|intros [= <- <-]; exists w; split; [apply same_open_refl | by left]].
  destruct (handle_reader fuel c d w) as [[ret w1]| |] eqn:Hrun; simpl;
    try discriminate.
  apply handle_reader_same_open in Hrun.
  destruct (ret <=? 0); intros [= <- <-]; exists w1; (split; [done|]);
    [by right | by left].
Qed.

Lemma serve_writer_reaping rfds : reaping (serve_writer rfds).
Proof.
  intros c w kept w'. unfold serve_writer.
  destruct (rfds (sock c)) as [d|];
    [|intros [= <- <-]; exists w; split; [apply same_open_refl | by left]].
  destruct (handle_writer c d w) as [[ret w1]| |] eqn:Hrun; simpl;
    try discriminate.
  apply handle_writer_same_open in Hrun.
  destruct (ret <=? 0); intros [= <- <-]; exists w1; (split; [done|]);
    [by right | by left].
Qed.

Lemma close_client_socks c w d :
  d ∈ socks (client_close_and_free c w) ↔ d ∈ socks w ∧ d ≠ sock c ∧ d ≠ fd c.
Proof.
  unfold client_close_and_free, close; simpl.
  rewrite !elem_of_difference, !elem_of_singleton. tauto.
Qed.

Lemma close_client_files c w d :
  is_Some (files (client_close_and_free c w) !! d) ↔
  is_Some (files w !! d) ∧ d ≠ sock c ∧ d ≠ fd c.
Proof.
  unfold client_close_and_free, close; simpl.
  destruct (decide (d = fd c)) as [->|Hfd].
  { rewrite lookup_delete_eq. split; [by intros [? ?]|tauto]. }
  rewrite lookup_delete_ne by done.
  destruct (decide (d = sock c)) as [->|Hs].
  { rewrite lookup_delete_eq. split; [by intros [? ?]|tauto]. }
  rewrite lookup_delete_ne by done. tauto.
Qed.

(** One loop over a registry: the clients that stay are a sublist of the
    registry, and the descriptors that are open afterwards are those that
    were open before, less those of the clients that went. *)
Lemma for_each_client_effect body :
  reaping body →
  ∀ cs w cs' w',
    for_each_client body cs w = Ok (cs', w') →
    ∃ gone,
      cs' ++ gone ≡ₚ cs ∧ cs' `sublist_of` cs ∧
      (∀ d, d ∈ socks w' ↔ d ∈ socks w ∧ d ∉ descriptors gone) ∧
      (∀ d, is_Some (files w' !! d) ↔
            is_Some (files w !! d) ∧ d ∉ descriptors gone).
Proof.
  intros Hbody. induction cs as [|c rest IH]; intros w cs' w'.
  - intros [= <- <-]. exists []. split_and!; try done.
    + intros d. split; [|tauto]. intros H. split; [done|]. apply not_elem_of_nil.
    + intros d. split; [|tauto]. intros H. split; [done|]. apply not_elem_of_nil.
  - simpl. destruct (body c w) as [[kept w1]| |] eqn:Hc; simpl;
      try discriminate.
    destruct (for_each_client body rest w1) as [[rest' w2]| |] eqn:Hrest;
      simpl; try discriminate.
    intros [= <- <-].
    destruct (IH _ _ _ Hrest) as (gone & Hperm & Hsub & Hsocks & Hfiles).
    destruct (Hbody _ _ _ _ Hc) as (w0 & [Hs0 Hf0] & [[-> ->] | [-> ->]]).
    + exists gone. simpl. split_and!.
      * by rewrite Hperm.
      * by apply sublist_skip.
      * intros d. by rewrite Hsocks, Hs0.
      * intros d. by rewrite Hfiles, Hf0.
    + exists (c :: gone). cbn [option_list app]. split_and!.
      * by rewrite <- Permutation_middle, Hperm.
      * by apply sublist_cons.
      * intros d. rewrite Hsocks, close_client_socks, Hs0.
        unfold descriptors. rewrite bind_cons. cbn [app].
        rewrite !not_elem_of_cons. tauto.
      * intros d. rewrite Hfiles, close_client_files, Hf0.
        unfold descriptors. rewrite bind_cons. cbn [app].
        rewrite !not_elem_of_cons. tauto.
Qed.

Lemma descriptors_app l k :
  descriptors (l ++ k) = descriptors l ++ descriptors k.
Proof. apply bind_app. Qed.

Lemma descriptors_elem c cs :
  c ∈ cs → sock c ∈ descriptors cs ∧ fd c ∈ descriptors cs.
Proof.
  intros Hc. unfold descriptors. split; apply list_elem_of_bind; exists c;
    (split; [|done]); rewrite !elem_of_cons; tauto.
Qed.

(** One loop over the clients [cs] of a registry [pre ++ cs ++ post] keeps
    the ownership of the clients that stay and leaves the descriptors of
    those that went closed. *)
Lemma loop_keeps_ownership body cs w cs' w' pre post :
  reaping body →
  for_each_client body cs w = Ok (cs', w') →
  owns (pre ++ cs ++ post) w →
  owns (pre ++ cs' ++ post) w' ∧
  (∀ d, closed d w → closed d w') ∧
  ∀ c, c ∈ cs → c ∉ cs' → closed (sock c) w' ∧ closed (fd c) w'.
Proof.
  intros Hbody Hrun [Hnodup Hopen].
  destruct (for_each_client_effect body Hbody _ _ _ _ Hrun)
    as (gone & Hperm & Hsub & Hsocks & Hfiles).
  assert (HD : descriptors (pre ++ cs ++ post) ≡ₚ
               descriptors gone ++ descriptors (pre ++ cs' ++ post)).
  { rewrite !descriptors_app. unfold descriptors at 2.
    rewrite <- Hperm. fold (descriptors (cs' ++ gone)).
    rewrite descriptors_app. solve_Permutation. }
  rewrite HD in Hnodup. apply NoDup_app in Hnodup as (_ & Hdisj & Hnodup').
  assert (Hclosed : ∀ c, c ∈ gone → closed (sock c) w' ∧ closed (fd c) w').
  { intros c [Hs Hf]%descriptors_elem. unfold closed. split_and!.
    - rewrite Hsocks. tauto.
    - apply eq_None_not_Some. rewrite Hfiles. tauto.
    - rewrite Hsocks. tauto.
    - apply eq_None_not_Some. rewrite Hfiles. tauto. }
  split_and!.
  - split; [done|]. intros c Hc.
    assert (Hc' : c ∈ pre ++ cs ++ post).
    { rewrite !elem_of_app in Hc |- *. rewrite <- Hperm, elem_of_app. tauto. }
    destruct (Hopen c Hc') as [Hs Hf].
    destruct (descriptors_elem c _ Hc) as [Hds Hdf].
    split.
    + apply Hsocks. split; [done|]. intros Hg. by apply (Hdisj _ Hg).
    + apply Hfiles. split; [done|]. intros Hg. by apply (Hdisj _ Hg).
  - intros d [Hs Hf]. split.
    + rewrite Hsocks. tauto.
    + apply eq_None_not_Some. rewrite Hfiles. intros [[x Hx] _]. congruence.
  - intros c Hc Hnot. apply Hclosed.
    rewrite <- Hperm, elem_of_app in Hc. tauto.
Qed.

Lemma for_each_client_keeps body (P : tftp_client → Prop) :
  (∀ c w kept w', P c → body c w = Ok (kept, w') → kept = Some c) →
  ∀ cs w cs' w',
    for_each_client body cs w = Ok (cs', w') →
    ∀ c, c ∈ cs → P c → c ∈ cs'.
Proof.
  intros Hbody. induction cs as [|c0 rest IH]; intros w cs' w' Hrun c Hc HP.
  - by apply elem_of_nil in Hc.
  - simpl in Hrun. destruct (body c0 w) as [[kept w1]| |] eqn:Hc0; simpl in Hrun;
      try discriminate.
    destruct (for_each_client body rest w1) as [[rest' w2]| |] eqn:Hrest;
      simpl in Hrun; try discriminate.
    injection Hrun as <- <-. apply elem_of_app.
    apply elem_of_cons in Hc as [-> | Hc].
    + left. rewrite (Hbody _ _ _ _ HP Hc0). simpl. apply list_elem_of_here.
    + right. by apply (IH _ _ _ Hrest).
Qed.


(** The two client loops of a turn of [main] keep the ownership of
    descriptors: if no descriptor is held twice and every registered client
    has its socket and its file open, the same holds afterwards; the
    registries only lose clients, in order; a client that went has its
    socket and its file closed; a client whose socket was not ready
    stays. *)
Theorem client_loops_keep_ownership fuel rfds sv sv' :
  owns (readers sv ++ writers sv) (os sv) →
  serve_clients fuel rfds sv = Ok sv' →
  owns (readers sv' ++ writers sv') (os sv') ∧
  readers sv' `sublist_of` readers sv ∧
  writers sv' `sublist_of` writers sv ∧
  (∀ c, c ∈ readers sv ++ writers sv → c ∉ readers sv' ++ writers sv' →
        closed (sock c) (os sv') ∧ closed (fd c) (os sv')) ∧
  (∀ c, c ∈ readers sv ++ writers sv → rfds (sock c) = None →
        c ∈ readers sv' ++ writers sv').
Proof.
  intros Howns. unfold serve_clients.
  destruct (for_each_client (serve_writer rfds) (writers sv) (os sv))
    as [[ws w1]| |] eqn:Hws; simpl; try discriminate.
  destruct (for_each_client (serve_reader fuel rfds) (readers sv) w1)
    as [[rs w2]| |] eqn:Hrs; simpl; try discriminate.
  intros [= <-]. simpl.
  destruct (for_each_client_effect _ (serve_writer_reaping rfds) _ _ _ _ Hws)
    as (_ & _ & Hsubw & _).
  destruct (for_each_client_effect _ (serve_reader_reaping fuel rfds) _ _ _ _ Hrs)
    as (_ & _ & Hsubr & _).
  destruct (loop_keeps_ownership _ _ _ _ _ (readers sv) []
              (serve_writer_reaping rfds) Hws) as (Howns1 & _ & Hgone1).
  { by rewrite app_nil_r. }
  rewrite app_nil_r in Howns1.
  destruct (loop_keeps_ownership _ _ _ _ _ [] ws
              (serve_reader_reaping fuel rfds) Hrs) as (Howns2 & Hstay2 & Hgone2).
  { done. }
  split_and!; try done.
  - intros c Hc Hnot. rewrite elem_of_app in Hc, Hnot.
    destruct Hc as [Hr|Hw].
    + apply Hgone2; tauto.
    + destruct (Hgone1 c) as [H1 H2]; [tauto..|]. split; by apply Hstay2.
  - intros c Hc Hidle. rewrite elem_of_app in Hc |- *. destruct Hc as [Hc|Hc].
    + left. apply (for_each_client_keeps (serve_reader fuel rfds)
                     (λ c, rfds (sock c) = None)) with (readers sv) w1 w2;
        try done.
      intros c0 w0 kept w' H0. unfold serve_reader. rewrite H0. congruence.
    + right. apply (for_each_client_keeps (serve_writer rfds)
                      (λ c, rfds (sock c) = None)) with (writers sv) (os sv) w1;
        try done.
      intros c0 w0 kept w' H0. unfold serve_writer. rewrite H0. congruence.
Qed.

Lemma client_loops_keep_ownership_witness :
  let c := client_of 8 20 2 4 in
  let sv := Server [c] [] (reading (file_A 100)) in
  let sv' := Server [] [] (client_close_and_free c (reading (file_A 100))) in
  let rfds := only_5 (Recv peer (ack_packet 3)) in
  owns (readers sv' ++ writers sv') (os sv') ∧
  readers sv' `sublist_of` readers sv ∧
  writers sv' `sublist_of` writers sv ∧
  (∀ c, c ∈ readers sv ++ writers sv → c ∉ readers sv' ++ writers sv' →
        closed (sock c) (os sv') ∧ closed (fd c) (os sv')) ∧
  (∀ c, c ∈ readers sv ++ writers sv → rfds (sock c) = None →
        c ∈ readers sv' ++ writers sv').
Proof.
  apply (client_loops_keep_ownership 2
           (only_5 (Recv peer (ack_packet 3)))
           (Server [client_of 8 20 2 4] [] (reading (file_A 100)))
           (Server [] [] (client_close_and_free (client_of 8 20 2 4)
                            (reading (file_A 100))))).
  - split.
    + change (NoDup [5; 7]). apply NoDup_cons.
      split; [by intros ?%list_elem_of_singleton | apply NoDup_singleton].
    + intros c Hc. apply list_elem_of_singleton in Hc. subst c.
      split; [reflexivity | eexists; reflexivity].
  - vm_compute. reflexivity.
Defined.

(** ** Requests and the ownership of descriptors *)









Lemma owned_is_open cs w d :
  owns cs w → d ∈ descriptors cs → d ∈ socks w ∨ is_Some (files w !! d).
Proof.
  intros [_ Hopen] (c & Hd & Hc)%list_elem_of_bind.
  destruct (Hopen c Hc) as [H1 H2].
  rewrite !elem_of_cons, elem_of_nil in Hd.
  destruct Hd as [-> | [-> | []]]; [by left | by right].
Qed.

Lemma closed_not_owned cs w d : owns cs w → closed d w → d ∉ descriptors cs.
Proof.
  intros Howns [Hs Hf] Hd.
  destruct (owned_is_open cs w d Howns Hd) as [H | [x Hx]]; [done | congruence].
Qed.



Lemma reap_if_reaping cond : reaping (reap_if cond).
Proof.
  intros c w kept w'. unfold reap_if. exists w. split; [apply same_open_refl|].
  destruct (cond c); injection H as <- <-; [by right | by left].
Qed.

Lemma for_each_client_cons body c rest w :
  for_each_client body (c :: rest) w =
    '(kept, w1) ← body c w;
    '(rest', w2) ← for_each_client body rest w1;
    Ok (option_list kept ++ rest', w2).
Proof. reflexivity. Qed.

Lemma bind_Ok {A B} (f : A → result B) (x : A) : Ok x ≫= f = f x.
Proof. reflexivity. Qed.

Lemma reap_if_eq cond c w :
  reap_if cond c w =
    Ok (if cond c then (None, client_close_and_free c w) else (Some c, w)).
Proof. reflexivity. Qed.

Lemma for_each_reap_if cond :
  ∀ cs w, ∃ w',
    for_each_client (reap_if cond) cs w
      = Ok (filter (λ c, cond c = false) cs, w') ∧
    wire w' = wire w.
Proof.
  induction cs as [|c rest IH]; intros w; [by exists w|].
  rewrite for_each_client_cons, reap_if_eq.
  destruct (cond c) eqn:Hc; rewrite bind_Ok.
  - destruct (IH (client_close_and_free c w)) as (w' & -> & Hwire).
    exists w'. rewrite bind_Ok, filter_cons_False by congruence. by split.
  - destruct (IH w) as (w' & -> & Hwire).
    exists w'. rewrite bind_Ok, filter_cons_True by done. by split.
Qed.

(** ** Control messages *)

(** A BYE of a node closes the writers of that node and no other writer,
    keeps the order of those that stay, sends nothing, and leaves every
    reader registered, those of the node too. *)
Theorem bye_closes_the_writers_of_the_node src sv :
  ∃ ws w',
    serve_control (Decoded QRTR_TYPE_BYE) src sv
      = Ok (Continue (Server (readers sv) ws w')) ∧
    ws `sublist_of` writers sv ∧
    (∀ c, c ∈ ws ↔ c ∈ writers sv ∧ sq_node (sq c) ≠ sq_node src) ∧
    wire w' = wire (os sv) ∧
    (∀ c, c ∈ writers sv → sq_node (sq c) = sq_node src →
          (sock c ∉ socks w') ∧ files w' !! fd c = None).
Proof.
  destruct (for_each_reap_if (λ c, sq_node (sq c) =? sq_node src)
              (writers sv) (os sv)) as (w' & Hrun & Hwire).
  eexists _, w'. unfold serve_control. rewrite Hrun. simpl.
  split; [done|]. split_and!.
  - apply sublist_filter.
  - intros c. rewrite list_elem_of_filter, Z.eqb_neq. tauto.
  - done.
  - intros c Hc Hnode.
    destruct (for_each_client_effect _ (reap_if_reaping _) _ _ _ _ Hrun)
      as (gone & Hperm & _ & Hs & Hf).
    assert (Hgone : c ∈ gone).
    { rewrite <- Hperm, elem_of_app in Hc. destruct Hc as [Hc|Hc]; [|done].
      apply list_elem_of_filter in Hc as [Hc _].
      apply Z.eqb_neq in Hc. done. }
    apply descriptors_elem in Hgone as [H1 H2]. split.
    + rewrite Hs. tauto.
    + apply eq_None_not_Some. rewrite Hf. tauto.
Qed.

Lemma for_each_reap_nobody cond :
  ∀ cs w, (∀ c, c ∈ cs → cond c = false) →
          for_each_client (reap_if cond) cs w = Ok (cs, w).
Proof.
  induction cs as [|c rest IH]; intros w Hall; [done|].
  rewrite for_each_client_cons, reap_if_eq.
  rewrite (Hall c) by apply list_elem_of_here. rewrite bind_Ok.
  rewrite IH; [done|]. intros c0 Hc0. by apply Hall, list_elem_of_further.
Qed.

(** A DEL_CLIENT closes no client: the address the writers are compared
    with is the source of the control message, whose port is the control
    port, and no client is registered under that port. *)
Theorem del_client_closes_nobody ctrl sys src data sv :
  sq_port src = ctrl →
  no_control_client ctrl (writers sv) →
  serve_service ctrl sys (Decoded QRTR_TYPE_DEL_CLIENT) (Recv src data) sv
    = Ok (Continue sv).
Proof.
  intros Hport Hno. unfold serve_service.
  rewrite (proj2 (Z.eqb_eq _ _) Hport). unfold serve_control.
  rewrite for_each_reap_nobody.
  - simpl. by destruct sv.
  - intros c Hc. unfold same_peer. apply andb_false_iff. right.
    apply Z.eqb_neq. rewrite Hport. by apply Hno.
Qed.

Lemma del_client_closes_nobody_witness :
  serve_service 4294967294 calls_no_file (Decoded QRTR_TYPE_DEL_CLIENT)
    (Recv (SockAddr 1 4294967294) []) (Server [] [client_of 512 0 0 0] writing)
  = Ok (Continue (Server [] [client_of 512 0 0 0] writing)).
Proof.
  apply (del_client_closes_nobody 4294967294 calls_no_file
           (SockAddr 1 4294967294) [] (Server [] [client_of 512 0 0 0] writing)).
  - reflexivity.
  - intros c Hc. apply list_elem_of_singleton in Hc. subst c.
    vm_compute. congruence.
Defined.

(** ** A turn of the loop of [main] *)







(** ** Descriptors that nobody owns *)

(** A descriptor that no registered client holds is not closed by the
    client loops of [main], nor by a control message: if it is open, it
    stays open. *)
Theorem unowned_descriptor_stays_open fuel rfds dec src sv sv1 sv2 d :
  d ∉ descriptors (readers sv ++ writers sv) →
  serve_clients fuel rfds sv = Ok sv1 →
  serve_control dec src sv1 = Ok (Continue sv2) →
  (d ∈ socks (os sv) → d ∈ socks (os sv1) ∧ d ∈ socks (os sv2)) ∧
  (is_Some (files (os sv) !! d) →
   is_Some (files (os sv1) !! d) ∧ is_Some (files (os sv2) !! d)).
Proof.
  intros Hd. rewrite descriptors_app, not_elem_of_app in Hd.
  destruct Hd as [Hdr Hdw].
  assert (Hgone : ∀ cs cs' gone, cs' ++ gone ≡ₚ cs →
                    d ∉ descriptors cs → d ∉ descriptors gone).
  { intros cs cs' gone Hperm Hn Hg. apply Hn.
    unfold descriptors. rewrite <- Hperm. fold (descriptors (cs' ++ gone)).
    rewrite descriptors_app, elem_of_app. tauto. }
  assert (Hsub : ∀ cs cs', cs' `sublist_of` cs →
                   d ∉ descriptors cs → d ∉ descriptors cs').
  { intros cs cs' Hs Hn (c & Hc1 & Hc2)%list_elem_of_bind. apply Hn.
    apply list_elem_of_bind. exists c. split; [done|].
    by apply (elem_of_sublist cs'). }
  unfold serve_clients.
  destruct (for_each_client (serve_writer rfds) (writers sv) (os sv))
    as [[ws w1]| |] eqn:Hws; simpl; try discriminate.
  destruct (for_each_client (serve_reader fuel rfds) (readers sv) w1)
    as [[rs w2]| |] eqn:Hrs; simpl; try discriminate.
  intros [= <-].
  destruct (for_each_client_effect _ (serve_writer_reaping rfds) _ _ _ _ Hws)
    as (gone1 & Hp1 & Hsub1 & Hs1 & Hf1).
  destruct (for_each_client_effect _ (serve_reader_reaping fuel rfds) _ _ _ _ Hrs)
    as (gone2 & Hp2 & Hsub2 & Hs2 & Hf2).
  pose proof (Hgone _ _ _ Hp1 Hdw) as Hg1.
  pose proof (Hgone _ _ _ Hp2 Hdr) as Hg2.
  pose proof (Hsub _ _ Hsub1 Hdw) as Hdw'.
  assert (Hctl : ∀ w3 ws3 cond,
            for_each_client (reap_if cond) ws w2 = Ok (ws3, w3) →
            (d ∈ socks w3 ↔ d ∈ socks w2) ∧
            (is_Some (files w3 !! d) ↔ is_Some (files w2 !! d))).
  { intros w3 ws3 cond Hrun.
    destruct (for_each_client_effect _ (reap_if_reaping cond) _ _ _ _ Hrun)
      as (gone3 & Hp3 & _ & Hs3 & Hf3).
    pose proof (Hgone _ _ _ Hp3 Hdw') as Hg3.
    rewrite Hs3, Hf3. tauto. }
  unfold serve_control. simpl.
  destruct dec as [ret|[| |]]; try discriminate.
  - destruct (for_each_client _ ws w2) as [[ws3 w3]| |] eqn:Hrun; simpl;
      try discriminate.
    intros [= <-]. simpl. destruct (Hctl _ _ _ Hrun) as [H1 H2].
    rewrite H1, H2, Hs2, Hf2, Hs1, Hf1. tauto.
  - destruct (for_each_client _ ws w2) as [[ws3 w3]| |] eqn:Hrun; simpl;
      try discriminate.
    intros [= <-]. simpl. destruct (Hctl _ _ _ Hrun) as [H1 H2].
    rewrite H1, H2, Hs2, Hf2, Hs1, Hf1. tauto.
  - intros [= <-]. simpl. rewrite Hs2, Hf2, Hs1, Hf1. tauto.
Qed.

Lemma unowned_descriptor_stays_open_witness :
  let c := client_of 8 20 2 4 in
  let w := open_socket 9 (reading (file_A 100)) in
  let sv := Server [c] [] w in
  let sv1 := Server [] [] (client_close_and_free c w) in
  (9 ∈ socks (os sv) → 9 ∈ socks (os sv1) ∧ 9 ∈ socks (os sv1)) ∧
  (is_Some (files (os sv) !! 9) →
   is_Some (files (os sv1) !! 9) ∧ is_Some (files (os sv1) !! 9)).
Proof.
  apply (unowned_descriptor_stays_open 2
           (only_5 (Recv peer (ack_packet 3))) (Decoded QRTR_TYPE_BYE) peer
           (Server [client_of 8 20 2 4] []
              (open_socket 9 (reading (file_A 100))))).
  - change (9 ∉ [5; 7]). intros H.
    repeat (apply elem_of_cons in H as [H|H]; [discriminate|]).
    by apply elem_of_nil in H.
  - vm_compute. reflexivity.
  - vm_compute. reflexivity.
Defined.

(** A read request that fails after its socket was created (the connect
    fails, or the file cannot be opened) returns without closing the
    socket and without registering a client: the socket is left open and
    no client holds it. *)
Theorem failed_rrq_leaves_its_socket_open sys buf src sv filename mode p r :
  request_strings buf = Ok (filename, mode, p) →
  strcasecmp_eq mode "octet" = true →
  request_opts p = Ok r →
  owns (readers sv ++ writers sv) (os sv) →
  closed (qrtr_open sys) (os sv) →
  0 ≤ qrtr_open sys →
  connect sys < 0 ∨ translate_open sys filename O_RDONLY < 0 →
  ∃ w', handle_rrq sys buf src (readers sv) (os sv) = Ok (readers sv, w') ∧
        qrtr_open sys ∈ socks w' ∧
        qrtr_open sys ∉ descriptors (readers sv ++ writers sv).
Proof.
  intros Hstr Hmode Hopts Howns Hclosed Hsock Hfail.
  pose proof (closed_not_owned _ _ _ Howns Hclosed) as Hnot.
  unfold handle_rrq. rewrite Hstr. simpl. rewrite Hmode. simpl.
  rewrite Hopts. destruct r as [do_oack o]. simpl.
  destruct (qrtr_open sys <? 0) eqn:Hs; [apply Z.ltb_lt in Hs; lia|].
  destruct (connect sys <? 0) eqn:Hc.
  - eexists. split; [reflexivity|]. split; [|done].
    simpl. set_solver.
  - apply Z.ltb_ge in Hc. destruct Hfail as [Hfail|Hfail]; [lia|].
    apply Z.ltb_lt in Hfail. rewrite Hfail.
    eexists. split; [reflexivity|]. split; [|done].
    unfold tftp_send_error. rewrite send_socks. simpl. set_solver.
Qed.

Lemma failed_rrq_leaves_its_socket_open_witness :
  ∃ w', handle_rrq calls_no_file (request OP_RRQ ["f"; "octet"]%string) peer
          (readers idle) (os idle) = Ok (readers idle, w') ∧
        qrtr_open calls_no_file ∈ socks w' ∧
        qrtr_open calls_no_file ∉ descriptors (readers idle ++ writers idle).
Proof.
  apply (failed_rrq_leaves_its_socket_open calls_no_file
           (request OP_RRQ ["f"; "octet"]%string) peer idle
           (bytes_of_string "f") (bytes_of_string "octet") []
           (false, default_options)).
  - vm_compute. reflexivity.
  - vm_compute. reflexivity.
  - reflexivity.
  - split; [apply NoDup_nil_2 | by intros c Hc%elem_of_nil].
  - split; [apply not_elem_of_empty | reflexivity].
  - vm_compute. congruence.
  - right. vm_compute. reflexivity.
Defined.

(** A write request opens the file first, with [O_CREAT]: when the socket
    cannot be created or connected afterwards, the handler returns with
    the file left open, and no client holds it; no error is sent. *)
Theorem failed_wrq_leaves_its_file_open sys buf src sv filename mode p r :
  request_strings buf = Ok (filename, mode, p) →
  strcasecmp_eq mode "octet" = true →
  request_opts p = Ok r →
  owns (readers sv ++ writers sv) (os sv) →
  closed (translate_open sys filename (Z.lor O_WRONLY O_CREAT)) (os sv) →
  0 ≤ translate_open sys filename (Z.lor O_WRONLY O_CREAT) →
  qrtr_open sys < 0 ∨ connect sys < 0 →
  ∃ w', handle_wrq sys buf src (writers sv) (os sv) = Ok (writers sv, w') ∧
        is_Some (files w' !! translate_open sys filename (Z.lor O_WRONLY O_CREAT)) ∧
        (translate_open sys filename (Z.lor O_WRONLY O_CREAT)
           ∉ descriptors (readers sv ++ writers sv)) ∧
        wire w' = wire (os sv).
Proof.
  intros Hstr Hmode Hopts Howns Hclosed Hfile Hfail.
  pose proof (closed_not_owned _ _ _ Howns Hclosed) as Hnot.
  unfold handle_wrq. rewrite Hstr. simpl. rewrite Hmode. simpl.
  rewrite Hopts. destruct r as [do_oack o]. simpl.
  destruct (translate_open sys filename (Z.lor O_WRONLY O_CREAT) <? 0) eqn:Hd;
    [apply Z.ltb_lt in Hd; lia|].
  destruct (qrtr_open sys <? 0) eqn:Hs.
  - eexists. split; [reflexivity|]. split_and!; [|done..].
    simpl. rewrite lookup_insert_eq. by eexists.
  - apply Z.ltb_ge in Hs. destruct Hfail as [Hfail|Hfail]; [lia|].
    apply Z.ltb_lt in Hfail. rewrite Hfail.
    eexists. split; [reflexivity|]. split_and!; [|done..].
    simpl. rewrite lookup_insert_eq. by eexists.
Qed.

Lemma failed_wrq_leaves_its_file_open_witness :
  let sys := {| qrtr_open := -1; connect := 0; translate_open := λ _ _, 7;
                file_contents := [] |} in
  ∃ w', handle_wrq sys (request OP_WRQ ["f"; "octet"]%string) peer
          (writers idle) (os idle) = Ok (writers idle, w') ∧
        is_Some (files w' !! 7) ∧
        (7 ∉ descriptors (readers idle ++ writers idle)) ∧
        wire w' = wire (os idle).
Proof.
  apply (failed_wrq_leaves_its_file_open
           {| qrtr_open := -1; connect := 0; translate_open := λ _ _, 7;
              file_contents := [] |}
           (request OP_WRQ ["f"; "octet"]%string) peer idle
           (bytes_of_string "f") (bytes_of_string "octet") []
           (false, default_options)).
  - vm_compute. reflexivity.
  - vm_compute. reflexivity.
  - reflexivity.
  - split; [apply NoDup_nil_2 | by intros c Hc%elem_of_nil].
  - split; [apply not_elem_of_empty | reflexivity].
  - vm_compute. congruence.
  - left. vm_compute. reflexivity.
Defined.

(** ** Requests without options, and options *)

(** A read request without options is answered at once with block 1: the
    first 512 bytes of the file, or the whole file when it is shorter; the
    client is registered with the defaults. *)
Theorem rrq_without_options_sends_block_1 sys buf src reg w filename mode :
  request_strings buf = Ok (filename, mode, []) →
  strcasecmp_eq mode "octet" = true →
  0 ≤ qrtr_open sys → 0 ≤ connect sys →
  0 ≤ translate_open sys filename O_RDONLY →
  handle_rrq sys buf src reg w =
    Ok (reg ++ [Client src (qrtr_open sys)
                  (translate_open sys filename O_RDONLY) 0 512 0 0 1000 0],
        pushes (open_file (translate_open sys filename O_RDONLY)
                  (OFile true false (file_contents sys) 0)
                  (open_socket (qrtr_open sys) w))
          [(qrtr_open sys, data_header 1 ++ take 512 (file_contents sys))]).
Proof.
  intros Hstr Hmode Hs Hc Hd.
  unfold handle_rrq. rewrite Hstr. simpl. rewrite Hmode. simpl.
  apply Z.ltb_ge in Hs, Hc, Hd. rewrite Hs, Hc, Hd.
  unfold register_client, tftp_send_data, pread. simpl.
  rewrite lookup_insert_eq. simpl.
  unfold send. simpl. rewrite decide_True by set_solver.
  reflexivity.
Qed.

Lemma rrq_without_options_sends_block_1_witness :
  handle_rrq (calls_ok (file_A 600)) (request OP_RRQ ["f"; "octet"]%string)
    peer [] (World ∅ ∅ []) =
    Ok ([] ++ [Client peer 5 7 0 512 0 0 1000 0],
        pushes (open_file 7 (OFile true false (file_A 600) 0)
                  (open_socket 5 (World ∅ ∅ [])))
          [(5, data_header 1 ++ take 512 (file_A 600))]).
Proof.
  apply (rrq_without_options_sends_block_1 (calls_ok (file_A 600))
           (request OP_RRQ ["f"; "octet"]%string) peer [] (World ∅ ∅ [])
           (bytes_of_string "f") (bytes_of_string "octet")).
  - vm_compute. reflexivity.
  - vm_compute. reflexivity.
  - vm_compute. congruence.
  - vm_compute. congruence.
  - vm_compute. congruence.
Defined.

(** A write request without options registers the client and sends
    nothing: the handler calls [tftp_send_data], whose read of the file,
    opened for writing only, fails. The peer gets no acknowledgement of
    its request. *)
Theorem wrq_without_options_sends_nothing sys buf src reg w filename mode :
  request_strings buf = Ok (filename, mode, []) →
  strcasecmp_eq mode "octet" = true →
  0 ≤ qrtr_open sys → 0 ≤ connect sys →
  0 ≤ translate_open sys filename (Z.lor O_WRONLY O_CREAT) →
  ∃ w', handle_wrq sys buf src reg w =
          Ok (reg ++ [Client src (qrtr_open sys)
                        (translate_open sys filename (Z.lor O_WRONLY O_CREAT))
                        0 512 0 0 1000 0], w') ∧
        wire w' = wire w.
Proof.
  intros Hstr Hmode Hs Hc Hd.
  unfold handle_wrq. rewrite Hstr. simpl. rewrite Hmode. simpl.
  apply Z.ltb_ge in Hs, Hc, Hd. rewrite Hs, Hc, Hd.
  unfold register_client, tftp_send_data, pread. simpl.
  rewrite lookup_insert_eq. simpl.
  eexists. split; reflexivity.
Qed.

Lemma wrq_without_options_sends_nothing_witness :
  ∃ w', handle_wrq (calls_ok []) (request OP_WRQ ["f"; "octet"]%string)
          peer [] (World ∅ ∅ []) =
          Ok ([] ++ [Client peer 5 7 0 512 0 0 1000 0], w') ∧
        wire w' = wire (World ∅ ∅ []).
Proof.
  apply (wrq_without_options_sends_nothing (calls_ok [])
           (request OP_WRQ ["f"; "octet"]%string) peer [] (World ∅ ∅ [])
           (bytes_of_string "f") (bytes_of_string "octet")).
  - vm_compute. reflexivity.
  - vm_compute. reflexivity.
  - vm_compute. congruence.
  - vm_compute. congruence.
  - vm_compute. congruence.
Defined.

Lemma cstring_app s rest :
  c_string s → cstring (s ++ 0 :: rest) = Some (s, rest).
Proof.
  induction 1 as [|b s Hb _ IH]; simpl; [done|].
  destruct (b =? 0) eqn:E; [apply Z.eqb_eq in E; done|].
  by rewrite IH.
Qed.

Lemma request_options_step k v rest :
  c_string k → c_string v →
  request_options (k ++ 0 :: v ++ 0 :: rest) =
    l ← request_options rest; Ok ((k, v) :: l).
Proof.
  intros Hk Hv.
  pose proof (cstring_app k (v ++ 0 :: rest) Hk) as H1.
  pose proof (cstring_app v rest Hv) as H2.
  destruct (k ++ 0 :: v ++ 0 :: rest) as [|b bs] eqn:E.
  { by destruct k. }
  rewrite request_options_cons, H1, H2. by destruct (request_options rest).
Qed.

Lemma parse_options_step k v rest o :
  c_string k → c_string v →
  parse_options (k ++ 0 :: v ++ 0 :: rest) o =
    parse_options rest (set_option o k v).
Proof.
  intros Hk Hv.
  pose proof (cstring_app k (v ++ 0 :: rest) Hk) as H1.
  pose proof (cstring_app v rest Hv) as H2.
  destruct (k ++ 0 :: v ++ 0 :: rest) as [|b bs] eqn:E.
  { by destruct k. }
  by rewrite parse_options_cons, H1, H2.
Qed.

Lemma encode_options_cons k v pairs :
  encode_options ((k, v) :: pairs) = k ++ 0 :: v ++ 0 :: encode_options pairs.
Proof.
  unfold encode_options. rewrite fmap_cons. simpl.
  rewrite <- !app_assoc. simpl. rewrite <- app_assoc. reflexivity.
Qed.

Lemma parse_options_encoded pairs :
  Forall (λ kv, c_string kv.1 ∧ c_string kv.2) pairs →
  ∀ o, parse_options (encode_options pairs) o = Ok (apply_options pairs o).
Proof.
  induction 1 as [|[k v] pairs [Hk Hv] _ IH]; intros o.
  - by simp parse_options.
  - rewrite encode_options_cons. simpl in Hk, Hv.
    rewrite parse_options_step by done. apply IH.
Qed.

(** The options a peer writes into a request, each name and each value
    closed by a NUL, are the ones [parse_options] takes out of it, in
    order: the option variables end as the body of its loop leaves them
    after the pairs in turn. Names and values are any bytes but NUL; an
    empty name or value is read as such. *)
Theorem encoded_options_are_read_back pairs o :
  Forall (λ kv, c_string kv.1 ∧ c_string kv.2) pairs →
  request_options (encode_options pairs) = Ok pairs ∧
  parse_options (encode_options pairs) o = Ok (apply_options pairs o).
Proof.
  intros Hpairs. split; [|by apply parse_options_encoded].
  induction Hpairs as [|[k v] pairs [Hk Hv] _ IH].
  - by simp request_options.
  - rewrite encode_options_cons. simpl in Hk, Hv.
    rewrite request_options_step by done. by rewrite IH.
Qed.

Lemma encoded_options_are_read_back_witness :
  let pairs := [(bytes_of_string "rsize", bytes_of_string "16");
                (bytes_of_string "x", [])] in
  request_options (encode_options pairs) = Ok pairs ∧
  parse_options (encode_options pairs) default_options
    = Ok (apply_options pairs default_options).
Proof.
  apply (encoded_options_are_read_back
           [(bytes_of_string "rsize", bytes_of_string "16");
            (bytes_of_string "x", [])] default_options).
  repeat (apply Forall_cons; split;
          [split; simpl; repeat (apply Forall_cons; split; [done|]);
           apply Forall_nil_2|]).
  apply Forall_nil_2.
Defined.

Lemma set_option_twice o k v v' :
  set_option (set_option o k v) k v' = set_option o k v'.
Proof.
  unfold set_option, strcmp_eq. repeat case_bool_decide; reflexivity.
Qed.

Lemma set_option_comm o k v k' v' :
  k ≠ k' →
  set_option (set_option o k v) k' v' = set_option (set_option o k' v') k v.
Proof.
  intros Hne. unfold set_option, strcmp_eq.
  repeat case_bool_decide; try reflexivity; congruence.
Qed.

Lemma apply_options_app l1 l2 o :
  apply_options (l1 ++ l2) o = apply_options l2 (apply_options l1 o).
Proof. unfold apply_options. apply foldl_app. Qed.

(** An option that a request gives again further on has no effect where
    it stands first: every occurrence of a name overwrites the variable
    that the one before had set, so the last occurrence is the one
    that counts. *)
Theorem repeated_option_is_overridden l1 l2 k v o :
  k ∈ l2.*1 →
  apply_options (l1 ++ (k, v) :: l2) o = apply_options (l1 ++ l2) o.
Proof.
  intros Hk. rewrite !apply_options_app.
  generalize (apply_options l1 o). clear o l1.
  induction l2 as [|[k' v'] l2 IH]; intros o.
  { by apply elem_of_nil in Hk. }
  change (apply_options ((k, v) :: (k', v') :: l2) o)
    with (apply_options l2 (set_option (set_option o k v) k' v')).
  change (apply_options ((k', v') :: l2) o)
    with (apply_options l2 (set_option o k' v')).
  destruct (decide (k = k')) as [<-|Hne].
  - by rewrite set_option_twice.
  - rewrite fmap_cons in Hk. apply elem_of_cons in Hk as [Hk|Hk]; [done|].
    rewrite set_option_comm by done.
    apply (IH Hk (set_option o k' v')).
Qed.

Lemma repeated_option_is_overridden_witness :
  apply_options ([] ++ (bytes_of_string "blksize", bytes_of_string "8")
                    :: [(bytes_of_string "blksize", bytes_of_string "1024")])
    default_options =
  apply_options ([] ++ [(bytes_of_string "blksize", bytes_of_string "1024")])
    default_options.
Proof.
  apply (repeated_option_is_overridden []
           [(bytes_of_string "blksize", bytes_of_string "1024")]
           (bytes_of_string "blksize") (bytes_of_string "8") default_options).
  apply list_elem_of_here.
Defined.




(** ** What the reader remembers *)

Lemma send_answers s msg w :
  ∃ msgs, answers (λ w, Ok (send s msg w)) w (send s msg w).1 msgs.
Proof.
  unfold answers, send. destruct (decide (s ∈ socks w)) as [Hs|Hs].
  - exists [(s, msg)]. split; [done|]. intros w2 _ Hs2.
    rewrite decide_True by (by rewrite Hs2). done.
  - exists []. split; [by rewrite pushes_nil|]. intros w2 _ Hs2.
    rewrite decide_False by (by rewrite Hs2). by rewrite pushes_nil.
Qed.

Lemma tftp_send_data_answers c blk off rs w n w' :
  tftp_send_data c blk off rs w = Ok (n, w') →
  ∃ msgs, w' = pushes w msgs ∧ answers (tftp_send_data c blk off rs) w n msgs.
Proof.
  intros Hrun.
  assert (Hnone : ∀ r, tftp_send_data c blk off rs w = Ok (r, w) →
            (∀ w2, files w2 = files w →
                   tftp_send_data c blk off rs w2 = Ok (r, w2)) →
            n = r → w' = w →
            ∃ msgs, w' = pushes w msgs ∧
                    answers (tftp_send_data c blk off rs) w n msgs).
  { intros r Hr Hother -> ->. exists []. rewrite pushes_nil.
    split; [done|]. split; [by rewrite pushes_nil|].
    intros w2 Hf2 _. rewrite pushes_nil. by apply Hother. }
  revert Hrun Hnone. unfold answers, tftp_send_data, pread.
  destruct (PTRDIFF_MAX <? 4 + blksize c); [discriminate|].
  destruct (files w !! fd c) as [f|] eqn:Hf.
  2:{ intros [= <- <-] Hnone. apply (Hnone (-1)); try done.
      intros w2 ->. by rewrite Hf. }
  destruct (of_readable f && (0 <=? off_t off)) eqn:Hread.
  2:{ intros [= <- <-] Hnone. apply (Hnone (-1)); try done.
      intros w2 ->. by rewrite Hf, Hread. }
  assert (Hsend : ∀ msg, Ok (send (sock c) msg w) = Ok (n, w') →
            ∃ msgs, w' = pushes w msgs ∧
              Ok (send (sock c) msg w) = Ok (n, pushes w msgs) ∧
              ∀ w2, files w2 = files w → socks w2 = socks w →
                    Ok (send (sock c) msg w2) = Ok (n, pushes w2 msgs)).
  { intros msg Hmsg.
    destruct (send_answers (sock c) msg w) as (msgs & H1 & H2).
    rewrite H1 in Hmsg. simpl in *. injection Hmsg as <- <-.
    exists msgs. split; [done|]. split; [by rewrite H1|].
    intros w2 Hf2 Hs2. rewrite (H2 w2 Hf2 Hs2).
    simpl. done. }
  destruct (negb (rs =? 0)).
  - destruct (size_t (4 + rs) >? _) eqn:Hlen.
    + intros [= <- <-] Hnone. apply (Hnone (- EINVAL)); try done.
      intros w2 ->. by rewrite Hf, Hread, Hlen.
    + intros Hrun _. destruct (Hsend _ Hrun) as (msgs & -> & H1 & H2).
      exists msgs. split; [done|]. split; [done|].
      intros w2 Hf2 Hs2. rewrite Hf2, Hf, Hread, Hlen. by apply H2.
  - intros Hrun _. destruct (Hsend _ Hrun) as (msgs & -> & H1 & H2).
    exists msgs. split; [done|]. split; [done|].
    intros w2 Hf2 Hs2. rewrite Hf2, Hf, Hread. by apply H2.
Qed.

Lemma reader_window_answers c last :
  ∀ fuel blk w w',
    reader_window fuel c last blk w = Ok w' →
    ∃ msgs, w' = pushes w msgs ∧
      ∀ w2, files w2 = files w → socks w2 = socks w →
            reader_window fuel c last blk w2 = Ok (pushes w2 msgs).
Proof.
  assert (Hstop : ∀ fuel blk w,
            (blk <? size_t (last + wsize c)) = false →
            ∃ msgs, w = pushes w msgs ∧
              ∀ w2, files w2 = files w → socks w2 = socks w →
                    reader_window fuel c last blk w2 = Ok (pushes w2 msgs)).
  { intros fuel blk w Hcond. exists []. split; [by rewrite pushes_nil|].
    intros w2 _ _. by rewrite pushes_nil, reader_window_done. }
  induction fuel as [|fuel IH]; intros blk w w'.
  - destruct (blk <? size_t (last + wsize c)) eqn:Hcond.
    + simpl. by rewrite Hcond.
    + rewrite reader_window_done by done. intros [= <-]. by apply Hstop.
  - destruct (blk <? size_t (last + wsize c)) eqn:Hcond.
    2:{ rewrite reader_window_done by done. intros [= <-]. by apply Hstop. }
    intros Hrun. rewrite reader_window_step in Hrun by done. cbv zeta in Hrun.
    destruct (tftp_send_data _ _ _ _ _) as [[n w1]| |] eqn:Hsend;
      simpl in Hrun; try discriminate.
    destruct (tftp_send_data_answers _ _ _ _ _ _ _ Hsend)
      as (m1 & -> & _ & Hm1).
    destruct (n <? 0) eqn:Hneg.
    { injection Hrun as <-. exists m1. split; [done|]. intros w2 Hf2 Hs2.
      rewrite reader_window_step by done. cbv zeta.
      rewrite (Hm1 w2 Hf2 Hs2). simpl. by rewrite Hneg. }
    destruct (n =? 0) eqn:Hzero.
    { injection Hrun as <-. exists m1. split; [done|]. intros w2 Hf2 Hs2.
      rewrite reader_window_step by done. cbv zeta.
      rewrite (Hm1 w2 Hf2 Hs2). simpl. by rewrite Hneg, Hzero. }
    destruct (size_t ((blk + 1) * blksize c) >? rsize c) eqn:Hlim.
    { injection Hrun as <-. exists m1. split; [done|]. intros w2 Hf2 Hs2.
      rewrite reader_window_step by done. cbv zeta.
      rewrite Hlim.
      rewrite (Hm1 w2 Hf2 Hs2). simpl. by rewrite Hneg, Hzero. }
    destruct (IH _ _ _ Hrun) as (m2 & -> & Hm2).
    exists (m1 ++ m2). split; [by rewrite pushes_pushes|].
    intros w2 Hf2 Hs2.
    rewrite reader_window_step by done. cbv zeta.
    rewrite Hlim. rewrite (Hm1 w2 Hf2 Hs2). simpl. rewrite Hneg, Hzero.
    rewrite <- pushes_pushes. apply Hm2; simpl; done.
Qed.

(** The reader keeps no record of what it sent: what it answers to a
    datagram depends on the datagram, on the client and on the open file
    only. So an acknowledgement that arrives a second time is answered
    with the same blocks a second time. *)
Theorem reader_answers_a_repeated_ack_again fuel c d w ret w' :
  handle_reader fuel c d w = Ok (ret, w') →
  ∃ msgs,
    w' = pushes w msgs ∧
    handle_reader fuel c d w' = Ok (ret, pushes w' msgs) ∧
    ∀ w2, files w2 = files w → socks w2 = socks w →
          handle_reader fuel c d w2 = Ok (ret, pushes w2 msgs).
Proof.
  intros Hrun.
  cut (∃ msgs, w' = pushes w msgs ∧
         ∀ w2, files w2 = files w → socks w2 = socks w →
               handle_reader fuel c d w2 = Ok (ret, pushes w2 msgs)).
  { intros (msgs & -> & H). exists msgs. split; [done|]. split; [|done].
    by apply H. }
  assert (Hnone : (∀ w2, handle_reader fuel c d w2 = Ok (ret, w2)) → w' = w →
            ∃ msgs, w' = pushes w msgs ∧
              ∀ w2, files w2 = files w → socks w2 = socks w →
                    handle_reader fuel c d w2 = Ok (ret, pushes w2 msgs)).
  { intros H ->. exists []. split; [by rewrite pushes_nil|].
    intros w2 _ _. by rewrite pushes_nil. }
  revert Hrun Hnone. unfold handle_reader.
  destruct d as [e|src data]; [intros [= <- <-] H; by apply H|].
  destruct (negb (same_peer _ _)); [intros [= <- <-] H; by apply H|].
  destruct (rd16 _ 0) as [opcode| |]; simpl; try discriminate.
  destruct (opcode =? OP_ERROR).
  { destruct (_ =? _)%nat; [discriminate|]. intros [= <- <-] H; by apply H. }
  destruct (negb _); [intros [= <- <-] H; by apply H|].
  destruct (rd16 _ 2) as [v| |]; simpl; try discriminate.
  destruct (_ >? _); [intros [= <- <-] H; by apply H|].
  destruct (reader_window _ _ _ _ _) as [w1| |] eqn:Hwin; simpl;
    try discriminate.
  intros [= <- <-] _.
  destruct (reader_window_answers _ _ _ _ _ _ Hwin) as (msgs & -> & H).
  exists msgs. split; [done|]. intros w2 Hf2 Hs2.
  by rewrite (H w2 Hf2 Hs2).
Qed.

Lemma reader_answers_a_repeated_ack_again_witness :
  let c := client_of 8 20 2 4 in
  let d := Recv peer (ack_packet 1) in
  let w := reading (file_A 100) in
  let w' := pushes w (data_blocks c (file_A 100) 1 2) in
  ∃ msgs,
    w' = pushes w msgs ∧
    handle_reader 2 c d w' = Ok (1, pushes w' msgs) ∧
    ∀ w2, files w2 = files w → socks w2 = socks w →
          handle_reader 2 c d w2 = Ok (1, pushes w2 msgs).
Proof.
  apply (reader_answers_a_repeated_ack_again 2 (client_of 8 20 2 4)
           (Recv peer (ack_packet 1)) (reading (file_A 100)) 1
           (pushes (reading (file_A 100))
              (data_blocks (client_of 8 20 2 4) (file_A 100) 1 2))).
  vm_compute. reflexivity.
Defined.

(** ** The bytes of a window *)

(** In a transfer bounded by [rsize], from a file that holds the bytes
    asked for, Ack(n) is answered with the blocks n+1 to n+wsize, or to
    the block that reaches past [rsize] if that comes first; the byte [j]
    of the payload of block k+1 is the byte [seek + k * blksize + j] of
    the file. Where [char] is signed the two number bytes of the
    acknowledgement are below 0x80. *)
Theorem window_blocks_carry_the_file_bytes sc c data fuel n w :
  0 < blksize c → 4 + blksize c < 2 ^ 63 →
  0 < rsize c → 0 ≤ seek c → 0 < wsize c < 2 ^ 63 →
  seek c + rsize c ≤ Z.of_nat (length data) →
  Z.of_nat (length data) + blksize c < 2 ^ 63 →
  rsize c / blksize c < 65535 →
  serving c data w →
  0 ≤ n ≤ rsize c / blksize c →
  sc = false ∨ (n / 256 < 128 ∧ n mod 256 < 128) →
  (Z.to_nat (wsize c) ≤ fuel)%nat →
  let m := Z.min (wsize c) (rsize c / blksize c + 1 - n) in
  ∃ msgs,
    PlainChar.handle_reader sc fuel c
      (Recv (sq c) [0; 4; n / 256; n mod 256]) w = Ok (1, pushes w msgs) ∧
    Z.of_nat (length msgs) = m ∧
    ∀ (i j : nat),
      Z.of_nat i < m →
      (j < Z.to_nat (block_len c (n + Z.of_nat i)))%nat →
      ∃ msg, msgs !! i = Some (sock c, msg) ∧
             take 4 msg = [0; 3; (n + Z.of_nat i + 1) / 256;
                           (n + Z.of_nat i + 1) mod 256] ∧
             msg !! (4 + j)%nat =
               data !! (Z.to_nat (seek c + (n + Z.of_nat i) * blksize c) + j)%nat.
Proof.
  intros Hb Hb63 Hr Hs Hw Hlong Hno Hfit Hserving Hn Hsign Hfuel m.
  exists (data_blocks c data n m). split_and!.
  - rewrite handle_reader_any_char
      by (by apply (low_block_number sc 4 n [])).
    rewrite <- ack_packet_bytes by lia.
    apply handle_reader_window; try done. subst m. lia.
  - unfold data_blocks. rewrite length_fmap, length_seqZ. subst m. lia.
  - intros i j Hi Hj. exists (data_block c data (n + Z.of_nat i)).
    split_and!.
    + unfold data_blocks. rewrite list_lookup_fmap, lookup_seqZ_lt by lia.
      reflexivity.
    + rewrite <- data_header_bytes by (subst m; lia). reflexivity.
    + unfold data_block.
      change (data_header (n + Z.of_nat i + 1)) with
        ([0; OP_DATA; hi8 (n + Z.of_nat i + 1); lo8 (n + Z.of_nat i + 1)]).
      cbn [app lookup list_lookup Nat.add].
      change (?l !! j = ?r) with (l !! j = r).
      rewrite lookup_take_lt by lia. by rewrite lookup_drop.
Qed.

Lemma window_blocks_carry_the_file_bytes_witness :
  let c := client_of 8 20 2 4 in
  let data := file_A 100 in
  let w := reading data in
  let m := Z.min (wsize c) (rsize c / blksize c + 1 - 1) in
  ∃ msgs,
    PlainChar.handle_reader true 2 c
      (Recv (sq c) [0; 4; 1 / 256; 1 mod 256]) w = Ok (1, pushes w msgs) ∧
    Z.of_nat (length msgs) = m ∧
    ∀ (i j : nat),
      Z.of_nat i < m →
      (j < Z.to_nat (block_len c (1 + Z.of_nat i)))%nat →
      ∃ msg, msgs !! i = Some (sock c, msg) ∧
             take 4 msg = [0; 3; (1 + Z.of_nat i + 1) / 256;
                           (1 + Z.of_nat i + 1) mod 256] ∧
             msg !! (4 + j)%nat =
               data !! (Z.to_nat (seek c + (1 + Z.of_nat i) * blksize c) + j)%nat.
Proof.
  apply (window_blocks_carry_the_file_bytes true (client_of 8 20 2 4)
           (file_A 100) 2 1 (reading (file_A 100)));
    try (vm_compute; congruence).
  - split; reflexivity.
  - split.
    + exists (OFile true false (file_A 100) 0). split_and!; reflexivity.
    + reflexivity.
  - split; vm_compute; congruence.
  - right. split; reflexivity.
  - vm_compute. lia.
Defined.

(** ** Numbers written and read *)

Lemma digits_step acc a s :
  isdigit (Z.of_N (N_of_ascii a)) = true →
  digits acc (bytes_of_string (String a s)) =
    digits (10 * acc + (Z.of_N (N_of_ascii a) - 48)) (bytes_of_string s).
Proof. intros H. simpl. by rewrite H. Qed.

Lemma digits_of_uint_acc d :
  ∀ acc, digits (Z.pos acc) (bytes_of_string (NilEmpty.string_of_uint d))
         = Z.pos (Pos.of_uint_acc d acc).
Proof.
  induction d as [|d IH|d IH|d IH|d IH|d IH|d IH|d IH|d IH|d IH|d IH];
    intros acc; [reflexivity|..];
    cbn [Pos.of_uint_acc NilEmpty.string_of_uint]; rewrite <- IH;
    rewrite digits_step by reflexivity; f_equal; simpl Z.of_N; lia.
Qed.

Lemma digits_of_uint d :
  digits 0 (bytes_of_string (NilEmpty.string_of_uint d))
    = Z.of_N (Pos.of_uint d).
Proof.
  induction d as [|d IH|d IH|d IH|d IH|d IH|d IH|d IH|d IH|d IH|d IH];
    [reflexivity | exact IH | ..];
    apply (digits_of_uint_acc d).
Qed.

Lemma atoi_uint d :
  d ≠ Decimal.Nil →
  atoi (bytes_of_string (NilEmpty.string_of_uint d))
    = int (strtol_range (Z.of_N (Pos.of_uint d))).
Proof.
  intros Hd. rewrite <- digits_of_uint. by destruct d.
Qed.

Lemma strtol_range_small z : - 2 ^ 63 ≤ z < 2 ^ 63 → strtol_range z = z.
Proof. unfold strtol_range, LONG_MAX, LONG_MIN. lia. Qed.

Lemma atoi_decimal z : atoi (decimal z) = int (strtol_range z).
Proof.
  unfold decimal. destruct z as [|p|p]; [reflexivity|..]; simpl Z.to_int.
  - pose proof (DecimalPos.Unsigned.to_uint_nonnil p) as Hnil.
    pose proof (DecimalPos.Unsigned.of_to p) as Hp.
    unfold NilZero.string_of_int, NilZero.string_of_uint.
    destruct (Pos.to_uint p) eqn:E; try done;
      rewrite atoi_uint by done; by rewrite Hp.
  - pose proof (DecimalPos.Unsigned.to_uint_nonnil p) as Hnil.
    pose proof (DecimalPos.Unsigned.of_to p) as Hp.
    unfold NilZero.string_of_int, NilZero.string_of_uint.
    assert (Hneg : ∀ s, atoi (bytes_of_string (String "-" s))
                        = int (strtol_range (- digits 0 (bytes_of_string s))))
      by done.
    destruct (Pos.to_uint p) eqn:E; try done;
      rewrite Hneg, digits_of_uint, Hp; reflexivity.
Qed.

Lemma uint_c_string d : c_string (bytes_of_string (NilEmpty.string_of_uint d)).
Proof.
  induction d; [apply Forall_nil_2|..]; by apply Forall_cons.
Qed.

Lemma decimal_c_string z : c_string (decimal z).
Proof.
  unfold decimal, NilZero.string_of_int, NilZero.string_of_uint.
  destruct (Z.to_int z) as [d|d]; destruct d;
    try apply uint_c_string;
    try (apply Forall_cons; split; [done|]);
    try apply uint_c_string;
    try (apply Forall_cons; split; [done|]); try apply Forall_nil_2.
Qed.

Lemma int_small z : - 2 ^ 31 ≤ z < 2 ^ 31 → int z = z.
Proof. intros Hz. unfold int. rewrite Z.mod_small by lia. lia. Qed.

Lemma atoi_decimal_int z : - 2 ^ 31 ≤ z < 2 ^ 31 → atoi (decimal z) = z.
Proof.
  intros Hz. rewrite atoi_decimal, strtol_range_small by lia.
  by apply int_small.
Qed.

(** A number that [tftp_send_oack] prints with [sprintf] is read back
    by the [atoi] of [parse_options] as the same number, for every value
    of an [int]; the digits hold no NUL, so the NUL written after them
    ends the value. *)
Theorem printed_number_is_read_back z :
  - 2 ^ 31 ≤ z < 2 ^ 31 →
  atoi (decimal z) = z ∧
  ∀ rest, cstring (decimal z ++ 0 :: rest) = Some (decimal z, rest).
Proof.
  intros Hz. split.
  - by apply atoi_decimal_int.
  - intros rest. apply cstring_app, decimal_c_string.
Qed.

Lemma printed_number_is_read_back_witness :
  atoi (decimal (-1428)) = -1428 ∧
  ∀ rest, cstring (decimal (-1428) ++ 0 :: rest) = Some (decimal (-1428), rest).
Proof.
  apply (printed_number_is_read_back (-1428)). lia.
Defined.

Lemma oack_packet_encode opts :
  oack_packet opts =
    [0; OP_OACK] ++
    encode_options ((λ e, (bytes_of_string e.1, decimal e.2)) <$> opts).
Proof.
  unfold oack_packet, encode_options. f_equal.
  rewrite <- list_fmap_compose. reflexivity.
Qed.

Lemma apply_options_cons k v l o :
  apply_options ((k, v) :: l) o = apply_options l (set_option o k v).
Proof. reflexivity. Qed.

Lemma literal_c_string (s : string) :
  forallb (λ b, negb (b =? 0)) (bytes_of_string s) = true →
  c_string (bytes_of_string s).
Proof.
  unfold c_string. rewrite forallb_forall, Forall_forall.
  intros H b Hb%list_elem_of_In. specialize (H b Hb).
  apply negb_true_iff, Z.eqb_neq in H. done.
Qed.

Lemma echoed_c_strings opts :
  Forall (λ e, forallb (λ b, negb (b =? 0)) (bytes_of_string e.1) = true) opts →
  Forall (λ kv : list Z * list Z, c_string kv.1 ∧ c_string kv.2)
    ((λ e, (bytes_of_string e.1, decimal e.2)) <$> opts).
Proof.
  intros H. apply Forall_fmap. eapply Forall_impl; [exact H|].
  intros [n v] Hn. simpl in *. split;
    [by apply literal_c_string | apply decimal_c_string].
Qed.

Lemma set_option_literal o v :
  set_option o (bytes_of_string "blksize") v =
    Options (size_t (atoi v)) (o_tsize o) (o_wsize o) (o_timeoutms o)
      (o_rsize o) (o_seek o) ∧
  set_option o (bytes_of_string "timeoutms") v =
    Options (o_blksize o) (o_tsize o) (o_wsize o) (unsigned_int (atoi v))
      (o_rsize o) (o_seek o) ∧
  set_option o (bytes_of_string "tsize") v =
    Options (o_blksize o) (atoi v) (o_wsize o) (o_timeoutms o)
      (o_rsize o) (o_seek o) ∧
  set_option o (bytes_of_string "wsize") v =
    Options (o_blksize o) (o_tsize o) (size_t (atoi v)) (o_timeoutms o)
      (o_rsize o) (o_seek o) ∧
  set_option o (bytes_of_string "rsize") v =
    Options (o_blksize o) (o_tsize o) (o_wsize o) (o_timeoutms o)
      (size_t (atoi v)) (o_seek o) ∧
  set_option o (bytes_of_string "seek") v =
    Options (o_blksize o) (o_tsize o) (o_wsize o) (o_timeoutms o)
      (o_rsize o) (atoi v).
Proof. split_and!; reflexivity. Qed.

(** The option acknowledgement can be read back by the server's own
    [parse_options]: started from the defaults, it ends with the
    [blksize], [timeoutms], [wsize], [rsize] and [seek] of the client the
    acknowledgement was sent for, and with the [tsize] that was sent.
    An option left out of the acknowledgement is one whose value is
    the default. The values are those of an [int] that is not
    negative. *)
Theorem acknowledgement_is_read_back o t :
  0 ≤ o_blksize o < 2 ^ 31 → 0 ≤ o_timeoutms o < 2 ^ 31 →
  0 ≤ o_wsize o < 2 ^ 31 → 0 ≤ o_rsize o < 2 ^ 31 →
  0 ≤ o_seek o < 2 ^ 31 → - 2 ^ 31 ≤ t < 2 ^ 31 →
  parse_options (drop 2 (oack_packet (echoed o t))) default_options =
    Ok (Options (o_blksize o) (if t =? 0 then -1 else t) (o_wsize o)
          (o_timeoutms o) (o_rsize o) (o_seek o)).
Proof.
  intros Hb Htm Hw Hr Hs Ht.
  rewrite oack_packet_encode.
  change (drop 2 ([0; OP_OACK] ++ ?l)) with l.
  rewrite parse_options_encoded.
  2:{ apply echoed_c_strings. unfold echoed, oack_options, nonzero_ptr.
      repeat case_match; simpl app;
        repeat (apply Forall_cons; split; [reflexivity|]);
        apply Forall_nil_2. }
  f_equal.
  assert (Hsz : ∀ v, 0 ≤ v < 2 ^ 31 → size_t (atoi (decimal (ssize_t v))) = v).
  { intros v Hv. unfold ssize_t, size_t.
    rewrite (Z.mod_small (v + 2 ^ 63)) by lia.
    rewrite atoi_decimal_int by lia. rewrite Z.mod_small; lia. }
  assert (Hsk : ∀ v, - 2 ^ 31 ≤ v < 2 ^ 31 → atoi (decimal (ssize_t v)) = v).
  { intros v Hv. unfold ssize_t.
    rewrite (Z.mod_small (v + 2 ^ 63)) by lia. rewrite atoi_decimal_int; lia. }
  assert (Hui : ∀ v, 0 ≤ v < 2 ^ 31 → unsigned_int (atoi (decimal (int v))) = v).
  { intros v Hv. rewrite (int_small v) by lia.
    rewrite atoi_decimal_int by lia.
    unfold unsigned_int. rewrite Z.mod_small; lia. }
  pose proof (size_t_minus_one t ltac:(lia)) as Hminus.
  pose proof (ssize_t_size_t t ltac:(lia)) as Hst.
  unfold echoed, oack_options, nonzero_ptr.
  destruct (t =? 0) eqn:Ht0; [|rewrite Hminus; destruct (t =? -1) eqn:Ht1];
    destruct (o_wsize o =? 0) eqn:Hw0; destruct (o_rsize o =? 0) eqn:Hr0;
    destruct (o_seek o =? 0) eqn:Hs0;
    cbn [negb app fmap list_fmap fst snd];
    rewrite ?apply_options_cons;
    repeat (first
      [ rewrite (proj1 (set_option_literal _ _))
      | rewrite (proj1 (proj2 (set_option_literal _ _)))
      | rewrite (proj1 (proj2 (proj2 (set_option_literal _ _))))
      | rewrite (proj1 (proj2 (proj2 (proj2 (set_option_literal _ _)))))
      | rewrite (proj1 (proj2 (proj2 (proj2 (proj2 (set_option_literal _ _))))))
      | rewrite (proj2 (proj2 (proj2 (proj2 (proj2 (set_option_literal _ _))))))
      ]; cbn [o_blksize o_tsize o_wsize o_timeoutms o_rsize o_seek]);
    unfold apply_options; cbn [foldl default_options
      o_blksize o_tsize o_wsize o_timeoutms o_rsize o_seek];
    rewrite ?Hst; rewrite ?Hsz, ?Hui by lia;
    try rewrite (Hsk (o_seek o)) by lia;
    try rewrite (atoi_decimal_int t) by lia;
    apply Z.eqb_eq in Hw0 || clear Hw0;
    apply Z.eqb_eq in Hr0 || clear Hr0;
    apply Z.eqb_eq in Hs0 || clear Hs0;
    apply Z.eqb_eq in Ht1 || idtac;
    destruct o; simpl in *; congruence.
Qed.

Lemma acknowledgement_is_read_back_witness :
  let o := Options 8 (-1) 2 1000 20 4 in
  parse_options (drop 2 (oack_packet (echoed o 100))) default_options =
    Ok (Options (o_blksize o) (if 100 =? 0 then -1 else 100) (o_wsize o)
          (o_timeoutms o) (o_rsize o) (o_seek o)).
Proof.
  apply (acknowledgement_is_read_back (Options 8 (-1) 2 1000 20 4) 100);
    simpl; lia.
Defined.

(** ** A whole write transfer *)

(** Writing [p] at a position of the file, then [q] where that left the
    position, is writing [p ++ q] at the first position. *)
Lemma overwrite_twice (data p q : list Z) (pos : nat) :
  (pos ≤ length data)%nat →
  let data1 := take pos data ++ p ++ drop (pos + length p) data in
  take (pos + length p) data1 ++ q ++ drop (pos + length p + length q) data1
    = take pos data ++ (p ++ q) ++ drop (pos + length (p ++ q)) data.
Proof.
  intros Hpos data1. subst data1.
  assert (Hlen : length (take pos data ++ p) = (pos + length p)%nat)
    by (rewrite length_app, length_take; lia).
  rewrite (app_assoc (take pos data) p).
  rewrite (take_app_length' (take pos data ++ p)) by done.
  replace (pos + length p + length q)%nat
    with (length (take pos data ++ p) + length q)%nat by lia.
  rewrite drop_app_add, drop_drop, length_app.
  rewrite <- !app_assoc. do 4 f_equal. lia.
Qed.

Lemma written_overwrites c blk payload w f :
  files w !! fd c = Some f → of_writable f = true → sock c ∈ socks w →
  0 ≤ blk < 65536 →
  ∃ f', files (written c blk payload w) !! fd c = Some f' ∧
        of_writable f' = true ∧
        of_data f' = take (of_pos f) (of_data f) ++ payload
                       ++ drop (of_pos f + length payload) (of_data f) ∧
        of_pos f' = (of_pos f + length payload)%nat ∧
        socks (written c blk payload w) = socks w ∧
        wire (written c blk payload w) =
          wire w ++ [(sock c, [0; 4; blk / 256; blk mod 256])].
Proof.
  intros Hf Hw Hs Hblk.
  destruct (written_world c blk payload w f Hf Hw Hs Hblk)
    as (Hwire & Hsocks & Hfiles).
  eexists. split; [by rewrite Hfiles, lookup_insert_eq|]. done.
Qed.

Lemma write_transfer_data sc c n p rest w f :
  files w !! fd c = Some f → of_writable f = true →
  0 ≤ n < 65536 → sc = false ∨ (n / 256 < 128 ∧ n mod 256 < 128) →
  (length p ≤ 512)%nat →
  PlainChar.write_transfer sc c (([0; 3; n / 256; n mod 256] ++ p) :: rest) w =
    if (length p =? 512)%nat
    then PlainChar.write_transfer sc c rest (written c n p w)
    else Ok (0, written c n p w).
Proof.
  intros Hf Hw Hn Hsign Hp.
  cbn [PlainChar.write_transfer].
  rewrite handle_writer_any_char by (by apply low_block_number).
  rewrite <- data_header_bytes by done.
  change (data_header n ++ p) with (0 :: OP_DATA :: hi8 n :: lo8 n :: p).
  rewrite (handle_writer_data c 0 OP_DATA (hi8 n) (lo8 n) p w f) by done.
  rewrite take_ge, be16_hi_lo, uint16_t_small by lia.
  by destruct (length p =? 512)%nat.
Qed.

(** A write transfer stores what the peer sent: after Data packets of 512
    bytes and a last one that is shorter, the handler has answered 1 to
    each but the last, to which it answers 0; the payloads, in the order
    of arrival, stand in the file from the position the file had, over
    what it held there, and what it held further on is kept: the file
    that [handle_wrq] opens, at position 0 and not truncated, has its
    head overwritten. Each packet was acknowledged with the block number
    it carried, whatever that number was; where [char] is signed, the two
    bytes of each number are below 0x80. *)
Theorem upload_stores_what_was_sent sc c blocks blk final w f :
  files w !! fd c = Some f → of_writable f = true →
  (of_pos f ≤ length (of_data f))%nat →
  sock c ∈ socks w →
  Forall (λ b : Z * list Z,
            0 ≤ b.1 < 65536 ∧
            (sc = false ∨ (b.1 / 256 < 128 ∧ b.1 mod 256 < 128)) ∧
            length b.2 = 512%nat) blocks →
  0 ≤ blk < 65536 →
  sc = false ∨ (blk / 256 < 128 ∧ blk mod 256 < 128) →
  (length final < 512)%nat →
  let sent := concat blocks.*2 ++ final in
  ∃ w' f',
    PlainChar.write_transfer sc c
      (((λ b : Z * list Z, [0; 3; b.1 / 256; b.1 mod 256] ++ b.2) <$> blocks)
         ++ [[0; 3; blk / 256; blk mod 256] ++ final]) w = Ok (0, w') ∧
    files w' !! fd c = Some f' ∧
    of_data f' =
      take (of_pos f) (of_data f) ++ sent
        ++ drop (of_pos f + length sent) (of_data f) ∧
    of_pos f' = (of_pos f + length sent)%nat ∧
    wire w' =
      wire w ++ ((λ n, (sock c, [0; 4; n / 256; n mod 256]))
                   <$> (blocks.*1 ++ [blk])) ∧
    socks w' = socks w.
Proof.
  intros Hf Hw Hpos Hs Hblocks Hblk Hsign Hfinal sent. subst sent.
  revert w f Hf Hw Hpos Hs.
  induction Hblocks as [|[n p] blocks (Hn & Hnsign & Hp) _ IH];
    intros w f Hf Hw Hpos Hs.
  - rewrite fmap_nil, app_nil_l.
    rewrite (write_transfer_data sc c blk final [] w f) by (done || lia).
    destruct (Nat.eqb_spec (length final) 512) as [Heq|_]; [lia|].
    destruct (written_overwrites c blk final w f Hf Hw Hs Hblk)
      as (f' & Hf' & _ & Hdata & Hpos' & Hsocks & Hwire).
    exists (written c blk final w), f'. split_and!; done.
  - rewrite !fmap_cons. simpl in Hn, Hnsign, Hp. cbn [fst snd].
    rewrite <- app_comm_cons.
    rewrite (write_transfer_data sc c n p _ w f) by (done || lia).
    rewrite Hp, Nat.eqb_refl.
    destruct (written_overwrites c n p w f Hf Hw Hs Hn)
      as (f1 & Hf1 & Hw1 & Hdata1 & Hpos1 & Hsocks1 & Hwire1).
    destruct (IH (written c n p w) f1 Hf1 Hw1)
      as (w' & f' & Hrun & Hf' & Hdata' & Hpos' & Hwire' & Hsocks').
    { rewrite Hpos1, Hdata1, !length_app, length_take, length_drop. lia. }
    { by rewrite Hsocks1. }
    exists w', f'. split_and!; try done.
    + rewrite Hdata', Hpos1, Hdata1. simpl concat.
      rewrite overwrite_twice by done. by rewrite <- !app_assoc.
    + rewrite Hpos', Hpos1. simpl concat. rewrite !length_app. lia.
    + rewrite Hwire', Hwire1. simpl. by rewrite <- app_assoc.
    + by rewrite Hsocks'.
Qed.

Lemma upload_stores_what_was_sent_witness :
  let c := client_of 512 0 0 0 in
  let f := OFile false true (replicate 700 88) 0 in
  let w := World {[ 7 := f ]} {[ 5 ]} [] in
  let blocks := [(1, file_A 512)] in
  let sent := concat blocks.*2 ++ file_A 100 in
  ∃ w' f',
    PlainChar.write_transfer true c
      (((λ b : Z * list Z, [0; 3; b.1 / 256; b.1 mod 256] ++ b.2) <$> blocks)
         ++ [[0; 3; 2 / 256; 2 mod 256] ++ file_A 100]) w = Ok (0, w') ∧
    files w' !! fd c = Some f' ∧
    of_data f' =
      take (of_pos f) (of_data f) ++ sent
        ++ drop (of_pos f + length sent) (of_data f) ∧
    of_pos f' = (of_pos f + length sent)%nat ∧
    wire w' =
      wire w ++ ((λ n, (sock c, [0; 4; n / 256; n mod 256]))
                   <$> (blocks.*1 ++ [2])) ∧
    socks w' = socks w.
Proof.
  apply (upload_stores_what_was_sent true (client_of 512 0 0 0)
           [(1, file_A 512)] 2 (file_A 100)
           (World {[ 7 := OFile false true (replicate 700 88) 0 ]} {[ 5 ]} [])
           (OFile false true (replicate 700 88) 0)).
  - reflexivity.
  - reflexivity.
  - simpl. lia.
  - reflexivity.
  - apply Forall_cons. split; [|apply Forall_nil_2].
    split; [simpl; lia|]. split; [by (right; split) | reflexivity].
  - lia.
  - by (right; split).
  - simpl. lia.
Defined.

(** ** Datagrams that the service socket ignores *)

(** A datagram on the service socket changes nothing, and gets no answer,
    when it is shorter than 2 bytes, when its opcode is none of RRQ, WRQ
    and ERROR, when it is an Error packet that leaves room in the buffer,
    or when it is a request whose mode is not "octet" in any case of
    letters: the request is dropped without an Error packet. *)
Theorem ignored_datagrams_change_nothing sys src data sv :
  (length data < 2)%nat ∨
  (∃ opcode, rd16 (take 4096 data) 0 = Ok opcode ∧
     ((opcode ≠ OP_RRQ ∧ opcode ≠ OP_WRQ ∧ opcode ≠ OP_ERROR) ∨
      (opcode = OP_ERROR ∧ (length data < 4096)%nat) ∨
      ((opcode = OP_RRQ ∨ opcode = OP_WRQ) ∧
       ∃ filename mode p,
         request_strings (take 4096 data) = Ok (filename, mode, p) ∧
         tolower <$> mode ≠ bytes_of_string "octet"))) →
  serve_request sys src data sv = Ok sv.
Proof.
  unfold serve_request. intros [Hshort | (opcode & Hop & Hcases)].
  - assert ((length (take 4096 data) <? 2)%nat = true) as ->; [|done].
    apply Nat.ltb_lt. rewrite length_take. lia.
  - destruct (Nat.ltb_spec (length (take 4096 data)) 2) as [_|_]; [done|].
    rewrite Hop. simpl.
    destruct Hcases as [(Hr & Hw & He) | [(-> & Hlen) | (Hreq & Hmode)]].
    + apply Z.eqb_neq in Hr, Hw, He. by rewrite Hr, Hw, He.
    + simpl.
      assert ((length (take 4096 data) =? 4096)%nat = false) as ->; [|done].
      apply Nat.eqb_neq. rewrite length_take. lia.
    + destruct Hmode as (filename & mode & p & Hstr & Hmode).
      assert (Hnot : strcasecmp_eq mode "octet" = false).
      { unfold strcasecmp_eq. by apply bool_decide_eq_false_2. }
      destruct Hreq as [-> | ->]; simpl;
        unfold handle_rrq, handle_wrq; rewrite Hstr; simpl;
        rewrite Hnot; simpl; by destruct sv.
Qed.

Lemma ignored_datagrams_change_nothing_witness :
  serve_request (calls_ok (file_A 100)) peer
    (request OP_RRQ ["f"; "netascii"]%string) idle = Ok idle.
Proof.
  apply (ignored_datagrams_change_nothing (calls_ok (file_A 100)) peer
           (request OP_RRQ ["f"; "netascii"]%string) idle).
  right. exists OP_RRQ. split; [reflexivity|].
  right. right. split; [by left|].
  exists (bytes_of_string "f"), (bytes_of_string "netascii"), [].
  split; [vm_compute; reflexivity | vm_compute; congruence].
Defined.

(** ** Where [char] is signed *)

Lemma lor_negative_byte a b : - 256 ≤ b < 0 → Z.lor (Z.shiftl a 8) b = b.
Proof.
  intros Hb. rewrite Z.shiftl_mul_pow2 by lia.
  apply Z.bits_inj'. intros i Hi. rewrite Z.lor_spec.
  destruct (decide (i < 8)).
  - by rewrite Z.mul_pow2_bits_low by lia.
  - rewrite (Z.bits_above_log2_neg b i); [apply orb_true_r | lia |].
    destruct (decide (b = -1)) as [-> | Hne]; [simpl; lia|].
    assert (Z.log2 (Z.pred (- b)) < 8); [|lia].
    apply Z.log2_lt_pow2; lia.
Qed.

(** Where [char] is signed, a block number whose low byte is 0x80 or more
    is read as 0xff00 plus that byte, whatever its high byte: the low byte
    is promoted to a negative [int], whose bits cover those of the high
    byte. The reader takes Ack(128) for Ack(65408) and the writer
    acknowledges Data(128) as block 65408: both handlers do what they do,
    where [char] is unsigned, for the number with the high byte 0xff. *)
Theorem signed_char_misreads_block_numbers fuel c src hi lo rest w :
  0 ≤ hi < 256 → 128 ≤ lo < 256 →
  (∃ v, PlainChar.rd16 true [0; 4; hi; lo] 2 = Ok v ∧
        uint16_t v = 65280 + lo) ∧
  PlainChar.handle_reader true fuel c (Recv src [0; 4; hi; lo]) w =
    PlainChar.handle_reader false fuel c (Recv src [0; 4; 255; lo]) w ∧
  PlainChar.handle_writer true c (Recv src ([0; 3; hi; lo] ++ rest)) w =
    PlainChar.handle_writer false c (Recv src ([0; 3; 255; lo] ++ rest)) w.
Proof.
  intros Hhi Hlo.
  assert (Hpl : PlainChar.promote true lo = lo - 256).
  { unfold PlainChar.promote. by rewrite (proj2 (Z.leb_le _ _)) by lia. }
  assert (Hsigned : Z.lor (Z.shiftl (PlainChar.promote true hi) 8)
                      (PlainChar.promote true lo) = lo - 256).
  { rewrite Hpl. apply lor_negative_byte. lia. }
  assert (Hunsigned : Z.lor (Z.shiftl 255 8) lo = 65280 + lo).
  { rewrite lor_shift_byte by lia. lia. }
  assert (Hblock : uint16_t (lo - 256) = 65280 + lo).
  { unfold uint16_t. Z.div_mod_to_equations. lia. }
  split_and!.
  - exists (lo - 256). split; [|done].
    unfold PlainChar.rd16. simpl. by rewrite Hsigned.
  - unfold PlainChar.handle_reader.
    change (PlainChar.rd16 true (take 128 [0; 4; hi; lo]) 0)
      with (PlainChar.rd16 false (take 128 [0; 4; 255; lo]) 0).
    change (PlainChar.rd16 true (take 128 [0; 4; hi; lo]) 2)
      with (Ok (A:=Z) (Z.lor (Z.shiftl (PlainChar.promote true hi) 8)
                         (PlainChar.promote true lo))).
    change (PlainChar.rd16 false (take 128 [0; 4; 255; lo]) 2)
      with (Ok (A:=Z) (Z.lor (Z.shiftl 255 8) lo)).
    rewrite Hsigned, Hunsigned.
    destruct (negb (same_peer src (sq c))); [done|].
    cbv beta iota zeta delta [mbind result_bind].
    by rewrite Hblock, (uint16_t_small (65280 + lo)) by lia.
  - unfold PlainChar.handle_writer.
    change (take 516 ([0; 3; hi; lo] ++ rest))
      with (0 :: 3 :: hi :: lo :: take 512 rest).
    change (take 516 ([0; 3; 255; lo] ++ rest))
      with (0 :: 3 :: 255 :: lo :: take 512 rest).
    change (PlainChar.rd16 true (0 :: 3 :: hi :: lo :: take 512 rest) 0)
      with (PlainChar.rd16 false (0 :: 3 :: 255 :: lo :: take 512 rest) 0).
    change (PlainChar.rd16 true (0 :: 3 :: hi :: lo :: take 512 rest) 2)
      with (Ok (A:=Z) (Z.lor (Z.shiftl (PlainChar.promote true hi) 8)
                         (PlainChar.promote true lo))).
    change (PlainChar.rd16 false (0 :: 3 :: 255 :: lo :: take 512 rest) 2)
      with (Ok (A:=Z) (Z.lor (Z.shiftl 255 8) lo)).
    change (drop 4 (0 :: 3 :: hi :: lo :: take 512 rest))
      with (take 512 rest).
    change (drop 4 (0 :: 3 :: 255 :: lo :: take 512 rest))
      with (take 512 rest).
    rewrite Hsigned, Hunsigned.
    destruct (negb (same_peer src (sq c))); [done|].
    cbv beta iota zeta delta [mbind result_bind].
    by rewrite Hblock, (uint16_t_small (65280 + lo)) by lia.
Qed.

Lemma signed_char_misreads_block_numbers_witness :
  (∃ v, PlainChar.rd16 true [0; 4; 0; 128] 2 = Ok v ∧
        uint16_t v = 65280 + 128) ∧
  PlainChar.handle_reader true 1 (client_of 8 2000 1 0)
    (Recv peer [0; 4; 0; 128]) (reading (file_A 100)) =
    PlainChar.handle_reader false 1 (client_of 8 2000 1 0)
      (Recv peer [0; 4; 255; 128]) (reading (file_A 100)) ∧
  PlainChar.handle_writer true (client_of 8 2000 1 0)
    (Recv peer ([0; 3; 0; 128] ++ file_A 512)) (reading (file_A 100)) =
    PlainChar.handle_writer false (client_of 8 2000 1 0)
      (Recv peer ([0; 3; 255; 128] ++ file_A 512)) (reading (file_A 100)).
Proof.
  apply (signed_char_misreads_block_numbers 1 (client_of 8 2000 1 0) peer
           0 128 (file_A 512) (reading (file_A 100))); lia.
Defined.
